(** * HTTP transport adapter: correlation registry, dispatcher and wire form

    A shallow embedding of [HTTPTransportAdapter] (the deferred-completion
    variant, with [pendingResponses] and [sendResponse]) together with the
    runtime primitives it calls: [Map], [setTimeout]/[clearTimeout], promise
    settlement, property lookup on ordinary objects and
    [JSON.stringify]/[JSON.parse]. *)

From Stdlib Require Import ZArith NArith String Ascii List Bool Lia.
From Stdlib Require Import DecimalN DecimalPos SpecFloat.
From stdpp Require Import base option list gmap strings.

Local Open Scope string_scope.
Local Open Scope Z_scope.

(** ** Numbers

    A Number is a binary64 floating-point value: a signed zero, a signed
    infinity, NaN, or [m * 2^e] with a mantissa of at most 53 bits. *)

Definition number : Type := spec_float.

(** The Number value of an integer (rounded to nearest, ties to even, beyond
    2^53); integer literals are read at [number] through it. *)
Definition number_of_Z (z : Z) : number := binary_normalize 53 1024 z 0 false.

Coercion number_of_Z : Z >-> number.

Definition number_eqb (x y : number) : bool :=
  match x, y with
  | S754_zero s, S754_zero t => Bool.eqb s t
  | S754_infinity s, S754_infinity t => Bool.eqb s t
  | S754_nan, S754_nan => true
  | S754_finite s m e, S754_finite t n f => Bool.eqb s t && Pos.eqb m n && Z.eqb e f
  | _, _ => false
  end.

Definition is_finite (x : number) : bool :=
  match x with
  | S754_zero _ | S754_finite _ _ _ => true
  | S754_infinity _ | S754_nan => false
  end.

(** The Number value of the decimal [M * 10^E], rounded to nearest, ties to
    even.  Decimals above 10^310 are beyond the largest Number and those
    below 10^-330 are below half the smallest one. *)
Definition decimal_to_number (neg : bool) (M : N) (E : Z) : number :=
  match M with
  | N0 => S754_zero neg
  | Npos m =>
      let d := Z.of_nat (Decimal.nb_digits (Pos.to_uint m)) in
      if 310 <? d + E then S754_infinity neg
      else if d + E <? -330 then S754_zero neg
      else if 0 <=? E then binary_round 53 1024 neg (m * Z.to_pos (10 ^ E)) 0
      else SFdiv 53 1024 (S754_finite neg m 0)
                 (S754_finite false (Z.to_pos (10 ^ (- E))) 0)
  end.

Fixpoint uint_to_string (d : Decimal.uint) : string :=
  match d with
  | Decimal.Nil => EmptyString
  | Decimal.D0 d => String "0" (uint_to_string d)
  | Decimal.D1 d => String "1" (uint_to_string d)
  | Decimal.D2 d => String "2" (uint_to_string d)
  | Decimal.D3 d => String "3" (uint_to_string d)
  | Decimal.D4 d => String "4" (uint_to_string d)
  | Decimal.D5 d => String "5" (uint_to_string d)
  | Decimal.D6 d => String "6" (uint_to_string d)
  | Decimal.D7 d => String "7" (uint_to_string d)
  | Decimal.D8 d => String "8" (uint_to_string d)
  | Decimal.D9 d => String "9" (uint_to_string d)
  end.

Definition Z_to_string (z : Z) : string :=
  match z with
  | Z0 => "0"
  | Zpos p => uint_to_string (Pos.to_uint p)
  | Zneg p => String "-" (uint_to_string (Pos.to_uint p))
  end.

(** *** Number::toString

    The digits are the fewest whose decimal reads back as the number; of two
    candidates with as many digits, the closer one. *)

(** [floor (m * 2^e / 10^j)], the remainder and the divisor. *)
Definition scaled (m : positive) (e j : Z) : Z * Z * Z :=
  let num := Zpos m * 2 ^ Z.max e 0 * 10 ^ Z.max (- j) 0 in
  let den := 2 ^ Z.max (- e) 0 * 10 ^ Z.max j 0 in
  (num / den, num mod den, den).

(** The [j] for which [m * 2^e / 10^j] has one digit before the point. *)
Fixpoint find_exponent (fuel : nat) (m : positive) (e j : Z) : Z :=
  match fuel with
  | O => j
  | S fuel =>
      let q := fst (fst (scaled m e j)) in
      if q =? 0 then find_exponent fuel m e (j - 1)
      else if 10 <=? q then find_exponent fuel m e (j + 1)
      else j
  end.

Fixpoint shortest (fuel : nat) (x : number) (neg : bool) (m : positive) (e j : Z)
  : option (Z * Z) :=
  match fuel with
  | O => None
  | S fuel =>
      let '(lo, r, den) := scaled m e j in
      let hi := lo + 1 in
      let lo_ok := number_eqb (decimal_to_number neg (Z.to_N lo) j) x in
      let hi_ok := number_eqb (decimal_to_number neg (Z.to_N hi) j) x in
      if lo_ok && hi_ok then
        match 2 * r ?= den with
        | Lt => Some (lo, j)
        | Gt => Some (hi, j)
        | Eq => Some (if Z.even lo then lo else hi, j)
        end
      else if lo_ok then Some (lo, j)
      else if hi_ok then Some (hi, j)
      else shortest fuel x neg m e (j - 1)
  end.

Fixpoint strip_zeros (ds : list ascii) (j : Z) : list ascii * Z :=
  match ds with
  | c :: ds' => if Ascii.eqb c "0" then strip_zeros ds' (j + 1) else (ds, j)
  | [] => (ds, j)
  end.

Fixpoint zeros (n : nat) : string :=
  match n with
  | O => EmptyString
  | S n => String "0" (zeros n)
  end.

(** The digits [ds] with the decimal point after the [n]-th. *)
Definition format_digits (ds : string) (n : Z) : string :=
  let k := Z.of_nat (String.length ds) in
  if (k <=? n) && (n <=? 21) then ds +:+ zeros (Z.to_nat (n - k))
  else if (0 <? n) && (n <=? 21) then
    substring 0 (Z.to_nat n) ds +:+ "." +:+ substring (Z.to_nat n) (Z.to_nat (k - n)) ds
  else if (-6 <? n) && (n <=? 0) then "0." +:+ zeros (Z.to_nat (- n)) +:+ ds
  else
    let ex := n - 1 in
    let sg := if ex <? 0 then "-" else "+" in
    match ds with
    | String c EmptyString => String c ("e" +:+ sg +:+ Z_to_string (Z.abs ex))
    | String c r => String c ("." +:+ r +:+ "e" +:+ sg +:+ Z_to_string (Z.abs ex))
    | EmptyString => EmptyString
    end.

Definition NumberToString (x : number) : string :=
  match x with
  | S754_nan => "NaN"
  | S754_infinity false => "Infinity"
  | S754_infinity true => "-Infinity"
  | S754_zero _ => "0"
  | S754_finite neg m e =>
      let j0 := find_exponent 4 m e ((Zpos (digits2_pos m) + e) * 30103 / 100000) in
      match shortest 17 x neg m e j0 with
      | Some (s, j) =>
          let (rds, j') := strip_zeros (rev (list_ascii_of_string (Z_to_string s))) j in
          let ds := string_of_list_ascii (rev rds) in
          (if neg then "-" else "") +:+ format_digits ds (Z.of_nat (String.length ds) + j')
      | None => "NaN"
      end
  end.

(** [x] as an integer, when it is one. *)
Definition number_to_Z (x : number) : option Z :=
  match x with
  | S754_zero _ => Some 0
  | S754_finite s m e =>
      let z := if 0 <=? e then Some (Zpos m * 2 ^ e)
               else if Zpos m mod 2 ^ (- e) =? 0 then Some (Zpos m / 2 ^ (- e))
               else None in
      (fun v => if s then - v else v) <$> z
  | S754_infinity _ | S754_nan => None
  end.

(** [x === y] on numbers: the zeros are equal, NaN equals nothing. *)
Definition number_strict_eqb (x y : number) : bool :=
  match x, y with
  | S754_zero _, S754_zero _ => true
  | S754_nan, _ | _, S754_nan => false
  | _, _ => number_eqb x y
  end.

(** ** JavaScript values

    A string holds the UTF-8 bytes of the JavaScript string, an unpaired
    surrogate as the three bytes of its generalised form; the bytes of a
    text on the wire are then the text itself.  An object is its list of own
    enumerable properties in the order [Object.keys] enumerates them. *)

#[local] Unset Elimination Schemes.
Inductive js_value : Type :=
| JUndefined
| JNull
| JBool (b : bool)
| JNum (x : number)
| JStr (s : string)
| JArr (items : list js_value)
| JObj (props : list (string * js_value)).
#[local] Set Elimination Schemes.

(** Induction on values, with the hypothesis for every element of an array
    and every property value of an object. *)
Section js_value_induction.

Variable P : js_value -> Prop.
Hypothesis P_undefined : P JUndefined.
Hypothesis P_null : P JNull.
Hypothesis P_bool : forall b, P (JBool b).
Hypothesis P_num : forall x, P (JNum x).
Hypothesis P_str : forall s, P (JStr s).
Hypothesis P_arr : forall items, Forall P items -> P (JArr items).
Hypothesis P_obj : forall props, Forall (fun p => P (snd p)) props -> P (JObj props).

Fixpoint js_value_ind (v : js_value) : P v :=
  match v with
  | JUndefined => P_undefined
  | JNull => P_null
  | JBool b => P_bool b
  | JNum x => P_num x
  | JStr s => P_str s
  | JArr items =>
      P_arr items
        ((fix all (l : list js_value) : Forall P l :=
            match l with
            | [] => @List.Forall_nil _ P
            | x :: l' => @List.Forall_cons _ P x l' (js_value_ind x) (all l')
            end) items)
  | JObj props =>
      P_obj props
        ((fix all (l : list (string * js_value)) : Forall (fun p => P (snd p)) l :=
            match l with
            | [] => @List.Forall_nil _ (fun p => P (snd p))
            | p :: l' =>
                @List.Forall_cons _ (fun p => P (snd p)) p l' (js_value_ind (snd p)) (all l')
            end) props)
  end.

End js_value_induction.

(** ToBoolean *)
Definition truthy (v : js_value) : bool :=
  match v with
  | JUndefined | JNull => false
  | JBool b => b
  | JNum (S754_zero _) | JNum S754_nan => false
  | JNum _ => true
  | JStr s => negb (String.eqb s "")
  | JArr _ | JObj _ => true
  end.

(** ToString, as a template literal and a property key apply it. *)
Fixpoint ToString (v : js_value) : string :=
  match v with
  | JUndefined => "undefined"
  | JNull => "null"
  | JBool true => "true"
  | JBool false => "false"
  | JNum x => NumberToString x
  | JStr s => s
  | JArr items =>
      String.concat ","
        (List.map (fun x => match x with
                            | JUndefined | JNull => ""
                            | _ => ToString x
                            end) items)
  | JObj _ => "[object Object]"
  end.

Module JSON.

(** *** Characters of the JSON grammar *)

Definition dquote : ascii := "034"%char.
Definition backslash : ascii := "092"%char.

Definition quote_s : string := String dquote EmptyString.

Definition is_ws (c : ascii) : bool :=
  match N_of_ascii c with
  | 9%N | 10%N | 13%N | 32%N => true
  | _ => false
  end.

Fixpoint skip_ws (s : string) : string :=
  match s with
  | String c r => if is_ws c then skip_ws r else s
  | EmptyString => s
  end.

(** *** Numbers: the JSON number grammar *)

Definition digit_of (c : ascii) : option (Decimal.uint -> Decimal.uint) :=
  match N_of_ascii c with
  | 48%N => Some Decimal.D0
  | 49%N => Some Decimal.D1
  | 50%N => Some Decimal.D2
  | 51%N => Some Decimal.D3
  | 52%N => Some Decimal.D4
  | 53%N => Some Decimal.D5
  | 54%N => Some Decimal.D6
  | 55%N => Some Decimal.D7
  | 56%N => Some Decimal.D8
  | 57%N => Some Decimal.D9
  | _ => None
  end.

Fixpoint scan_digits (s : string) : Decimal.uint * string :=
  match s with
  | String c r =>
      match digit_of c with
      | Some k => let (d, rest) := scan_digits r in (k d, rest)
      | None => (Decimal.Nil, s)
      end
  | EmptyString => (Decimal.Nil, s)
  end.

(** A digit sequence is a JSON integer part when it is not empty and has no
    leading zero (the single digit 0 apart). *)
Definition canonical_digits (d : Decimal.uint) : bool :=
  match d with
  | Decimal.Nil => false
  | Decimal.D0 Decimal.Nil => true
  | Decimal.D0 _ => false
  | _ => true
  end.

(** The characters that continue a number into a fraction or an exponent. *)
Definition continues_number (s : string) : bool :=
  match s with
  | String c _ =>
      match N_of_ascii c with
      | 46%N | 69%N | 101%N => true
      | _ => false
      end
  | EmptyString => false
  end.

(** The digits after a decimal point, if there is one. *)
Definition parse_fraction (s : string) : option (Decimal.uint * string) :=
  match s with
  | String c r =>
      if Ascii.eqb c "." then
        match scan_digits r with
        | (Decimal.Nil, _) => None
        | (fp, rest) => Some (fp, rest)
        end
      else Some (Decimal.Nil, s)
  | EmptyString => Some (Decimal.Nil, s)
  end.

Definition parse_sign (s : string) : bool * string :=
  match s with
  | String c r =>
      if Ascii.eqb c "-" then (true, r)
      else if Ascii.eqb c "+" then (false, r)
      else (false, s)
  | EmptyString => (false, s)
  end.

(** The exponent part, if there is one. *)
Definition parse_exponent (s : string) : option (Z * string) :=
  match s with
  | String c r =>
      if Ascii.eqb c "e" || Ascii.eqb c "E" then
        let (neg, r1) := parse_sign r in
        match scan_digits r1 with
        | (Decimal.Nil, _) => None
        | (ed, rest) =>
            Some (if neg then - Z.of_N (N.of_uint ed) else Z.of_N (N.of_uint ed), rest)
        end
      else Some (0, s)
  | EmptyString => Some (0, s)
  end.

Definition parse_unsigned (neg : bool) (s : string) : option (number * string) :=
  let (ip, s2) := scan_digits s in
  if canonical_digits ip then
    match parse_fraction s2 with
    | Some (fp, s3) =>
        match parse_exponent s3 with
        | Some (ex, s4) =>
            Some (decimal_to_number neg (N.of_uint (Decimal.app ip fp))
                    (ex - Z.of_nat (Decimal.nb_digits fp)), s4)
        | None => None
        end
    | None => None
    end
  else None.

Definition parse_number (s : string) : option (number * string) :=
  match s with
  | String c r => if Ascii.eqb c "-" then parse_unsigned true r else parse_unsigned false s
  | EmptyString => None
  end.

(** *** Strings: QuoteJSONString and the JSON string grammar *)

Definition hex_char (n : N) : ascii :=
  if (n <? 10)%N then ascii_of_N (48 + n) else ascii_of_N (87 + n).

Definition hex_value (c : ascii) : option N :=
  let n := N_of_ascii c in
  if (48 <=? n)%N && (n <=? 57)%N then Some (n - 48)%N
  else if (97 <=? n)%N && (n <=? 102)%N then Some (n - 87)%N
  else if (65 <=? n)%N && (n <=? 70)%N then Some (n - 55)%N
  else None.

(** The code unit of a [\uXXXX] escape, and the escape of a code unit. *)
Definition hex4_value (h1 h2 h3 h4 : ascii) : option N :=
  match hex_value h1, hex_value h2, hex_value h3, hex_value h4 with
  | Some a, Some b, Some c, Some d => Some (4096 * a + 256 * b + 16 * c + d)%N
  | _, _, _, _ => None
  end.

Definition unicode_escape (cu : N) : string :=
  String backslash
    (String "u"
       (String (hex_char (cu / 4096))
          (String (hex_char ((cu / 256) mod 16))
             (String (hex_char ((cu / 16) mod 16))
                (String (hex_char (cu mod 16)) EmptyString))))).

Definition is_high_surrogate (cu : N) : bool := (55296 <=? cu)%N && (cu <? 56320)%N.
Definition is_low_surrogate (cu : N) : bool := (56320 <=? cu)%N && (cu <? 57344)%N.

(** The bytes of a code point; a surrogate gets the three bytes of its
    generalised form. *)
Definition utf8 (cp : N) : string :=
  if (cp <? 128)%N then String (ascii_of_N cp) EmptyString
  else if (cp <? 2048)%N then
    String (ascii_of_N (192 + cp / 64))
      (String (ascii_of_N (128 + cp mod 64)) EmptyString)
  else if (cp <? 65536)%N then
    String (ascii_of_N (224 + cp / 4096))
      (String (ascii_of_N (128 + (cp / 64) mod 64))
         (String (ascii_of_N (128 + cp mod 64)) EmptyString))
  else
    String (ascii_of_N (240 + cp / 262144))
      (String (ascii_of_N (128 + (cp / 4096) mod 64))
         (String (ascii_of_N (128 + (cp / 64) mod 64))
            (String (ascii_of_N (128 + cp mod 64)) EmptyString))).

(** The surrogate three bytes stand for. *)
Definition surrogate (c1 c2 c3 : ascii) : option N :=
  let n2 := N_of_ascii c2 in
  let n3 := N_of_ascii c3 in
  if (N_of_ascii c1 =? 237)%N && (160 <=? n2)%N && (n2 <=? 191)%N
     && (128 <=? n3)%N && (n3 <=? 191)%N
  then Some (53248 + (n2 - 128) * 64 + (n3 - 128))%N
  else None.

Definition quote_char (c : ascii) : string :=
  let n := N_of_ascii c in
  match n with
  | 8%N => "\b"
  | 9%N => "\t"
  | 10%N => "\n"
  | 12%N => "\f"
  | 13%N => "\r"
  | 34%N => String backslash quote_s
  | 92%N => "\\"
  | _ =>
      if (n <? 32)%N
      then "\u00" +:+ String (hex_char (n / 16)) (String (hex_char (n mod 16)) EmptyString)
      else String c EmptyString
  end.

(** The low surrogate a string starts with. *)
Definition leading_low_surrogate (s : string) : bool :=
  match s with
  | String d1 (String d2 (String d3 _)) =>
      match surrogate d1 d2 d3 with
      | Some cu => is_low_surrogate cu
      | None => false
      end
  | _ => false
  end.

(** The characters of a string literal: an unpaired surrogate is written as
    its escape, the control characters, the quote and the backslash as
    theirs, every other character as it is.  (The three bytes of a high
    surrogate before the three bytes of a low one are the bytes of no
    string, a pair having its four bytes; they are left as they are.) *)
Fixpoint quote_chars (s : string) : string :=
  match s with
  | EmptyString => EmptyString
  | String c1 t =>
      match t with
      | String c2 (String c3 r) =>
          match surrogate c1 c2 c3 with
          | Some cu =>
              if is_high_surrogate cu && leading_low_surrogate r then
                match r with
                | String d1 (String d2 (String d3 r')) =>
                    String c1 (String c2 (String c3
                      (String d1 (String d2 (String d3 (quote_chars r'))))))
                | _ => unicode_escape cu +:+ quote_chars r
                end
              else unicode_escape cu +:+ quote_chars r
          | None => quote_char c1 +:+ quote_chars t
          end
      | _ => quote_char c1 +:+ quote_chars t
      end
  end.

Definition QuoteJSONString (s : string) : string :=
  String dquote (quote_chars s +:+ quote_s).

Definition unescape (c : ascii) : option ascii :=
  match N_of_ascii c with
  | 34%N => Some dquote
  | 92%N => Some backslash
  | 47%N => Some "/"%char
  | 98%N => Some (ascii_of_N 8)
  | 102%N => Some (ascii_of_N 12)
  | 110%N => Some (ascii_of_N 10)
  | 114%N => Some (ascii_of_N 13)
  | 116%N => Some (ascii_of_N 9)
  | _ => None
  end.

(** The low surrogate whose escape a text starts with. *)
Definition low_escape (s : string) : option N :=
  match s with
  | String b s1 =>
      if Ascii.eqb b backslash then
        match s1 with
        | String u s2 =>
            if Ascii.eqb u "u" then
              match s2 with
              | String g1 (String g2 (String g3 (String g4 _))) =>
                  match hex4_value g1 g2 g3 g4 with
                  | Some lo => if is_low_surrogate lo then Some lo else None
                  | None => None
                  end
              | _ => None
              end
            else None
        | EmptyString => None
        end
      else None
  | EmptyString => None
  end.

Definition prepend (p : string) (r : option (string * string)) : option (string * string) :=
  match r with
  | Some (str, rest) => Some (p +:+ str, rest)
  | None => None
  end.

(** The characters after an opening quote, up to and past the closing one.
    The escapes of a high and a low surrogate in a row are one character. *)
Fixpoint parse_chars (s : string) : option (string * string) :=
  match s with
  | EmptyString => None
  | String c r =>
      if Ascii.eqb c dquote then Some (EmptyString, r)
      else if Ascii.eqb c backslash then
        match r with
        | String e r' =>
            if Ascii.eqb e "u" then
              match r' with
              | String h1 (String h2 (String h3 (String h4 r''))) =>
                  match hex4_value h1 h2 h3 h4 with
                  | Some cu =>
                      match (if is_high_surrogate cu then low_escape r'' else None) with
                      | Some lo =>
                          match r'' with
                          | String _ (String _ (String _ (String _ (String _ (String _ r3))))) =>
                              prepend (utf8 (65536 + (cu - 55296) * 1024 + (lo - 56320)))
                                      (parse_chars r3)
                          | _ => None
                          end
                      | None => prepend (utf8 cu) (parse_chars r'')
                      end
                  | None => None
                  end
              | _ => None
              end
            else
              match unescape e with
              | Some ch => prepend (String ch EmptyString) (parse_chars r')
              | None => None
              end
        | EmptyString => None
        end
      else if (N_of_ascii c <? 32)%N then None
      else prepend (String c EmptyString) (parse_chars r)
  end.

(** *** Objects: own property order and CreateDataProperty *)

(** An array index is the canonical decimal form of an integer below
    2^32 - 1; ordinary objects enumerate such keys first, in ascending
    order, and the other keys after them in creation order. *)
Definition array_index (k : string) : option N :=
  let (d, rest) := scan_digits k in
  if String.eqb rest "" && canonical_digits d && (N.of_uint d <? 4294967295)%N
  then Some (N.of_uint d) else None.

Fixpoint has_key (k : string) (props : list (string * js_value)) : bool :=
  match props with
  | [] => false
  | (k', _) :: ps => String.eqb k k' || has_key k ps
  end.

Fixpoint get_prop (k : string) (props : list (string * js_value)) : js_value :=
  match props with
  | [] => JUndefined
  | (k', v) :: ps => if String.eqb k k' then v else get_prop k ps
  end.

Fixpoint replace_prop (k : string) (v : js_value) (props : list (string * js_value))
  : list (string * js_value) :=
  match props with
  | [] => []
  | (k', v') :: ps =>
      if String.eqb k k' then (k', v) :: ps else (k', v') :: replace_prop k v ps
  end.

Fixpoint insert_index (n : N) (k : string) (v : js_value)
    (props : list (string * js_value)) : list (string * js_value) :=
  match props with
  | [] => [(k, v)]
  | (k', v') :: ps =>
      match array_index k' with
      | Some m =>
          if (m <? n)%N then (k', v') :: insert_index n k v ps
          else (k, v) :: props
      | None => (k, v) :: props
      end
  end.

Definition CreateDataProperty (k : string) (v : js_value)
    (props : list (string * js_value)) : list (string * js_value) :=
  if has_key k props then replace_prop k v props
  else match array_index k with
       | Some n => insert_index n k v props
       | None => props ++ [(k, v)]
       end.

(** *** JSON.stringify (no replacer, no indentation) *)

Definition member_text (k : string) (t : string) : string :=
  QuoteJSONString k +:+ ":" +:+ t.

Definition number_text (x : number) : string :=
  if is_finite x then NumberToString x else "null".

Fixpoint SerializeJSONProperty (v : js_value) : option string :=
  match v with
  | JUndefined => None
  | JNull => Some "null"
  | JBool true => Some "true"
  | JBool false => Some "false"
  | JNum x => Some (number_text x)
  | JStr s => Some (QuoteJSONString s)
  | JArr items =>
      Some ("[" +:+
            String.concat ","
              (List.map (fun x => default "null" (SerializeJSONProperty x)) items)
            +:+ "]")
  | JObj props =>
      Some ("{" +:+
            String.concat ","
              (omap (fun p => member_text (fst p) <$> SerializeJSONProperty (snd p)) props)
            +:+ "}")
  end.

Definition SerializeJSONArray (items : list js_value) : string :=
  "[" +:+
  String.concat ","
    (List.map (fun x => default "null" (SerializeJSONProperty x)) items)
  +:+ "]".

Definition SerializeJSONObject (props : list (string * js_value)) : string :=
  "{" +:+
  String.concat ","
    (omap (fun p => member_text (fst p) <$> SerializeJSONProperty (snd p)) props)
  +:+ "}".

(** [None] stands for the result [undefined]. *)
Definition stringify (v : js_value) : option string := SerializeJSONProperty v.

(** *** JSON.parse (no reviver) *)

Fixpoint strip_prefix (lit s : string) : option string :=
  match lit, s with
  | EmptyString, _ => Some s
  | String a lit', String b s' => if Ascii.eqb a b then strip_prefix lit' s' else None
  | String _ _, EmptyString => None
  end.

Definition expect (lit : string) (v : js_value) (s : string)
  : option (js_value * string) :=
  match strip_prefix lit s with
  | Some rest => Some (v, rest)
  | None => None
  end.

Fixpoint parse_value (fuel : nat) (s : string) : option (js_value * string) :=
  match fuel with
  | O => None
  | S fuel =>
      match skip_ws s with
      | EmptyString => None
      | String c r =>
          match N_of_ascii c with
          | 110%N => expect "null" JNull (String c r)
          | 116%N => expect "true" (JBool true) (String c r)
          | 102%N => expect "false" (JBool false) (String c r)
          | 34%N =>
              match parse_chars r with
              | Some (str, rest) => Some (JStr str, rest)
              | None => None
              end
          | 91%N =>
              match skip_ws r with
              | String "]" rest => Some (JArr [], rest)
              | _ =>
                  match parse_elements fuel r with
                  | Some (items, rest) => Some (JArr items, rest)
                  | None => None
                  end
              end
          | 123%N =>
              match skip_ws r with
              | String "}" rest => Some (JObj [], rest)
              | _ =>
                  match parse_members fuel [] r with
                  | Some (props, rest) => Some (JObj props, rest)
                  | None => None
                  end
              end
          | _ =>
              match parse_number (String c r) with
              | Some (x, rest) => Some (JNum x, rest)
              | None => None
              end
          end
      end
  end
with parse_elements (fuel : nat) (s : string) : option (list js_value * string) :=
  match fuel with
  | O => None
  | S fuel =>
      match parse_value fuel s with
      | Some (v, rest) =>
          match skip_ws rest with
          | String "," rest' =>
              match parse_elements fuel rest' with
              | Some (vs, rest'') => Some (v :: vs, rest'')
              | None => None
              end
          | String "]" rest' => Some ([v], rest')
          | _ => None
          end
      | None => None
      end
  end
with parse_members (fuel : nat) (acc : list (string * js_value)) (s : string)
  : option (list (string * js_value) * string) :=
  match fuel with
  | O => None
  | S fuel =>
      match skip_ws s with
      | String c r =>
          if Ascii.eqb c dquote then
            match parse_chars r with
            | Some (k, rest) =>
                match skip_ws rest with
                | String ":" rest' =>
                    match parse_value fuel rest' with
                    | Some (v, rest'') =>
                        let acc' := CreateDataProperty k v acc in
                        match skip_ws rest'' with
                        | String "," rest3 => parse_members fuel acc' rest3
                        | String "}" rest3 => Some (acc', rest3)
                        | _ => None
                        end
                    | None => None
                    end
                | _ => None
                end
            | None => None
            end
          else None
      | EmptyString => None
      end
  end.

(** [None] stands for the SyntaxError that [JSON.parse] throws. *)
Definition parse (text : string) : option js_value :=
  match parse_value (S (String.length text)) text with
  | Some (v, rest) =>
      match skip_ws rest with
      | EmptyString => Some v
      | _ => None
      end
  | None => None
  end.

(** *** The values JSON can carry

    The order in which an ordinary object enumerates two of its keys: array
    indices ascending before all other keys, and no key twice. *)
Definition precedes (k k' : string) : bool :=
  negb (String.eqb k k') &&
  match array_index k, array_index k' with
  | Some n, Some m => (n <? m)%N
  | Some _, None => true
  | None, Some _ => false
  | None, None => true
  end.

Fixpoint key_order (props : list (string * js_value)) : bool :=
  match props with
  | [] => true
  | (k, _) :: ps => forallb (fun p => precedes k (fst p)) ps && key_order ps
  end.

(** A number is read back when [parse_number] reads it from the text
    [Number::toString] writes for it.  NaN and the infinities, which
    [stringify] writes as null, and negative zero, which it writes as 0,
    are not. *)
Definition reads_back (x : number) : bool :=
  match parse_number (NumberToString x) with
  | Some (y, EmptyString) => number_eqb y x
  | _ => false
  end.

(** The values that [stringify] writes without loss: no [undefined],
    every number one that is read back, objects as they enumerate. *)
Fixpoint json_value (v : js_value) : bool :=
  match v with
  | JUndefined => false
  | JNull | JBool _ | JStr _ => true
  | JNum x => reads_back x
  | JArr items => forallb json_value items
  | JObj props => forallb (fun p => json_value (snd p)) props && key_order props
  end.

(** The number of nested calls the parser makes for a value. *)
Fixpoint size (v : js_value) : nat :=
  match v with
  | JArr items => S (list_sum (List.map (fun x => S (size x)) items))
  | JObj props => S (list_sum (List.map (fun p => S (size (snd p))) props))
  | _ => 1
  end.

(** The first character of a number, of any value, and what may follow a
    value without running into it. *)
Definition is_digit (c : ascii) : bool :=
  match digit_of c with
  | Some _ => true
  | None => false
  end.

Definition number_start (c : ascii) : bool := is_digit c || Ascii.eqb c "-".

Definition value_start (c : ascii) : bool :=
  match N_of_ascii c with
  | 110%N | 116%N | 102%N | 34%N | 91%N | 123%N => true
  | _ => number_start c
  end.

Definition value_end (rest : string) : bool :=
  match rest with
  | EmptyString => true
  | String c _ => negb (is_digit c) && negb (continues_number rest)
  end.

(** The check that the surrogate of bytes 237, [n2], [n3] is written by
    [utf8] as those bytes and by [unicode_escape] as an escape that
    [hex4_value] reads back, and that it is a high surrogate exactly when
    [n2] is below 176. *)
Definition surrogate_bytes (n2 n3 : N) : bool :=
  let cu := (53248 + (n2 - 128) * 64 + (n3 - 128))%N in
  String.eqb (utf8 cu)
    (String (ascii_of_N 237) (String (ascii_of_N n2) (String (ascii_of_N n3) EmptyString)))
  && match unicode_escape cu with
     | String b (String u (String h1 (String h2 (String h3 (String h4 EmptyString))))) =>
         Ascii.eqb b backslash && Ascii.eqb u "u"
         && match hex4_value h1 h2 h3 h4 with
            | Some cu' => (cu' =? cu)%N
            | None => false
            end
     | _ => false
     end
  && (is_high_surrogate cu || is_low_surrogate cu)
  && Bool.eqb (is_high_surrogate cu) (n2 <? 176)%N.

(** The text of a value inside an array. *)
Definition text (v : js_value) : string := default "null" (SerializeJSONProperty v).

End JSON.

(** ** Envelopes *)

(** Modelled from the spec: CorrelatedRequestDTO is declared in
    transport-pkg, which is not among the sources.  The fields the adapter
    reads are at their declared types: [action] a string, [request_id] a
    string or absent.  The fields it only passes on ([correlation_id],
    [transport], [data]) are any value, [JUndefined] when absent.  The
    properties are in the order of the spec's envelope;
    [request_id_last] says that [request_id] comes after them, where an
    assignment to an object that has no such property creates it. *)
Record CorrelatedRequestDTO : Type := {
  action : string;
  correlation_id : js_value;
  request_id : option string;
  transport : js_value;
  data : js_value;
  request_id_last : bool
}.

(** Modelled from the spec: CorrelatedResponseDTO is declared in
    transport-pkg as well; the fields are those of the response envelope of
    the spec, and the [request_id] that [sendResponse] reads. *)
Record CorrelatedResponseDTO : Type := {
  res_action : string;
  res_correlation_id : js_value;
  res_request_id : option string;
  res_data : js_value;
  error : string;
  status : number
}.

(** The envelope as the object handed to [JSON.stringify]; an absent
    property is no property. *)
Definition optional_prop (k : string) (o : option string) : list (string * js_value) :=
  match o with
  | Some s => [(k, JStr s)]
  | None => []
  end.

Definition prop (k : string) (v : js_value) : list (string * js_value) :=
  match v with
  | JUndefined => []
  | _ => [(k, v)]
  end.

(** A property value as [JSON.stringify] treats it: left out when it is
    [undefined], written without loss when it is a value JSON can carry. *)
Definition carried (v : js_value) : bool :=
  match v with
  | JUndefined => true
  | _ => JSON.json_value v
  end.

Definition request_props (r : CorrelatedRequestDTO) : list (string * js_value) :=
  [("action", JStr (action r))] ++ prop "correlation_id" (correlation_id r)
  ++ (if request_id_last r then [] else optional_prop "request_id" (request_id r))
  ++ prop "transport" (transport r) ++ prop "data" (data r)
  ++ (if request_id_last r then optional_prop "request_id" (request_id r) else []).

Definition response_props (r : CorrelatedResponseDTO) : list (string * js_value) :=
  [("action", JStr (res_action r))] ++ prop "correlation_id" (res_correlation_id r)
  ++ optional_prop "request_id" (res_request_id r)
  ++ prop "data" (res_data r) ++ [("error", JStr (error r)); ("status", JNum (status r))].

(** [v.k] on any value: only an object has the properties read here. *)
Definition property (v : js_value) (k : string) : js_value :=
  match v with
  | JObj props => JSON.get_prop k props
  | _ => JUndefined
  end.

Definition get_string (k : string) (props : list (string * js_value)) : option string :=
  match JSON.get_prop k props with
  | JStr s => Some s
  | _ => None
  end.

Definition get_number (k : string) (props : list (string * js_value)) : option number :=
  match JSON.get_prop k props with
  | JNum x => Some x
  | _ => None
  end.

(** A [request_id] at its declared type: a string, or a value that
    [if (data.request_id)] takes for none.  A truthy value that is not a
    string is not at the type. *)
Definition request_id_of (v : js_value) : option (option string) :=
  match v with
  | JStr s => Some (Some s)
  | _ => if truthy v then None else Some None
  end.

Definition last_key (props : list (string * js_value)) : option string :=
  fst <$> last props.

(** A parsed body at the type of the request envelope. *)
Definition request_of_js (v : js_value) : option CorrelatedRequestDTO :=
  match v with
  | JObj props =>
      match JSON.get_prop "action" props, request_id_of (JSON.get_prop "request_id" props) with
      | JStr a, Some id =>
          Some {| action := a;
                  correlation_id := JSON.get_prop "correlation_id" props;
                  request_id := id;
                  transport := JSON.get_prop "transport" props;
                  data := JSON.get_prop "data" props;
                  request_id_last :=
                    match id with
                    | Some _ => bool_decide (last_key props = Some "request_id")
                    | None => false
                    end |}
      | _, _ => None
      end
  | _ => None
  end.

(** A parsed reply at the type of the response envelope. *)
Definition response_of_js (v : js_value) : option CorrelatedResponseDTO :=
  match v with
  | JObj props =>
      match get_string "action" props, get_string "error" props, get_number "status" props,
            request_id_of (JSON.get_prop "request_id" props) with
      | Some a, Some e, Some st, Some id =>
          Some {| res_action := a;
                  res_correlation_id := JSON.get_prop "correlation_id" props;
                  res_request_id := id;
                  res_data := JSON.get_prop "data" props;
                  error := e; status := st |}
      | _, _, _, _ => None
      end
  | _ => None
  end.

(** [if (data.request_id)]: present and not the empty string. *)
Definition truthy_id (o : option string) : option string :=
  match o with
  | Some id => if String.eqb id "" then None else Some id
  | None => None
  end.

(** ** Thrown values

    A thrown value is seen by the adapter through [instanceof] and through the
    properties [errors] (the messages of a ZodError's issues), [code] and
    [message]. *)

Record thrown : Type := {
  instanceof_ZodError : bool;
  instanceof_BaseError : bool;
  instanceof_Error : bool;
  errors : list string;
  code : Z;
  message : string
}.

Definition ZodError (issues : list string) (m : string) : thrown :=
  {| instanceof_ZodError := true; instanceof_BaseError := false;
     instanceof_Error := true; errors := issues; code := 0; message := m |}.

Definition BaseError (c : Z) (m : string) : thrown :=
  {| instanceof_ZodError := false; instanceof_BaseError := true;
     instanceof_Error := true; errors := []; code := c; message := m |}.

Definition Error (m : string) : thrown :=
  {| instanceof_ZodError := false; instanceof_BaseError := false;
     instanceof_Error := true; errors := []; code := 0; message := m |}.

(** Modelled from the spec: rest-pkg is not among the sources.  Its
    BadRequestError is the client error written as wire status 400, its
    InternalServerError the server error; both are BaseErrors. *)
Definition BadRequestError (m : string) : thrown := BaseError 400 m.
Definition InternalServerError (m : string) : thrown := BaseError 500 m.

Inductive outcome (A : Type) : Type :=
| Returns (a : A)
| Throws (e : thrown).
Arguments Returns {A} a.
Arguments Throws {A} e.

(** ** What Node's own checks read and throw

    [http.request], [req.setTimeout] and [server.listen] check their
    arguments before anything is written or bound.  Their errors are Errors
    and no BaseErrors; the messages are those of current Node releases. *)

(** One character of WhiteSpace or LineTerminator at the head of a string:
    what is left after it. *)
Definition after_space (s : string) : option string :=
  match s with
  | String c1 r1 =>
      let n1 := N_of_ascii c1 in
      if ((9 <=? n1) && (n1 <=? 13) || (n1 =? 32))%N then Some r1
      else match r1 with
           | String c2 r2 =>
               let n2 := N_of_ascii c2 in
               if ((n1 =? 194) && (n2 =? 160))%N then Some r2
               else match r2 with
                    | String c3 r3 =>
                        let n3 := N_of_ascii c3 in
                        if ((n1 =? 225) && (n2 =? 154) && (n3 =? 128)
                            || (n1 =? 226) && (n2 =? 128)
                               && ((128 <=? n3) && (n3 <=? 138) || (n3 =? 168)
                                   || (n3 =? 169) || (n3 =? 175))
                            || (n1 =? 226) && (n2 =? 129) && (n3 =? 159)
                            || (n1 =? 227) && (n2 =? 128) && (n3 =? 128)
                            || (n1 =? 239) && (n2 =? 187) && (n3 =? 191))%N
                        then Some r3 else None
                    | EmptyString => None
                    end
           | EmptyString => None
           end
  | EmptyString => None
  end.

Fixpoint trim_start (fuel : nat) (s : string) : string :=
  match fuel with
  | O => s
  | S fuel =>
      match after_space s with
      | Some r => trim_start fuel r
      | None => s
      end
  end.

Definition blank (s : string) : bool :=
  String.eqb (trim_start (String.length s) s) "".

Fixpoint trim_end (s : string) : string :=
  match s with
  | String c r => if blank s then EmptyString else String c (trim_end r)
  | EmptyString => EmptyString
  end.

(** String.prototype.trim *)
Definition trim (s : string) : string := trim_end (trim_start (String.length s) s).

(** The digits of a literal in base 2, 8 or 16. *)
Definition digit_in (base : N) (c : ascii) : option N :=
  match JSON.hex_value c with
  | Some d => if (d <? base)%N then Some d else None
  | None => None
  end.

Fixpoint digits_in (base : N) (acc : N) (s : string) : option N :=
  match s with
  | EmptyString => Some acc
  | String c r =>
      match digit_in base c with
      | Some d => digits_in base (acc * base + d) r
      | None => None
      end
  end.

Definition non_decimal_base (c : ascii) : option N :=
  match N_of_ascii c with
  | 120%N | 88%N => Some 16%N
  | 111%N | 79%N => Some 8%N
  | 98%N | 66%N => Some 2%N
  | _ => None
  end.

(** StrUnsignedDecimalLiteral: digits with an optional fraction and
    exponent, at least one digit before the exponent. *)
Definition unsigned_decimal (neg : bool) (s : string) : number :=
  if String.eqb s "Infinity" then S754_infinity neg
  else
    let (ip, s2) := JSON.scan_digits s in
    let (fp, s3) := match s2 with
                    | String c r => if Ascii.eqb c "." then JSON.scan_digits r
                                    else (Decimal.Nil, s2)
                    | EmptyString => (Decimal.Nil, s2)
                    end in
    match Decimal.app ip fp, JSON.parse_exponent s3 with
    | Decimal.Nil, _ => S754_nan
    | ds, Some (ex, EmptyString) =>
        decimal_to_number neg (N.of_uint ds) (ex - Z.of_nat (Decimal.nb_digits fp))
    | _, _ => S754_nan
    end.

(** StringToNumber *)
Definition StringToNumber (s : string) : number :=
  match trim s with
  | EmptyString => S754_zero false
  | String c r =>
      match (if Ascii.eqb c "0" then
               match r with
               | String b (String d r') =>
                   match non_decimal_base b with
                   | Some base => Some (digits_in base 0 (String d r'))
                   | None => None
                   end
               | String b EmptyString =>
                   match non_decimal_base b with
                   | Some _ => Some None
                   | None => None
                   end
               | EmptyString => None
               end
             else None) with
      | Some (Some n) => number_of_Z (Z.of_N n)
      | Some None => S754_nan
      | None =>
          if Ascii.eqb c "-" then unsigned_decimal true r
          else if Ascii.eqb c "+" then unsigned_decimal false r
          else unsigned_decimal false (String c r)
      end
  end.

(** ToNumber, on the values an options record holds here. *)
Definition ToNumber (v : js_value) : number :=
  match v with
  | JUndefined => S754_nan
  | JNull => S754_zero false
  | JBool true => 1
  | JBool false => S754_zero false
  | JNum x => x
  | JStr s => StringToNumber s
  | JArr _ => StringToNumber (ToString v)
  | JObj _ => S754_nan
  end.

(** How [util.inspect] prints a number. *)
Definition inspect_number (x : number) : string :=
  match x with
  | S754_zero true => "-0"
  | _ => NumberToString x
  end.

(** How an error message describes the value received.  A string is
    printed between single quotes and cut after 25 characters when that is
    longer than 28; this is what [util.inspect] prints for a string of
    printable ASCII characters without a single quote or a backslash. *)
Definition determineSpecificType (v : js_value) : string :=
  match v with
  | JUndefined => "undefined"
  | JNull => "null"
  | JBool true => "type boolean (true)"
  | JBool false => "type boolean (false)"
  | JNum x => "type number (" +:+ inspect_number x +:+ ")"
  | JStr s =>
      let inspected := "'" +:+ s +:+ "'" in
      "type string ("
      +:+ (if (28 <? String.length inspected)%nat
           then substring 0 25 inspected +:+ "..." else inspected)
      +:+ ")"
  | JArr _ => "an instance of Array"
  | JObj _ => "an instance of Object"
  end.

(** A number that is an integer beyond 2^32 in absolute value is printed
    with separators in the message of ERR_OUT_OF_RANGE. *)
Fixpoint groups_of_three (n : nat) (s : string) : string :=
  match s with
  | String c r =>
      (if (0 <? n)%nat && (String.length s mod 3 =? 0)%nat then "_" else "")
      +:+ String c (groups_of_three (S n) r)
  | EmptyString => EmptyString
  end.

Definition addNumericalSeparator (val : string) : string :=
  match val with
  | String c r => if Ascii.eqb c "-" then String c (groups_of_three 0 r)
                  else groups_of_three 0 val
  | EmptyString => EmptyString
  end.

Definition ERR_OUT_OF_RANGE (name : string) (range : string) (received : Z) : thrown :=
  Error ("The value of " +:+ JSON.quote_s +:+ name +:+ JSON.quote_s
         +:+ " is out of range. It must be " +:+ range +:+ ". Received "
         +:+ (if 2 ^ 32 <? Z.abs received
              then addNumericalSeparator (NumberToString (number_of_Z received))
              else NumberToString (number_of_Z received))).

Definition ERR_INVALID_ARG_TYPE (name expected : string) (received : js_value) : thrown :=
  Error ("The " +:+ JSON.quote_s +:+ name +:+ JSON.quote_s +:+ " property must be "
         +:+ expected +:+ ". Received " +:+ determineSpecificType received).

Definition ERR_INVALID_CHAR (name field : string) : thrown :=
  Error ("Invalid character in " +:+ name +:+ " [" +:+ JSON.quote_s +:+ field
         +:+ JSON.quote_s +:+ "]").

Definition ERR_SOCKET_BAD_PORT (name : string) (received : js_value) : thrown :=
  Error (name +:+ " should be >= 0 and < 65536. Received "
         +:+ determineSpecificType received +:+ ".").

(** [validatePort]: a number or a string whose number is an integer from 0
    to 65535; a string of white space is none. *)
Definition validatePort (name : string) (p : js_value) : outcome Z :=
  let bad := Throws (ERR_SOCKET_BAD_PORT name p) in
  match p with
  | JNum _ | JStr _ =>
      if match p with JStr s => String.eqb (trim s) "" | _ => false end then bad
      else match number_to_Z (ToNumber p) with
           | Some z => if (0 <=? z) && (z <=? 65535) then Returns z else bad
           | None => bad
           end
  | _ => bad
  end.

(** ** The transport service (external collaborator) *)

(** What the adapter finds under an action name and calls: [Handler n] is a
    function registered with the transport service, [Inherited k] the value
    of the property [k] of [Object.prototype].  How a call ends is the
    environment's to say (the events [HandlerRejects] and [HandlerFulfils]
    below); calling a value that is no function, as the one under
    [__proto__], ends with a TypeError. *)
Inductive handler : Type :=
| Handler (name : nat)
| Inherited (name : string).

(** A record of handlers is an ordinary object: its own properties, which
    [Object.keys] counts, and the properties it inherits.  A property may be
    present with no function bound to it ([None]). *)
Record handlers : Type := {
  own_properties : gmap string (option handler);
  inherited_properties : gmap string (option handler)
}.

(** [k in record] and [record[k]]: an own property, or else an inherited
    one. *)
#[global] Instance handlers_lookup : Lookup string (option handler) handlers :=
  fun k record =>
    match own_properties record !! k with
    | Some v => Some v
    | None => inherited_properties record !! k
    end.

(** The properties of [Object.prototype], which every object literal
    inherits. *)
Definition Object_prototype : gmap string (option handler) :=
  list_to_map
    (List.map (fun k => (k, Some (Inherited k)))
       ["constructor"; "__defineGetter__"; "__defineSetter__"; "hasOwnProperty";
        "__lookupGetter__"; "__lookupSetter__"; "isPrototypeOf";
        "propertyIsEnumerable"; "toString"; "valueOf"; "__proto__";
        "toLocaleString"]).

Record TransportService : Type := {
  getReceivableActions : handlers;
  getSendableActions : list string
}.

(** ** Adapter state *)

Definition HTTP_TRANSPORT_ENDPOINT : string := "/http-transport".

Inductive timer : Type :=
| Armed (deadline : Z)
| Cleared
| Fired.

Inductive settlement : Type :=
| Resolved (msg : CorrelatedResponseDTO)
| Rejected (err : thrown).

Inductive wire_body : Type :=
| ErrorBody (err : string)
| EnvelopeBody (response : CorrelatedResponseDTO).

(** What [res.writeHead] and [res.end] put on a connection. *)
Record wire_reply : Type := {
  wire_status : Z;
  content_type : string;
  body : wire_body
}.

Definition body_props (b : wire_body) : list (string * js_value) :=
  match b with
  | ErrorBody e => [("error", JStr e)]
  | EnvelopeBody r => response_props r
  end.

Definition body_text (b : wire_body) : string :=
  JSON.SerializeJSONObject (body_props b).

(** One call of [executeActionHandler]: the request, its timer, the promise
    awaited by the call, whether the handler is still running, and what has
    been written on the call's [res]. *)
Record exchange : Type := {
  ex_handler : handler;
  ex_data : CorrelatedRequestDTO;
  ex_timer : timer;
  ex_promise : option settlement;
  ex_running : bool;
  ex_res : list wire_reply
}.

(** A stored resolver acts on the calls in flight. *)
Abbreviation resolver := (CorrelatedResponseDTO -> list exchange -> list exchange).

(** [this.server]: a server that [createServer] has made, and the port it
    listens on once [listen] has succeeded. *)
Inductive server_state : Type :=
| Created
| Listening (p : Z).

Record adapter : Type := {
  server : option server_state;
  pendingResponses : gmap string resolver;
  port : number;
  exchanges : list exchange;
  clock : Z
}.

(** [new HTTPTransportAdapter(port)] *)
Definition new_adapter (p : number) : adapter :=
  {| server := None; pendingResponses := ∅; port := p; exchanges := []; clock := 0 |}.

Definition set_server (s : option server_state) (a : adapter) : adapter :=
  {| server := s; pendingResponses := pendingResponses a; port := port a;
     exchanges := exchanges a; clock := clock a |}.

Definition set_pendingResponses (m : gmap string resolver) (a : adapter) : adapter :=
  {| server := server a; pendingResponses := m; port := port a;
     exchanges := exchanges a; clock := clock a |}.

Definition set_exchanges (l : list exchange) (a : adapter) : adapter :=
  {| server := server a; pendingResponses := pendingResponses a; port := port a;
     exchanges := l; clock := clock a |}.

Definition set_clock (t : Z) (a : adapter) : adapter :=
  {| server := server a; pendingResponses := pendingResponses a; port := port a;
     exchanges := exchanges a; clock := t |}.

(** ** init *)

(** [init] up to the end of the awaited [listen].  [listen] throws for a
    port that is no integer from 0 to 65535.  [listen_error] is what the
    system answers to a request to bind such a port: nothing, when the
    server comes to listen, or the error of the server's [error] event (the
    port in use, no permission).  Either failure leaves the server made by
    [createServer] in [this.server].  The second component is what [init]
    throws. *)
Definition init (ts : TransportService) (listen_error : option thrown) (a : adapter)
  : adapter * option thrown :=
  let actionsToConsume := getReceivableActions ts in
  if bool_decide (size (own_properties actionsToConsume) = 0%nat) then (a, None)
  else if negb (truthy (JNum (port a))) then
    (a, Some (InternalServerError
                "HTTP transport needs a port in order to consume (receive) actions"))
  else match validatePort "options.port" (JNum (port a)) with
       | Throws err => (set_server (Some Created) a, Some err)
       | Returns p =>
           match listen_error with
           | Some err => (set_server (Some Created) a, Some err)
           | None => (set_server (Some (Listening p)) a, None)
           end
       end.

(** The body read by the listener: [body ? JSON.parse(body) : null];
    [None] is the SyntaxError of [JSON.parse]. *)
Definition parse_body (text : string) : option js_value :=
  if String.eqb text "" then Some JNull else JSON.parse text.

(** ** send *)

Record http_request : Type := {
  hostname : js_value;
  req_port : js_value;
  path : string;
  method : string;
  req_content_type : string;
  content_length : nat;
  req_body : string;
  req_timeout : option Z
}.

(** [options[k]] on a [Record<string, unknown>] *)
Definition option_value (options : gmap string js_value) (k : string) : js_value :=
  default JUndefined (options !! k).

(** [if (timeout)], for a timeout that is a whole number of milliseconds. *)
Definition truthy_timeout (timeout : option Z) : option Z :=
  match timeout with
  | Some t => if t =? 0 then None else Some t
  | None => None
  end.

(** [Buffer.byteLength]: a string is its bytes. *)
Definition byteLength (s : string) : nat := String.length s.

(** What the executor of [sendHTTPRequest] prepares: the options of the
    request, its body and the timeout to set. *)
Definition sendHTTPRequest (d : CorrelatedRequestDTO)
    (options : gmap string js_value) (timeout : option Z) : http_request :=
  let jsonData := JSON.SerializeJSONObject (request_props d) in
  {| hostname := option_value options "host";
     req_port := option_value options "port";
     path := HTTP_TRANSPORT_ENDPOINT;
     method := "POST";
     req_content_type := "application/json";
     content_length := byteLength jsonData;
     req_body := jsonData;
     req_timeout := truthy_timeout timeout |}.

(** The header [Host] that [http.request] sets: the host, between brackets
    when it has two colons and no bracket, and the port unless it is 80. *)
Definition count_colons (s : string) : nat :=
  List.length (List.filter (fun c => Ascii.eqb c ":") (list_ascii_of_string s)).

Definition host_header (host : string) (p : js_value) : string :=
  (if (2 <=? count_colons host)%nat
      && negb (match host with String c _ => Ascii.eqb c "[" | EmptyString => false end)
   then "[" +:+ host +:+ "]" else host)
  +:+ (if truthy p && negb (number_strict_eqb (ToNumber p) 80)
       then ":" +:+ ToString p else "").

(** [checkInvalidHeaderChar]: a control character other than the tab, the
    delete, or a character above U+00FF, which starts with a byte from 196
    on. *)
Definition checkInvalidHeaderChar (s : string) : bool :=
  existsb (fun c => let n := N_of_ascii c in
                    ((n <? 32) && negb (n =? 9) || (n =? 127) || (196 <=? n))%N)
          (list_ascii_of_string s).

(** The executor itself, up to [req.end()].  [http.request] throws for a
    host name that is no string, for a character the header [Host] cannot
    hold, and for a port that is no number or string or no integer from 0
    to 65535; [req.setTimeout] throws for a negative timeout.  Then nothing
    is written and the promise is rejected with what was thrown.  Otherwise
    the request goes out. *)
Definition executor (rq : http_request) : outcome http_request :=
  match (match hostname rq with
         | JStr host => Returns (if String.eqb host "" then "localhost" else host)
         | JUndefined | JNull => Returns "localhost"
         | _ => Throws (ERR_INVALID_ARG_TYPE "options.hostname"
                          "of type string or one of undefined or null" (hostname rq))
         end) with
  | Throws err => Throws err
  | Returns host =>
      let p := if truthy (req_port rq) then req_port rq else JNum 80 in
      if checkInvalidHeaderChar (host_header host p)
      then Throws (ERR_INVALID_CHAR "header content" "Host")
      else
        match (match p with
               | JNum _ | JStr _ => validatePort "Port" p
               | _ => Throws (ERR_INVALID_ARG_TYPE "options.port"
                                "one of type number or string" p)
               end) with
        | Throws err => Throws err
        | Returns _ =>
            match req_timeout rq with
            | Some t =>
                if t <? 0
                then Throws (ERR_OUT_OF_RANGE "msecs" "a non-negative finite number" t)
                else Returns rq
            | None => Returns rq
            end
        end
  end.

(** What the sender does with the reply body once it has ended. *)
Definition receive_reply (responseData : string) : option js_value :=
  JSON.parse responseData.

(** [data.request_id = id]: the property is created after the others when
    the envelope has none. *)
Definition set_request_id (id : option string) (d : CorrelatedRequestDTO)
  : CorrelatedRequestDTO :=
  {| action := action d; correlation_id := correlation_id d; request_id := id;
     transport := transport d; data := data d;
     request_id_last := match request_id d with
                        | Some _ => request_id_last d
                        | None => true
                        end |}.

Definition set_data (v : js_value) (d : CorrelatedRequestDTO) : CorrelatedRequestDTO :=
  {| action := action d; correlation_id := correlation_id d;
     request_id := request_id d; transport := transport d; data := v;
     request_id_last := request_id_last d |}.

(** [send] works on the caller's envelope: the first component of the result
    is that envelope after the call; [uuidv4] is the identifier the generator
    yields.  The second component is what [send] throws, or the request that
    has gone out. *)
Definition send (uuidv4 : string) (ts : TransportService) (d : CorrelatedRequestDTO)
    (options : gmap string js_value) (timeout : option Z)
  : CorrelatedRequestDTO * outcome http_request :=
  let d := match truthy_id (request_id d) with
           | Some _ => d
           | None => set_request_id (Some uuidv4) d
           end in
  let actionsToProduce := getSendableActions ts in
  if negb (bool_decide (action d ∈ actionsToProduce)) then
    (d, Throws (BadRequestError ("Invalid action provided: " +:+ action d)))
  else if negb (truthy (option_value options "host"))
          || negb (truthy (option_value options "port")) then
    (d, Throws (BadRequestError "Host and/or port missing in transport options"))
  else (d, executor (sendHTTPRequest d options timeout)).

(** ** sendResponse *)

Definition sendResponse (msg : CorrelatedResponseDTO) (a : adapter) : adapter :=
  match truthy_id (res_request_id msg) with
  | Some id =>
      match pendingResponses a !! id with
      | Some resolve =>
          set_pendingResponses (delete id (pendingResponses a))
            (set_exchanges (resolve msg (exchanges a)) a)
      | None => a
      end
  | None => a
  end.

(** ** executeActionHandler *)

Definition clearTimeout (t : timer) : timer :=
  match t with
  | Armed _ => Cleared
  | _ => t
  end.

Definition set_timer (t : timer) (x : exchange) : exchange :=
  {| ex_handler := ex_handler x; ex_data := ex_data x; ex_timer := t;
     ex_promise := ex_promise x; ex_running := ex_running x; ex_res := ex_res x |}.

Definition set_running (b : bool) (x : exchange) : exchange :=
  {| ex_handler := ex_handler x; ex_data := ex_data x; ex_timer := ex_timer x;
     ex_promise := ex_promise x; ex_running := b; ex_res := ex_res x |}.

(** The [catch] block: status and message computed from the error. *)
Definition classify (err : thrown) : Z * string :=
  if instanceof_ZodError err then (400, String.concat ", " (errors err))
  else if instanceof_BaseError err then (code err, message err)
  else if instanceof_Error err then (200, message err)
  else (500, "Internal Server Error").

(** The [finally] block. *)
Definition respond (d : CorrelatedRequestDTO) (s : settlement) : wire_reply :=
  let response :=
    match s with
    | Resolved msg => msg
    | Rejected err =>
        let (st, errorMessage) := classify err in
        {| res_action := action d; res_correlation_id := correlation_id d;
           res_request_id := None; res_data := JObj [];
           error := errorMessage; status := st |}
    end in
  {| wire_status := 200; content_type := "application/json";
     body := EnvelopeBody response |}.

(** [resolve]/[reject] of the awaited promise: the first call settles it and
    lets the call run on to its [finally]; later calls change nothing. *)
Definition settle (s : settlement) (x : exchange) : exchange :=
  match ex_promise x with
  | Some _ => x
  | None =>
      {| ex_handler := ex_handler x; ex_data := ex_data x; ex_timer := ex_timer x;
         ex_promise := Some s; ex_running := ex_running x;
         ex_res := ex_res x ++ [respond (ex_data x) s] |}
  end.

(** The closure stored in [pendingResponses] by call number [e]. *)
Definition resolver_of (e : nat) : resolver :=
  fun msg exs =>
    alter (fun x => settle (Resolved msg) (set_timer (clearTimeout (ex_timer x)) x)) e exs.

(** The call up to the point where it awaits the handler. *)
Definition executeActionHandler (h : handler) (d : CorrelatedRequestDTO)
    (a : adapter) : adapter :=
  let e := length (exchanges a) in
  let x := {| ex_handler := h; ex_data := d; ex_timer := Armed (clock a + 30000);
              ex_promise := None; ex_running := true; ex_res := [] |} in
  let a := set_exchanges (exchanges a ++ [x]) a in
  match truthy_id (request_id d) with
  | Some id => set_pendingResponses (<[id := resolver_of e]> (pendingResponses a)) a
  | None => a
  end.

(** The inner [catch], run when the handler of call [e] throws or rejects. *)
Definition handler_catch (e : nat) (err : thrown) (a : adapter) : adapter :=
  match exchanges a !! e with
  | Some x =>
      let a := set_exchanges
                 (alter (fun x => set_timer (clearTimeout (ex_timer x)) x) e (exchanges a)) a in
      let a := match truthy_id (request_id (ex_data x)) with
               | Some id => set_pendingResponses (delete id (pendingResponses a)) a
               | None => a
               end in
      set_exchanges (alter (settle (Rejected err)) e (exchanges a)) a
  | None => a
  end.

(** The timer callback of call [e]. *)
Definition timer_callback (e : nat) (a : adapter) : adapter :=
  set_exchanges
    (alter (fun x =>
              settle (Rejected (InternalServerError
                                  ("Timeout waiting for HTTP response on "
                                   +:+ action (ex_data x))))
                     (set_timer Fired x)) e (exchanges a)) a.


(** ** handleHTTPRequest *)

Definition find_handler (ts : TransportService) (d : option CorrelatedRequestDTO)
  : outcome (handler * CorrelatedRequestDTO) :=
  let actionsToConsume := getReceivableActions ts in
  match d with
  | None => Throws (BadRequestError ("Invalid action provided: " +:+ "undefined"))
  | Some d =>
      match actionsToConsume !! action d with
      | None => Throws (BadRequestError ("Invalid action provided: " +:+ action d))
      | Some None =>
          Throws (InternalServerError ("Handler not defined for action: " +:+ action d))
      | Some (Some h) => Returns (h, d)
      end
  end.

(** The second component is what the outer [catch] writes on [res]; it is
    [None] when the request went to [executeActionHandler], which catches
    whatever the handler throws and writes the reply itself. *)
Definition handleHTTPRequest (ts : TransportService) (d : option CorrelatedRequestDTO)
    (a : adapter) : adapter * option wire_reply :=
  match find_handler ts d with
  | Returns (h, d) => (executeActionHandler h d a, None)
  | Throws err =>
      let st := if instanceof_BaseError err then code err else 500 in
      let errorMessage :=
        if instanceof_BaseError err then message err else "Internal Server Error" in
      (a, Some {| wire_status := st; content_type := "application/json";
                  body := ErrorBody errorMessage |})
  end.


(** ** The listener *)

(** What the listener installed by [init] does with one request: nothing
    when it is not a POST to the endpoint; otherwise it joins the chunks of
    the body, each as the string it decodes to, parses the result and hands
    it to [handleHTTPRequest].  [ParseFails] is the SyntaxError of
    [JSON.parse], thrown where nothing catches it: no reply is written.
    [Untyped] is a body that starts a call although it is not at the type
    of the envelope (its action is no string, or its [request_id] is truthy
    and no string), which the model follows no further. *)
Inductive listened : Type :=
| Ignored
| ParseFails
| Untyped (v : js_value)
| Handled (a : adapter) (w : option wire_reply).

(** An envelope of which only the action is read. *)
Definition envelope_of_action (key : string) : CorrelatedRequestDTO :=
  {| action := key; correlation_id := JUndefined; request_id := None;
     transport := JUndefined; data := JUndefined; request_id_last := false |}.

Definition listener (ts : TransportService) (req_method url : string)
    (chunks : list string) (a : adapter) : listened :=
  if negb (String.eqb req_method "POST") || negb (String.eqb url HTTP_TRANSPORT_ENDPOINT)
  then Ignored
  else match parse_body (String.concat "" chunks) with
       | None => ParseFails
       | Some v =>
           if negb (truthy v)
           then Handled (fst (handleHTTPRequest ts None a))
                        (snd (handleHTTPRequest ts None a))
           else match request_of_js v with
                | Some d => Handled (fst (handleHTTPRequest ts (Some d) a))
                                    (snd (handleHTTPRequest ts (Some d) a))
                | None =>
                    let d := envelope_of_action (ToString (property v "action")) in
                    match find_handler ts (Some d) with
                    | Returns _ => Untyped v
                    | Throws _ => Handled (fst (handleHTTPRequest ts (Some d) a))
                                          (snd (handleHTTPRequest ts (Some d) a))
                    end
                end
       end.

(** ** The adapter under its environment

    The events are the calls the environment makes on a running adapter and
    the completions the event loop delivers to it. *)

Inductive event : Type :=
| Request (d : option CorrelatedRequestDTO)
| SendResponse (msg : CorrelatedResponseDTO)
| HandlerRejects (e : nat) (err : thrown)
| HandlerFulfils (e : nat)
| Elapse (ms : Z)
| TimerFires (e : nat).

Definition step (ts : TransportService) (ev : event) (a : adapter) : option adapter :=
  match ev with
  | Request d => Some (fst (handleHTTPRequest ts d a))
  | SendResponse msg => Some (sendResponse msg a)
  | HandlerRejects e err =>
      match exchanges a !! e with
      | Some x =>
          if ex_running x
          then Some (handler_catch e err
                       (set_exchanges (alter (set_running false) e (exchanges a)) a))
          else None
      | None => None
      end
  | HandlerFulfils e =>
      match exchanges a !! e with
      | Some x =>
          if ex_running x
          then Some (set_exchanges (alter (set_running false) e (exchanges a)) a)
          else None
      | None => None
      end
  | Elapse ms => if 0 <=? ms then Some (set_clock (clock a + ms) a) else None
  | TimerFires e =>
      match exchanges a !! e with
      | Some x =>
          match ex_timer x with
          | Armed deadline =>
              if deadline <=? clock a then Some (timer_callback e a) else None
          | _ => None
          end
      | None => None
      end
  end.

Fixpoint run (ts : TransportService) (evs : list event) (a : adapter) : option adapter :=
  match evs with
  | [] => Some a
  | ev :: evs =>
      match step ts ev a with
      | Some a' => run ts evs a'
      | None => None
      end
  end.

Definition reachable (ts : TransportService) (a : adapter) : Prop :=
  exists p evs, run ts evs (new_adapter p) = Some a.

(** ** A sample deployment

    One receivable action with a handler, one declared without a handler,
    in an object literal, and a request for the first. *)

Definition sample_service : TransportService :=
  {| getReceivableActions :=
       {| own_properties :=
            <["order.create" := Some (Handler 0)]> (<["order.cancel" := None]> ∅);
          inherited_properties := Object_prototype |};
     getSendableActions := ["order.create"] |}.

Definition sample_request : CorrelatedRequestDTO :=
  {| action := "order.create"; correlation_id := JStr "c-1"; request_id := Some "r-1";
     transport := JStr "http"; data := JObj [("sku", JStr "A1"); ("qty", JNum 2)];
     request_id_last := false |}.

Definition sample_response : CorrelatedResponseDTO :=
  {| res_action := "order.create"; res_correlation_id := JStr "c-1";
     res_request_id := Some "r-1"; res_data := JObj [("ok", JBool true)];
     error := ""; status := 200 |}.

(** An order with a price that is no whole number, and the reply to it. *)
Definition sample_price : number := Eval vm_compute in decimal_to_number false 999 (-2).

Definition sample_priced : CorrelatedRequestDTO :=
  {| action := "order.create"; correlation_id := JStr "c-2"; request_id := Some "r-2";
     transport := JStr "http";
     data := JObj [("sku", JStr "A1"); ("price", JNum sample_price)];
     request_id_last := false |}.


(** The adapter after it has dispatched [sample_request]. *)
Definition sample_dispatched : adapter :=
  executeActionHandler (Handler 0) sample_request (new_adapter 8080).

(** The adapter after the handler of that call has failed validation. *)
Definition sample_failed : adapter :=
  handler_catch 0 (ZodError ["sku is required"; "qty must be positive"] "invalid order")
    (set_exchanges (alter (set_running false) 0%nat (exchanges sample_dispatched))
       sample_dispatched).

(** The adapter after the timer of that call has fired, thirty seconds on. *)
Definition sample_timed_out : adapter :=
  timer_callback 0 (set_clock 30000 sample_dispatched).

(** The adapter after [sample_response] has been injected. *)
Definition sample_resolved : adapter := sendResponse sample_response sample_dispatched.

(** A second request with the [request_id] of the first, dispatched while
    the first is in flight. *)
Definition sample_duplicate : adapter :=
  executeActionHandler (Handler 0) (set_data JNull sample_request) sample_dispatched.

(** ** Invariants of the calls in flight *)

(** The three callbacks that settle call [e], as functions on its record. *)
Definition on_resolve (msg : CorrelatedResponseDTO) (x : exchange) : exchange :=
  settle (Resolved msg) (set_timer (clearTimeout (ex_timer x)) x).

Definition on_catch (err : thrown) (x : exchange) : exchange :=
  settle (Rejected err) (set_timer (clearTimeout (ex_timer x)) (set_running false x)).

Definition timeout_error (x : exchange) : thrown :=
  InternalServerError ("Timeout waiting for HTTP response on " +:+ action (ex_data x)).

Definition on_timeout (x : exchange) : exchange :=
  settle (Rejected (timeout_error x)) (set_timer Fired x).

(** A pending call has its timer armed and has written nothing; a settled
    call has no armed timer and has written the one reply of its outcome. *)
Definition ex_ok (x : exchange) : Prop :=
  match ex_promise x with
  | None => (exists d, ex_timer x = Armed d) /\ ex_res x = []
  | Some s => (forall d, ex_timer x <> Armed d) /\ ex_res x = [respond (ex_data x) s]
  end.

(** How the record of one call may change: the request and the handler
    never, the outcome and the reply not once they are there, the timer only
    at settlement. *)
Definition evolves (x x' : exchange) : Prop :=
  ex_data x' = ex_data x /\ ex_handler x' = ex_handler x /\
  (forall s, ex_promise x = Some s ->
     ex_promise x' = Some s /\ ex_res x' = ex_res x /\ ex_timer x' = ex_timer x) /\
  (ex_promise x' = None ->
     ex_promise x = None /\ ex_timer x' = ex_timer x /\ ex_res x' = ex_res x).

Definition exchanges_evolve (l l' : list exchange) : Prop :=
  forall i x, l !! i = Some x -> exists x', l' !! i = Some x' /\ evolves x x'.

(** Every stored resolver is the closure of a call whose request carries the
    key it is stored under. *)
Definition registry_ok (a : adapter) : Prop :=
  forall id R, pendingResponses a !! id = Some R ->
    exists e x, R = resolver_of e /\ exchanges a !! e = Some x /\
                truthy_id (request_id (ex_data x)) = Some id.

Definition adapter_ok (a : adapter) : Prop :=
  registry_ok a /\ forall e x, exchanges a !! e = Some x -> ex_ok x.

(** ** What one event does

    The effect of an enabled event on an adapter whose registry is in
    order: the calls it changes, by which callback, and the keys it adds or
    removes. *)
Inductive step_effect (ts : TransportService) (a a' : adapter) : event -> Prop :=
| effect_rejected d w :
    snd (handleHTTPRequest ts d a) = Some w -> a' = a ->
    step_effect ts a a' (Request d)
| effect_dispatched d h :
    getReceivableActions ts !! action d = Some (Some h) ->
    a' = executeActionHandler h d a ->
    step_effect ts a a' (Request (Some d))
| effect_injected msg id e x :
    truthy_id (res_request_id msg) = Some id ->
    pendingResponses a !! id = Some (resolver_of e) ->
    exchanges a !! e = Some x ->
    truthy_id (request_id (ex_data x)) = Some id ->
    a' = set_pendingResponses (delete id (pendingResponses a))
           (set_exchanges (alter (on_resolve msg) e (exchanges a)) a) ->
    step_effect ts a a' (SendResponse msg)
| effect_dropped msg :
    match truthy_id (res_request_id msg) with
    | Some id => pendingResponses a !! id = None
    | None => True
    end ->
    a' = a ->
    step_effect ts a a' (SendResponse msg)
| effect_failed e err x :
    exchanges a !! e = Some x -> ex_running x = true ->
    a' = set_pendingResponses
           match truthy_id (request_id (ex_data x)) with
           | Some id => delete id (pendingResponses a)
           | None => pendingResponses a
           end
           (set_exchanges (alter (on_catch err) e (exchanges a)) a) ->
    step_effect ts a a' (HandlerRejects e err)
| effect_fulfilled e x :
    exchanges a !! e = Some x -> ex_running x = true ->
    a' = set_exchanges (alter (set_running false) e (exchanges a)) a ->
    step_effect ts a a' (HandlerFulfils e)
| effect_elapsed ms :
    0 <= ms -> a' = set_clock (clock a + ms) a ->
    step_effect ts a a' (Elapse ms)
| effect_timed_out e x d :
    exchanges a !! e = Some x -> ex_timer x = Armed d -> d <= clock a ->
    a' = set_exchanges (alter on_timeout e (exchanges a)) a ->
    step_effect ts a a' (TimerFires e).

(** A request event that reaches a handler. *)
Definition accepted (ts : TransportService) (ev : event) : bool :=
  match ev with
  | Request (Some d) =>
      match getReceivableActions ts !! action d with
      | Some (Some _) => true
      | _ => false
      end
  | _ => false
  end.

(** What the history of a call says about its outcome: a call resolved by
    an envelope has its timer cleared and that envelope carries the request's
    own [request_id]; a call whose timer has fired was rejected with its
    timeout error; the handler of a call is the one bound to its action. *)
Definition ex_sound (ts : TransportService) (x : exchange) : Prop :=
  getReceivableActions ts !! action (ex_data x) = Some (Some (ex_handler x)) /\
  match ex_promise x with
  | Some (Resolved msg) =>
      ex_timer x = Cleared /\
      exists id, truthy_id (request_id (ex_data x)) = Some id /\
                 truthy_id (res_request_id msg) = Some id
  | Some (Rejected err) => ex_timer x = Fired -> err = timeout_error x
  | None => True
  end.

Definition history_ok (ts : TransportService) (a : adapter) : Prop :=
  forall e x, exchanges a !! e = Some x -> ex_sound ts x.

(** ** The outbound call in flight

    [sendHTTPRequest] returns a promise that the events of the request and
    of its response settle.  A chunk is the string that [responseData +=
    chunk] appends. *)
Inductive call_event : Type :=
| Response (statusCode : Z)
| Data (chunk : string)
| End
| RequestError (err : thrown)
| Idle.

(** [cl_response] is the [responseData] of the response callback, once
    there is a response; [cl_uncaught] records that [JSON.parse] has thrown
    in the [end] listener, where nothing catches it. *)
Record call : Type := {
  cl_timeout : option Z;
  cl_response : option string;
  cl_promise : option (outcome js_value);
  cl_uncaught : bool
}.

Definition start_call (rq : http_request) : call :=
  {| cl_timeout := req_timeout rq; cl_response := None; cl_promise := None;
     cl_uncaught := false |}.

Definition settle_call (o : outcome js_value) (c : call) : call :=
  match cl_promise c with
  | Some _ => c
  | None => {| cl_timeout := cl_timeout c; cl_response := cl_response c;
               cl_promise := Some o; cl_uncaught := cl_uncaught c |}
  end.

Definition call_step (ev : call_event) (c : call) : option call :=
  match ev with
  | Response _ =>
      match cl_response c with
      | None => Some {| cl_timeout := cl_timeout c; cl_response := Some "";
                        cl_promise := cl_promise c; cl_uncaught := cl_uncaught c |}
      | Some _ => None
      end
  | Data chunk =>
      match cl_response c with
      | Some responseData =>
          Some {| cl_timeout := cl_timeout c;
                  cl_response := Some (responseData +:+ chunk);
                  cl_promise := cl_promise c; cl_uncaught := cl_uncaught c |}
      | None => None
      end
  | End =>
      match cl_response c with
      | Some responseData =>
          match receive_reply responseData with
          | Some v => Some (settle_call (Returns v) c)
          | None => Some {| cl_timeout := cl_timeout c; cl_response := cl_response c;
                            cl_promise := cl_promise c; cl_uncaught := true |}
          end
      | None => None
      end
  | RequestError err => Some (settle_call (Throws err) c)
  | Idle =>
      match cl_timeout c with
      | Some timeout =>
          Some (settle_call
                  (Throws (InternalServerError
                             ("Request timed out after "
                              +:+ NumberToString (number_of_Z timeout) +:+ "ms"))) c)
      | None => None
      end
  end.

Fixpoint call_run (evs : list call_event) (c : call) : option call :=
  match evs with
  | [] => Some c
  | ev :: evs =>
      match call_step ev c with
      | Some c' => call_run evs c'
      | None => None
      end
  end.

(** ** The variant without deferred completion

    The second source file holds the adapter as it was before
    [pendingResponses]: [send] checks the destination only, and the
    dispatcher awaits the handler's own result. *)
Module Legacy.

(** [send]: the envelope, taken at the type of the request envelope, is
    passed on as it is. *)
Definition send (d : CorrelatedRequestDTO) (options : gmap string js_value)
    (timeout : option Z) : outcome http_request :=
  if negb (truthy (option_value options "host"))
     || negb (truthy (option_value options "port"))
  then Throws (BadRequestError "Host and/or port missing in transport options")
  else executor (sendHTTPRequest d options timeout).

(** [!actionHandlers[k]]: true when the record has no such property, own or
    inherited, and when nothing is bound to it. *)
Definition unbound (actionHandlers : handlers) (k : string) : bool :=
  match actionHandlers !! k with
  | Some (Some _) => false
  | _ => true
  end.

(** The [try] block of [handleHTTPRequest] up to the call of
    [executeActionHandler]. *)
Definition find_handler (actionHandlers : handlers)
    (d : option CorrelatedRequestDTO) : outcome (handler * CorrelatedRequestDTO) :=
  match d with
  | None => Throws (BadRequestError ("Invalid action provided: " +:+ "undefined"))
  | Some d =>
      if unbound actionHandlers (action d)
      then Throws (BadRequestError ("Invalid action provided: " +:+ action d))
      else match actionHandlers !! action d with
           | Some (Some handler) => Returns (handler, d)
           | _ => Throws (InternalServerError
                            ("Handler not defined for action: " +:+ action d))
           end
  end.

(** The reply of the outer [catch], or the handler to await. *)
Definition handleHTTPRequest (actionHandlers : handlers)
    (d : option CorrelatedRequestDTO) : wire_reply + handler * CorrelatedRequestDTO :=
  match find_handler actionHandlers d with
  | Returns hd => inr hd
  | Throws err =>
      let st := if instanceof_BaseError err then code err else 500 in
      let errorMessage :=
        if instanceof_BaseError err then message err else "Internal Server Error" in
      inl {| wire_status := st; content_type := "application/json";
             body := ErrorBody errorMessage |}
  end.

End Legacy.

(** * Properties *)

Local Open Scope list_scope.

Section Exchanges.

Implicit Types (x : exchange) (l : list exchange) (a : adapter).

Lemma evolves_refl x : evolves x x.
Proof. unfold evolves; intuition. Qed.

Lemma evolves_trans x y z : evolves x y -> evolves y z -> evolves x z.
Proof.
  intros (Hd & Hh & Hs & Hp) (Hd' & Hh' & Hs' & Hp').
  repeat split; try congruence.
  - destruct (Hs s H) as (? & ? & ?). destruct (Hs' s) as (? & ? & ?); congruence.
  - destruct (Hs s H) as (? & ? & ?). destruct (Hs' s) as (? & ? & ?); congruence.
  - destruct (Hs s H) as (? & ? & ?). destruct (Hs' s) as (? & ? & ?); congruence.
  - destruct (Hp' H) as (? & ? & ?). destruct (Hp H0) as (? & ? & ?). done.
  - destruct (Hp' H) as (? & ? & ?). destruct (Hp H0) as (? & ? & ?). congruence.
  - destruct (Hp' H) as (? & ? & ?). destruct (Hp H0) as (? & ? & ?). congruence.
Qed.

Lemma exchanges_evolve_refl l : exchanges_evolve l l.
Proof. intros i x Hx. exists x. split; [done | apply evolves_refl]. Qed.

Lemma exchanges_evolve_trans l1 l2 l3 :
  exchanges_evolve l1 l2 -> exchanges_evolve l2 l3 -> exchanges_evolve l1 l3.
Proof.
  intros H12 H23 i x Hx.
  destruct (H12 i x Hx) as (y & Hy & Hxy).
  destruct (H23 i y Hy) as (z & Hz & Hyz).
  exists z. split; [done | by eapply evolves_trans].
Qed.


Lemma settle_settled s s' x : ex_promise x = Some s' -> settle s x = x.
Proof. intros H. unfold settle. by rewrite H. Qed.

Lemma set_timer_same x : set_timer (ex_timer x) x = x.
Proof. by destruct x. Qed.

Lemma clearTimeout_unarmed t : (forall d, t <> Armed d) -> clearTimeout t = t.
Proof. destruct t; simpl; [intros H; by destruct (H deadline) | done | done]. Qed.

Lemma on_resolve_ok msg x : ex_ok x -> ex_ok (on_resolve msg x) /\ evolves x (on_resolve msg x).
Proof.
  unfold ex_ok, on_resolve. destruct (ex_promise x) as [s|] eqn:Hp.
  - intros [Ht Hr]. rewrite (clearTimeout_unarmed _ Ht), set_timer_same.
    rewrite (settle_settled _ s) by done. rewrite Hp. split; [done | apply evolves_refl].
  - intros [[d Ht] Hr]. rewrite Ht. simpl.
    unfold settle, set_timer; simpl. rewrite Hp; simpl. rewrite Hr. split.
    + split; [intros ?; discriminate | done].
    + unfold evolves; simpl. rewrite Hp. repeat split; try done.
Qed.

Lemma on_catch_ok err x :
  ex_ok x ->
  ex_ok (on_catch err x) /\
  (forall s, ex_promise x = Some s -> evolves x (on_catch err x)) /\
  (ex_promise x = None ->
     ex_promise (on_catch err x) = Some (Rejected err) /\
     ex_timer (on_catch err x) = Cleared /\
     ex_res (on_catch err x) = [respond (ex_data x) (Rejected err)] /\
     ex_data (on_catch err x) = ex_data x /\ ex_handler (on_catch err x) = ex_handler x).
Proof.
  unfold ex_ok, on_catch. destruct (ex_promise x) as [s|] eqn:Hp.
  - intros [Ht Hr]. simpl. rewrite (clearTimeout_unarmed _ Ht).
    unfold settle, set_timer, set_running; simpl. rewrite !Hp. simpl. rewrite ?Hp.
    split; [done |]. split; [| done].
    intros s' _. unfold evolves; simpl. rewrite Hp. repeat split; congruence.
  - intros [[d Ht] Hr]. simpl. rewrite Ht. simpl.
    unfold settle, set_timer, set_running; simpl. rewrite !Hp; simpl. rewrite Hr.
    split; [split; [intros ?; discriminate | done] |].
    split; [intros ?; discriminate | done].
Qed.

Lemma on_catch_evolves err x : ex_ok x -> evolves x (on_catch err x).
Proof.
  intros Hok. destruct (on_catch_ok err x Hok) as (_ & Hs & Hn).
  destruct (ex_promise x) as [s|] eqn:Hp; [by eapply Hs |].
  destruct (Hn eq_refl) as (H1 & H2 & H3 & H4 & H5).
  unfold evolves. rewrite Hp, H1. repeat split; try done.
Qed.

Lemma on_timeout_ok x d :
  ex_ok x -> ex_timer x = Armed d ->
  ex_promise x = None /\
  ex_ok (on_timeout x) /\ evolves x (on_timeout x) /\
  ex_promise (on_timeout x) = Some (Rejected (timeout_error x)) /\
  ex_timer (on_timeout x) = Fired /\
  ex_res (on_timeout x) = [respond (ex_data x) (Rejected (timeout_error x))].
Proof.
  unfold ex_ok, on_timeout. destruct (ex_promise x) as [s|] eqn:Hp.
  - intros [Ht _] Ha. by destruct (Ht d).
  - intros [_ Hr] Ha. unfold settle, set_timer; simpl. rewrite Hp; simpl.
    rewrite Hr. repeat split; try done; congruence.
Qed.

Lemma set_running_ok b x : ex_ok x -> ex_ok (set_running b x) /\ evolves x (set_running b x).
Proof. intros H. split; [done | unfold evolves; simpl; intuition]. Qed.

(** Changing one record of the list by a function that respects [ex_ok] and
    [evolves] on it. *)
Lemma alter_evolves (f : exchange -> exchange) e l :
  (forall x, l !! e = Some x -> evolves x (f x)) ->
  exchanges_evolve l (alter f e l).
Proof.
  intros Hf i x Hx. rewrite list_lookup_alter. case_decide as Hie.
  - subst i. rewrite Hx. simpl. eexists; split; [done | by apply Hf].
  - exists x. split; [done | apply evolves_refl].
Qed.

Lemma alter_all_ok (f : exchange -> exchange) e l :
  (forall x, l !! e = Some x -> ex_ok x -> ex_ok (f x)) ->
  (forall i x, l !! i = Some x -> ex_ok x) ->
  forall i x, alter f e l !! i = Some x -> ex_ok x.
Proof.
  intros Hf Hl i x. rewrite list_lookup_alter. case_decide as Hie.
  - subst i. destruct (l !! e) as [y|] eqn:Hy; simpl; [| done].
    intros [= <-]. apply Hf; [done | by eapply Hl].
  - apply Hl.
Qed.

Lemma snoc_evolves l x : exchanges_evolve l (l ++ [x]).
Proof.
  intros i y Hy. exists y. split; [by apply lookup_app_l_Some | apply evolves_refl].
Qed.

End Exchanges.

Section Machine.

Variable ts : TransportService.
Implicit Types (x : exchange) (l : list exchange) (a : adapter) (ev : event).

Lemma new_adapter_ok p : adapter_ok (new_adapter p).
Proof.
  split.
  - intros id R H. simpl in H. by rewrite lookup_empty in H.
  - intros e x H. simpl in H. by rewrite lookup_nil in H.
Qed.

(** The registry invariant survives any change of the calls that keeps their
    requests, and the removal of a key. *)
Lemma registry_ok_evolve a l' m' :
  registry_ok a ->
  exchanges_evolve (exchanges a) l' ->
  (forall id R, m' !! id = Some R -> pendingResponses a !! id = Some R) ->
  registry_ok (set_pendingResponses m' (set_exchanges l' a)).
Proof.
  intros Hreg Hev Hsub id R HR. simpl in HR.
  destruct (Hreg id R (Hsub id R HR)) as (e & x & -> & Hx & Hid).
  destruct (Hev e x Hx) as (x' & Hx' & Hd & _).
  exists e, x'. simpl. rewrite Hd. done.
Qed.

Lemma handler_catch_eq e err a x :
  exchanges a !! e = Some x ->
  handler_catch e err (set_exchanges (alter (set_running false) e (exchanges a)) a) =
  set_pendingResponses
    (match truthy_id (request_id (ex_data x)) with
     | Some id => delete id (pendingResponses a)
     | None => pendingResponses a
     end)
    (set_exchanges (alter (on_catch err) e (exchanges a)) a).
Proof.
  intros Hx. unfold handler_catch. simpl.
  rewrite list_lookup_alter_eq, Hx. simpl.
  destruct (truthy_id (request_id (ex_data x))) as [id|]; simpl;
    unfold set_exchanges, set_pendingResponses; simpl;
    rewrite !list_alter_alter_eq; done.
Qed.

Lemma sendResponse_ok msg a :
  adapter_ok a ->
  adapter_ok (sendResponse msg a) /\
  exchanges_evolve (exchanges a) (exchanges (sendResponse msg a)).
Proof.
  intros [Hreg Hex]. unfold sendResponse.
  destruct (truthy_id (res_request_id msg)) as [id|];
    [| split; [done | apply exchanges_evolve_refl]].
  destruct (pendingResponses a !! id) as [R|] eqn:HR;
    [| split; [done | apply exchanges_evolve_refl]].
  destruct (Hreg id R HR) as (e & x & -> & Hx & Hid).
  assert (Hev : exchanges_evolve (exchanges a) (resolver_of e msg (exchanges a))).
  { apply alter_evolves. intros y Hy. apply (on_resolve_ok msg y). by eapply Hex. }
  split; [split |]; simpl; [| | done].
  - apply registry_ok_evolve; [done | done |].
    intros id' R'. rewrite lookup_delete_Some. by intros [_ ?].
  - intros i y. apply alter_all_ok; [| done].
    intros z _ Hz. by apply (on_resolve_ok msg z).
Qed.

Lemma executeActionHandler_ok h d a :
  adapter_ok a ->
  adapter_ok (executeActionHandler h d a) /\
  exchanges_evolve (exchanges a) (exchanges (executeActionHandler h d a)).
Proof.
  intros [Hreg Hex]. unfold executeActionHandler.
  set (x := {| ex_handler := h; ex_data := d; ex_timer := Armed (clock a + 30000);
               ex_promise := None; ex_running := true; ex_res := [] |}).
  assert (Hall : forall i y, (exchanges a ++ [x]) !! i = Some y -> ex_ok y).
  { intros i y. rewrite lookup_snoc_Some. intros [[_ Hy] | [_ <-]]; [by eapply Hex |].
    split; [by eexists | done]. }
  assert (Hold : registry_ok (set_exchanges (exchanges a ++ [x]) a)).
  { intros id R HR. destruct (Hreg id R HR) as (e & y & -> & Hy & Hid).
    exists e, y. split; [done |]. split; [| done]. simpl. by apply lookup_app_l_Some. }
  destruct (truthy_id (request_id d)) as [id|] eqn:Hid; simpl.
  - split; [split |]; simpl; [| done | apply snoc_evolves].
    intros id' R. simpl. rewrite lookup_insert_Some.
    intros [[<- <-] | [Hne HR]]; [| by apply Hold].
    exists (length (exchanges a)), x. split; [done |]. split; [| done].
    apply list_lookup_middle. done.
  - split; [split |]; simpl; [done | done | apply snoc_evolves].
Qed.

Lemma step_ok ev a a' :
  adapter_ok a -> step ts ev a = Some a' ->
  adapter_ok a' /\ exchanges_evolve (exchanges a) (exchanges a').
Proof.
  intros Hok Hstep. pose proof Hok as [Hreg Hex].
  destruct ev as [d | msg | e err | e | ms | e]; simpl in Hstep.
  - injection Hstep as <-. unfold handleHTTPRequest.
    destruct (find_handler ts d) as [[h d'] | err]; simpl;
      [by apply executeActionHandler_ok | split; [done | apply exchanges_evolve_refl]].
  - injection Hstep as <-. by apply sendResponse_ok.
  - destruct (exchanges a !! e) as [x|] eqn:Hx; [| done].
    destruct (ex_running x); [| done]. injection Hstep as <-.
    rewrite (handler_catch_eq e err a x Hx).
    assert (Hev : exchanges_evolve (exchanges a) (alter (on_catch err) e (exchanges a))).
    { apply alter_evolves. intros y Hy. apply on_catch_evolves. by eapply Hex. }
    split; [split |]; simpl; [| | done].
    + apply registry_ok_evolve; [done | done |].
      intros id' R'. destruct (truthy_id (request_id (ex_data x))); [| done].
      rewrite lookup_delete_Some. by intros [_ ?].
    + intros i y. apply alter_all_ok; [| done].
      intros z _ Hz. by apply (on_catch_ok err z).
  - destruct (exchanges a !! e) as [x|] eqn:Hx; [| done].
    destruct (ex_running x); [| done]. injection Hstep as <-.
    assert (Hev : exchanges_evolve (exchanges a) (alter (set_running false) e (exchanges a))).
    { apply alter_evolves. intros y Hy. apply set_running_ok. by eapply Hex. }
    split; [split |]; simpl; [| | done].
    + replace (set_exchanges _ a) with
        (set_pendingResponses (pendingResponses a)
           (set_exchanges (alter (set_running false) e (exchanges a)) a)) by done.
      by apply registry_ok_evolve.
    + intros i y. apply alter_all_ok; [| done]. intros z _ Hz. by apply set_running_ok.
  - destruct (0 <=? ms); [| done]. injection Hstep as <-.
    split; [done | apply exchanges_evolve_refl].
  - destruct (exchanges a !! e) as [x|] eqn:Hx; [| done].
    destruct (ex_timer x) as [deadline| |] eqn:Ht; [| done | done].
    destruct (deadline <=? clock a); [| done]. injection Hstep as <-.
    unfold timer_callback. fold timeout_error. 
    assert (Hev : exchanges_evolve (exchanges a) (alter on_timeout e (exchanges a))).
    { apply alter_evolves. intros y Hy. rewrite Hx in Hy. injection Hy as <-.
      eapply on_timeout_ok; [by eapply Hex | done]. }
    split; [split |]; simpl; [| | done].
    + replace (set_exchanges _ a) with
        (set_pendingResponses (pendingResponses a)
           (set_exchanges (alter on_timeout e (exchanges a)) a)) by done.
      by apply registry_ok_evolve.
    + intros i y. apply alter_all_ok; [| done]. intros z Hz Hzok.
      rewrite Hx in Hz. injection Hz as <-.
      eapply on_timeout_ok; [done | done].
Qed.

Lemma run_ok evs a a' :
  adapter_ok a -> run ts evs a = Some a' ->
  adapter_ok a' /\ exchanges_evolve (exchanges a) (exchanges a').
Proof.
  revert a. induction evs as [| ev evs IH]; intros a Hok Hrun; simpl in Hrun.
  - injection Hrun as <-. split; [done | apply exchanges_evolve_refl].
  - destruct (step ts ev a) as [a1|] eqn:Hstep; [| done].
    destruct (step_ok ev a a1 Hok Hstep) as [Hok1 Hev1].
    destruct (IH a1 Hok1 Hrun) as [Hok' Hev'].
    split; [done | by eapply exchanges_evolve_trans].
Qed.

Lemma reachable_ok a : reachable ts a -> adapter_ok a.
Proof.
  intros (p & evs & Hrun). eapply run_ok; [apply new_adapter_ok | done].
Qed.



End Machine.

Lemma truthy_id_Some o id : truthy_id o = Some id <-> o = Some id /\ id <> "".
Proof.
  unfold truthy_id. destruct o as [s|]; [| split; [done | by intros [? _]]].
  destruct (String.eqb_spec s "") as [-> | Hne].
  - split; [done | intros [[= <-] H]; done].
  - split; [intros [= <-]; done | intros [[= <-] _]; done].
Qed.

Lemma sendResponse_registered msg a id R :
  truthy_id (res_request_id msg) = Some id ->
  pendingResponses a !! id = Some R ->
  sendResponse msg a =
  set_pendingResponses (delete id (pendingResponses a))
    (set_exchanges (R msg (exchanges a)) a).
Proof. intros Hid HR. unfold sendResponse. by rewrite Hid, HR. Qed.

Lemma sendResponse_unregistered msg a :
  match truthy_id (res_request_id msg) with
  | Some id => pendingResponses a !! id = None
  | None => True
  end ->
  sendResponse msg a = a.
Proof.
  unfold sendResponse. destruct (truthy_id (res_request_id msg)) as [id|]; [| done].
  by intros ->.
Qed.

(** C1: storing a resolver under a non-empty key and then injecting an
    envelope with that key applies the resolver once to the calls in flight
    and leaves the key deleted.  In a reachable adapter, injecting an
    envelope whose [request_id] is a registered key runs the stored resolver
    once on that envelope and deletes the key; a second injection for the
    key, and any injection whose [request_id] is absent, empty or not
    registered, changes nothing.  The stored resolver is the closure of a
    dispatched call; if that call's timer is still armed, the injection
    clears it and the injected envelope is the call's outcome and its one
    reply (wire status 200), and no later event (a handler completing, a
    timer, a further injection) changes that; the timer can no longer
    fire. *)
Theorem inject_resolves_once (ts : TransportService) (a : adapter) (id : string)
    (R : resolver) (msg : CorrelatedResponseDTO) :
  reachable ts a ->
  pendingResponses a !! id = Some R ->
  res_request_id msg = Some id ->
  (forall b k (R' : resolver),
     k <> "" -> res_request_id msg = Some k ->
     sendResponse msg (set_pendingResponses (<[k := R']> (pendingResponses b)) b)
     = set_pendingResponses (delete k (pendingResponses b))
         (set_exchanges (R' msg (exchanges b)) b)) /\
  (exchanges (sendResponse msg a) = R msg (exchanges a) /\
   pendingResponses (sendResponse msg a) = delete id (pendingResponses a) /\
   pendingResponses (sendResponse msg a) !! id = None) /\
  (forall msg', res_request_id msg' = Some id ->
     sendResponse msg' (sendResponse msg a) = sendResponse msg a) /\
  (forall msg',
     res_request_id msg' = None \/ res_request_id msg' = Some "" \/
     (exists id', res_request_id msg' = Some id' /\ pendingResponses a !! id' = None) ->
     sendResponse msg' a = a) /\
  exists e x, R = resolver_of e /\ exchanges a !! e = Some x /\
    request_id (ex_data x) = Some id /\
    forall d, ex_timer x = Armed d ->
      forall evs a', run ts evs (sendResponse msg a) = Some a' ->
        exists x', exchanges a' !! e = Some x' /\
          ex_timer x' = Cleared /\
          ex_promise x' = Some (Resolved msg) /\
          ex_res x' = [{| wire_status := 200; content_type := "application/json";
                          body := EnvelopeBody msg |}] /\
          step ts (TimerFires e) a' = None.
Proof.
  intros Hreach HR Hmsg.
  pose proof (reachable_ok ts a Hreach) as Hok. pose proof Hok as [Hreg Hex].
  destruct (Hreg id R HR) as (e & x & -> & Hx & Hid).
  apply truthy_id_Some in Hid as [Hid Hne].
  assert (Htid : truthy_id (res_request_id msg) = Some id)
    by (apply truthy_id_Some; by rewrite Hmsg).
  split.
  { intros b k R' Hk Hmk.
    rewrite (sendResponse_registered msg _ k R'); simpl.
    - by rewrite delete_insert_eq.
    - apply truthy_id_Some. by rewrite Hmk.
    - apply lookup_insert_eq. }
  rewrite (sendResponse_registered msg a id _ Htid HR).
  split; [| split; [| split]].
  - simpl. split; [done |]. split; [done | apply lookup_delete_eq].
  - intros msg' Hmsg'. apply sendResponse_unregistered.
    replace (truthy_id (res_request_id msg')) with (Some id)
      by (symmetry; apply truthy_id_Some; by rewrite Hmsg').
    simpl. apply lookup_delete_eq.
  - intros msg' [H | [H | (id' & H & Hnone)]]; apply sendResponse_unregistered;
      rewrite H; simpl; [done | done |].
    destruct (String.eqb id' ""); done.
  - exists e, x. split; [done |]. split; [done |]. split; [done |].
    intros d Ht evs a' Hrun.
    pose proof (Hex e x Hx) as Hxok.
    assert (Hp : ex_promise x = None).
    { unfold ex_ok in Hxok. destruct (ex_promise x); [| done].
      destruct Hxok as [Hna _]. by destruct (Hna d). }
    rewrite <- (sendResponse_registered msg a id _ Htid HR) in Hrun.
    destruct (sendResponse_ok msg a Hok) as [Hok1 _].
    destruct (run_ok ts evs _ a' Hok1 Hrun) as [_ Hev].
    assert (Hx1 : exchanges (sendResponse msg a) !! e = Some (on_resolve msg x)).
    { rewrite (sendResponse_registered msg a id _ Htid HR). simpl.
      unfold resolver_of. fold (on_resolve msg).
      by rewrite list_lookup_alter_eq, Hx. }
    destruct (Hev e _ Hx1) as (x' & Hx' & _ & _ & Hs & _).
    assert (Hp1 : ex_promise (on_resolve msg x) = Some (Resolved msg)).
    { unfold on_resolve, settle, set_timer. simpl. by rewrite Hp. }
    destruct (Hs _ Hp1) as (Hp' & Hr' & Ht').
    assert (Ht1 : ex_timer x' = Cleared).
    { rewrite Ht'. unfold on_resolve, settle, set_timer. simpl. rewrite Hp. simpl.
      by rewrite Ht. }
    exists x'. split; [done |]. split; [done |]. split; [done |]. split.
    + rewrite Hr'. unfold on_resolve, settle, set_timer. simpl. rewrite Hp. simpl.
      unfold ex_ok in Hxok. rewrite Hp in Hxok. destruct Hxok as [_ ->]. done.
    + simpl. by rewrite Hx', Ht1.
Qed.

Lemma inject_resolves_once_witness :
  reachable sample_service sample_dispatched /\
  pendingResponses sample_dispatched !! "r-1" = Some (resolver_of 0) /\
  res_request_id sample_response = Some "r-1" /\
  pendingResponses (sendResponse sample_response sample_dispatched) !! "r-1" = None.
Proof.
  assert (H0 : reachable sample_service sample_dispatched)
    by (exists 8080, [Request (Some sample_request)]; vm_compute; reflexivity).
  assert (H1 : pendingResponses sample_dispatched !! "r-1" = Some (resolver_of 0))
    by (vm_compute; reflexivity).
  split; [exact H0 |]. split; [exact H1 |]. split; [reflexivity |].
  exact (proj2 (proj2 (proj1 (proj2
    (inject_resolves_once sample_service sample_dispatched "r-1" (resolver_of 0)
       sample_response H0 H1 eq_refl))))).
Defined.

Lemma timer_callback_eq e a :
  timer_callback e a = set_exchanges (alter on_timeout e (exchanges a)) a.
Proof. reflexivity. Qed.

(** A settled call keeps its outcome, its reply and its timer state through
    any run, and its timer never fires again. *)
Lemma settled_forever (ts : TransportService) evs a a' e x s :
  adapter_ok a -> run ts evs a = Some a' ->
  exchanges a !! e = Some x -> ex_promise x = Some s ->
  exists x', exchanges a' !! e = Some x' /\ ex_promise x' = Some s /\
             ex_res x' = ex_res x /\ ex_timer x' = ex_timer x /\
             step ts (TimerFires e) a' = None.
Proof.
  intros Hok Hrun Hx Hs.
  destruct (run_ok ts evs a a' Hok Hrun) as [_ Hev].
  destruct (Hev e x Hx) as (x' & Hx' & _ & _ & Hkeep & _).
  destruct (Hkeep s Hs) as (Hp' & Hr' & Ht').
  exists x'. repeat split; try done.
  simpl. rewrite Hx', Ht'.
  destruct Hok as [_ Hex]. specialize (Hex e x Hx). unfold ex_ok in Hex.
  rewrite Hs in Hex. destruct Hex as [Hna _].
  destruct (ex_timer x); [by destruct (Hna deadline) | done | done].
Qed.

(** Which events can take a key out of the registry. *)
Lemma registry_shrinks_by (ts : TransportService) ev a a' id :
  step ts ev a = Some a' ->
  is_Some (pendingResponses a !! id) -> pendingResponses a' !! id = None ->
  (exists msg, ev = SendResponse msg /\ res_request_id msg = Some id) \/
  (exists e err x, ev = HandlerRejects e err /\ exchanges a !! e = Some x /\
                   request_id (ex_data x) = Some id).
Proof.
  intros Hstep [R HR] Hnone.
  destruct ev as [d | msg | e err | e | ms | e]; simpl in Hstep.
  - injection Hstep as <-. exfalso. unfold handleHTTPRequest in Hnone.
    destruct (find_handler ts d) as [[h d'] | err]; simpl in Hnone; [| congruence].
    unfold executeActionHandler in Hnone.
    destruct (truthy_id (request_id d')) as [id'|]; simpl in Hnone; [| congruence].
    apply lookup_insert_None in Hnone as [? _]. congruence.
  - left. exists msg. split; [done |]. injection Hstep as <-.
    unfold sendResponse in Hnone.
    destruct (truthy_id (res_request_id msg)) as [id'|] eqn:Hid; [| congruence].
    destruct (pendingResponses a !! id') as [R'|] eqn:HR'; [| congruence].
    simpl in Hnone. apply truthy_id_Some in Hid as [-> _].
    destruct (decide (id' = id)) as [-> | Hne]; [done |].
    rewrite lookup_delete_ne in Hnone by done. congruence.
  - right. destruct (exchanges a !! e) as [x|] eqn:Hx; [| done].
    destruct (ex_running x); [| done]. injection Hstep as <-.
    rewrite (handler_catch_eq e err a x Hx) in Hnone. simpl in Hnone.
    destruct (truthy_id (request_id (ex_data x))) as [id'|] eqn:Hid; [| congruence].
    apply truthy_id_Some in Hid as [Hid _].
    destruct (decide (id' = id)) as [-> | Hne]; [by exists e, err, x |].
    rewrite lookup_delete_ne in Hnone by done. congruence.
  - destruct (exchanges a !! e) as [x|]; [| done].
    destruct (ex_running x); [| done]. injection Hstep as <-. simpl in Hnone. congruence.
  - destruct (0 <=? ms); [| done]. injection Hstep as <-. simpl in Hnone. congruence.
  - destruct (exchanges a !! e) as [x|]; [| done].
    destruct (ex_timer x); [| done | done].
    destruct (deadline <=? clock a); [| done].
    injection Hstep as <-. simpl in Hnone. congruence.
Qed.

(** C2 (amended): a request that reached dispatch from a reachable adapter
    at clock [t] is call number [length (exchanges a0)]; after any run, while
    neither an injection nor a handler failure has settled it, its timer is
    armed for [t + 30000]: the timer cannot fire before the clock reaches
    that, and from then on it can; its firing settles the call with the
    timeout error, writes the one reply of that outcome, and leaves the
    registry as it was; whatever happens afterwards, the outcome and the
    reply stay and the timer does not fire again.  A key leaves the registry
    only by an injection for it or by the failure of the handler of a call
    that carries it, never by a timer. *)
Theorem timeout_settles_once (ts : TransportService) (a0 a1 a : adapter)
    (d : CorrelatedRequestDTO) (evs : list event) :
  reachable ts a0 ->
  handleHTTPRequest ts (Some d) a0 = (a1, None) ->
  run ts evs a1 = Some a ->
  (exists x, exchanges a !! length (exchanges a0) = Some x /\ ex_data x = d /\
     (ex_promise x = None ->
        ex_timer x = Armed (clock a0 + 30000) /\
        (clock a < clock a0 + 30000 ->
           step ts (TimerFires (length (exchanges a0))) a = None) /\
        (clock a0 + 30000 <= clock a ->
           exists a', step ts (TimerFires (length (exchanges a0))) a = Some a' /\
             pendingResponses a' = pendingResponses a /\
             forall evs' a'', run ts evs' a' = Some a'' ->
               exists x'', exchanges a'' !! length (exchanges a0) = Some x'' /\
                 ex_promise x'' =
                   Some (Rejected (InternalServerError
                                     ("Timeout waiting for HTTP response on "
                                      +:+ action d))) /\
                 ex_res x'' =
                   [respond d (Rejected (InternalServerError
                                           ("Timeout waiting for HTTP response on "
                                            +:+ action d)))] /\
                 step ts (TimerFires (length (exchanges a0))) a'' = None))) /\
  (forall b ev b' id,
     step ts ev b = Some b' ->
     is_Some (pendingResponses b !! id) -> pendingResponses b' !! id = None ->
     (exists msg, ev = SendResponse msg /\ res_request_id msg = Some id) \/
     (exists e err y, ev = HandlerRejects e err /\ exchanges b !! e = Some y /\
                      request_id (ex_data y) = Some id)).
Proof.
  intros Hreach Hdisp Hrun. split; [| intros b ev b' id; apply registry_shrinks_by].
  pose proof (reachable_ok ts a0 Hreach) as Hok0.
  unfold handleHTTPRequest in Hdisp.
  destruct (find_handler ts (Some d)) as [[h d'] | err] eqn:Hfind; [| done].
  assert (d' = d) as ->.
  { unfold find_handler in Hfind.
    destruct (getReceivableActions ts !! action d) as [[h'|]|]; congruence. }
  injection Hdisp as <-.
  destruct (executeActionHandler_ok h d a0 Hok0) as [Hok1 _].
  destruct (run_ok ts evs _ a Hok1 Hrun) as [Hok Hev].
  set (e := length (exchanges a0)).
  set (x0 := {| ex_handler := h; ex_data := d; ex_timer := Armed (clock a0 + 30000);
                ex_promise := None; ex_running := true; ex_res := [] |}).
  assert (Hx0 : exchanges (executeActionHandler h d a0) !! e = Some x0).
  { unfold executeActionHandler. fold x0.
    destruct (truthy_id (request_id d)); simpl; by apply list_lookup_middle. }
  destruct (Hev e x0 Hx0) as (x & Hx & Hd & _ & _ & Hpend).
  exists x. split; [done |]. split; [done |]. intros Hp.
  destruct (Hpend Hp) as (_ & Ht & Hr). simpl in Ht, Hr.
  split; [done |]. split.
  - intros Hlt. simpl. rewrite Hx, Ht.
    destruct (Z.leb_spec (clock a0 + 30000) (clock a)); [lia | done].
  - intros Hle. exists (timer_callback e a). split.
    + simpl. rewrite Hx, Ht.
      destruct (Z.leb_spec (clock a0 + 30000) (clock a)); [done | lia].
    + split; [done |]. intros evs' a'' Hrun'.
      assert (Hstep : step ts (TimerFires e) a = Some (timer_callback e a)).
      { simpl. rewrite Hx, Ht.
        destruct (Z.leb_spec (clock a0 + 30000) (clock a)); [done | lia]. }
      destruct (step_ok ts _ a _ Hok Hstep) as [Hok' _].
      destruct Hok as [_ Hex].
      destruct (on_timeout_ok x _ (Hex e x Hx) Ht) as (_ & _ & _ & Hp1 & Ht1 & Hr1).
      assert (Hx1 : exchanges (timer_callback e a) !! e = Some (on_timeout x)).
      { rewrite timer_callback_eq. simpl. by rewrite list_lookup_alter_eq, Hx. }
      destruct (settled_forever ts evs' _ a'' e _ _ Hok' Hrun' Hx1 Hp1)
        as (x'' & Hx'' & Hp'' & Hr'' & _ & Hnf).
      unfold timeout_error in Hp'', Hr1. rewrite Hd in Hp'', Hr1.
      exists x''. split; [done |]. split; [done |]. split; [| done].
      by rewrite Hr'', Hr1.
Qed.

Lemma timeout_settles_once_witness :
  reachable sample_service (new_adapter 8080) /\
  handleHTTPRequest sample_service (Some sample_request) (new_adapter 8080)
    = (sample_dispatched, None) /\
  run sample_service [Elapse 30000] sample_dispatched
    = Some (set_clock 30000 sample_dispatched) /\
  exists x, exchanges (set_clock 30000 sample_dispatched) !! 0%nat = Some x /\
            ex_data x = sample_request.
Proof.
  assert (H1 : reachable sample_service (new_adapter 8080))
    by (exists 8080, []; reflexivity).
  assert (H2 : handleHTTPRequest sample_service (Some sample_request) (new_adapter 8080)
               = (sample_dispatched, None)) by (vm_compute; reflexivity).
  assert (H3 : run sample_service [Elapse 30000] sample_dispatched
               = Some (set_clock 30000 sample_dispatched)) by (vm_compute; reflexivity).
  split; [exact H1 |]. split; [exact H2 |]. split; [exact H3 |].
  destruct (proj1 (timeout_settles_once sample_service (new_adapter 8080)
                     sample_dispatched (set_clock 30000 sample_dispatched)
                     sample_request [Elapse 30000] H1 H2 H3)) as (x & Hx & Hd & _).
  exists x. split; [exact Hx | exact Hd].
Defined.

(** C2, as stated, fails: the failure of a handler takes the key of its
    request out of the registry although no resolver has run. *)
Lemma handler_failure_shrinks_registry :
  reachable sample_service sample_dispatched /\
  is_Some (pendingResponses sample_dispatched !! "r-1") /\
  exists a', step sample_service (HandlerRejects 0 (Error "boom")) sample_dispatched = Some a' /\
    pendingResponses a' !! "r-1" = None /\
    (forall msg, HandlerRejects 0 (Error "boom") <> SendResponse msg) /\
    (ex_promise <$> exchanges a' !! 0%nat) = Some (Some (Rejected (Error "boom"))).
Proof.
  split; [exists 8080, [Request (Some sample_request)]; vm_compute; reflexivity |].
  split; [vm_compute; eexists; reflexivity |].
  eexists. split; [vm_compute; reflexivity |].
  split; [vm_compute; reflexivity |]. split; [discriminate | vm_compute; reflexivity].
Qed.

(** C3: when the handler of a still pending call throws or rejects, the
    call's timer is cleared, the key of its request (if it has one) is no
    longer in the registry, the error is the call's outcome and its one
    reply is computed from it; nothing that happens later changes that, and
    the timer does not fire. *)
Theorem handler_failure_settles (ts : TransportService) (a : adapter) (e : nat)
    (x : exchange) (err : thrown) :
  reachable ts a ->
  exchanges a !! e = Some x -> ex_running x = true -> ex_promise x = None ->
  exists a', step ts (HandlerRejects e err) a = Some a' /\
    pendingResponses a' =
      match truthy_id (request_id (ex_data x)) with
      | Some id => delete id (pendingResponses a)
      | None => pendingResponses a
      end /\
    (forall id, request_id (ex_data x) = Some id -> pendingResponses a' !! id = None) /\
    forall evs a'', run ts evs a' = Some a'' ->
      exists x', exchanges a'' !! e = Some x' /\
        ex_timer x' = Cleared /\
        ex_promise x' = Some (Rejected err) /\
        ex_res x' = [respond (ex_data x) (Rejected err)] /\
        step ts (TimerFires e) a'' = None.
Proof.
  intros Hreach Hx Hrun Hp.
  pose proof (reachable_ok ts a Hreach) as Hok. pose proof Hok as [Hreg Hex].
  assert (Hstep : step ts (HandlerRejects e err) a =
                  Some (handler_catch e err
                          (set_exchanges (alter (set_running false) e (exchanges a)) a))).
  { simpl. by rewrite Hx, Hrun. }
  eexists. split; [exact Hstep |].
  destruct (step_ok ts _ a _ Hok Hstep) as [Hok' _].
  rewrite (handler_catch_eq e err a x Hx) in *.
  split; [done |]. split.
  - intros id Hid. simpl.
    destruct (truthy_id (request_id (ex_data x))) as [id'|] eqn:Htid.
    + apply truthy_id_Some in Htid as [Htid _]. rewrite Hid in Htid.
      injection Htid as <-. apply lookup_delete_eq.
    + destruct (pendingResponses a !! id) as [R|] eqn:HR; [| done].
      destruct (Hreg id R HR) as (e' & y & _ & _ & Hy).
      apply truthy_id_Some in Hy as [_ Hne].
      unfold truthy_id in Htid. rewrite Hid in Htid.
      destruct (String.eqb_spec id ""); congruence.
  - intros evs a'' Hrun'.
    destruct (on_catch_ok err x (Hex e x Hx)) as (_ & _ & Hsettle).
    destruct (Hsettle Hp) as (Hp1 & Ht1 & Hr1 & _).
    assert (Hx1 : exchanges
                    (set_pendingResponses
                       match truthy_id (request_id (ex_data x)) with
                       | Some id => delete id (pendingResponses a)
                       | None => pendingResponses a
                       end (set_exchanges (alter (on_catch err) e (exchanges a)) a)) !! e
                  = Some (on_catch err x)).
    { simpl. by rewrite list_lookup_alter_eq, Hx. }
    destruct (settled_forever ts evs _ a'' e _ _ Hok' Hrun' Hx1 Hp1)
      as (x' & Hx' & Hp' & Hr' & Ht' & Hnf).
    exists x'. split; [done |]. split; [congruence |]. split; [done |].
    split; [congruence | done].
Qed.

Lemma handler_failure_settles_witness :
  reachable sample_service sample_dispatched /\
  exchanges sample_dispatched !! 0%nat
    = Some {| ex_handler := Handler 0; ex_data := sample_request;
              ex_timer := Armed 30000; ex_promise := None; ex_running := true;
              ex_res := [] |} /\
  exists a', step sample_service (HandlerRejects 0 (Error "boom")) sample_dispatched = Some a' /\
             pendingResponses a' !! "r-1" = None.
Proof.
  assert (H1 : reachable sample_service sample_dispatched)
    by (exists 8080, [Request (Some sample_request)]; vm_compute; reflexivity).
  assert (H2 : exchanges sample_dispatched !! 0%nat
               = Some {| ex_handler := Handler 0; ex_data := sample_request;
                         ex_timer := Armed 30000; ex_promise := None;
                         ex_running := true; ex_res := [] |}) by reflexivity.
  split; [exact H1 |]. split; [exact H2 |].
  destruct (handler_failure_settles sample_service sample_dispatched 0 _ (Error "boom")
              H1 H2 eq_refl eq_refl) as (a' & Hstep & _ & Hgone & _).
  exists a'. split; [exact Hstep | exact (Hgone "r-1" eq_refl)].
Defined.


Lemma find_handler_cases (ts : TransportService) (d : option CorrelatedRequestDTO) :
  match find_handler ts d with
  | Returns (h, r) => d = Some r /\ getReceivableActions ts !! action r = Some (Some h)
  | Throws err =>
      (err = BadRequestError
               ("Invalid action provided: " +:+
                match d with Some r => action r | None => "undefined" end) /\
       match d with Some r => getReceivableActions ts !! action r = None | None => True end) \/
      (exists r, d = Some r /\ getReceivableActions ts !! action r = Some None /\
                 err = InternalServerError ("Handler not defined for action: " +:+ action r))
  end.
Proof.
  unfold find_handler. destruct d as [r|]; [| by left].
  destruct (getReceivableActions ts !! action r) as [[h|]|] eqn:H.
  - done.
  - right. by exists r.
  - by left.
Qed.

(** C4: a request either goes to [executeActionHandler] or is answered at
    once; it is answered at once exactly when the envelope is null, the
    record has no property of its action's name, or that property has no
    handler, and then the wire status is not 200, the body is the bare
    error body and no call is started.  Every reply written by a dispatched
    call, in any reachable adapter, has wire status 200 and an envelope as
    body, whatever status that envelope carries.  A dispatched request
    starts a call that has written nothing yet; however the call is
    settled, it then writes one reply, with wire status 200; and when its
    handler fails, with whatever error, that reply is there and carries the
    status computed from the error inside the envelope. *)
Theorem wire_status_of_dispatched (ts : TransportService)
    (d : option CorrelatedRequestDTO) (a : adapter) :
  match snd (handleHTTPRequest ts d a) with
  | Some w =>
      wire_status w <> 200 /\ (exists m, body w = ErrorBody m) /\
      fst (handleHTTPRequest ts d a) = a /\
      (d = None \/
       (exists r, d = Some r /\ getReceivableActions ts !! action r = None) \/
       (exists r, d = Some r /\ getReceivableActions ts !! action r = Some None))
  | None =>
      exists r h, d = Some r /\ getReceivableActions ts !! action r = Some (Some h) /\
                  fst (handleHTTPRequest ts d a) = executeActionHandler h r a
  end /\
  (forall b e x w, reachable ts b -> exchanges b !! e = Some x -> w ∈ ex_res x ->
     wire_status w = 200 /\
     exists s, ex_promise x = Some s /\ w = respond (ex_data x) s /\
       body w = EnvelopeBody
                  match s with
                  | Resolved msg => msg
                  | Rejected err =>
                      {| res_action := action (ex_data x);
                         res_correlation_id := correlation_id (ex_data x);
                         res_request_id := None; res_data := JObj [];
                         error := snd (classify err); status := fst (classify err) |}
                  end) /\
  (forall r a1, reachable ts a -> handleHTTPRequest ts (Some r) a = (a1, None) ->
     (exists x, exchanges a1 !! length (exchanges a) = Some x /\ ex_data x = r /\
                ex_promise x = None /\ ex_res x = []) /\
     (forall evs a' x' s,
        run ts evs a1 = Some a' -> exchanges a' !! length (exchanges a) = Some x' ->
        ex_promise x' = Some s ->
        ex_res x' = [respond r s] /\ wire_status (respond r s) = 200) /\
     (forall err, exists a' x',
        run ts [HandlerRejects (length (exchanges a)) err] a1 = Some a' /\
        exchanges a' !! length (exchanges a) = Some x' /\
        ex_res x' =
          [{| wire_status := 200; content_type := "application/json";
              body := EnvelopeBody
                        {| res_action := action r; res_correlation_id := correlation_id r;
                           res_request_id := None; res_data := JObj [];
                           error := snd (classify err);
                           status := fst (classify err) |} |}])).
Proof.
  split; [| split].
  - unfold handleHTTPRequest. pose proof (find_handler_cases ts d) as H.
    destruct (find_handler ts d) as [[h r] | err]; simpl.
    + destruct H as [-> H]. by exists r, h.
    + destruct H as [[-> H] | (r & -> & H & ->)]; simpl.
      * split; [done |]. split; [by eexists |]. split; [done |].
        destruct d as [r|]; [right; left; by exists r | by left].
      * split; [done |]. split; [by eexists |]. split; [done |].
        right; right. by exists r.
  - intros b e x w Hreach Hx Hw.
    destruct (reachable_ok ts b Hreach) as [_ Hex]. specialize (Hex e x Hx).
    unfold ex_ok in Hex. destruct (ex_promise x) as [s|].
    + destruct Hex as [_ Hres]. rewrite Hres in Hw.
      apply list_elem_of_singleton in Hw as ->.
      split; [done |]. exists s. split; [done |]. split; [done |].
      unfold respond. simpl. destruct s as [msg | err]; [done |].
      by destruct (classify err).
    + destruct Hex as [_ Hres]. rewrite Hres in Hw. by apply elem_of_nil in Hw.
  - intros r a1 Hreach Hdisp. pose proof (reachable_ok ts a Hreach) as Hok.
    unfold handleHTTPRequest in Hdisp. pose proof (find_handler_cases ts (Some r)) as Hc.
    destruct (find_handler ts (Some r)) as [[h r'] | err]; [| done].
    destruct Hc as [[= <-] Hb]. injection Hdisp as <-.
    destruct (executeActionHandler_ok h r a Hok) as [Hok1 _].
    set (x0 := {| ex_handler := h; ex_data := r; ex_timer := Armed (clock a + 30000);
                  ex_promise := None; ex_running := true; ex_res := [] |}).
    assert (Hx0 : exchanges (executeActionHandler h r a) !! length (exchanges a) = Some x0).
    { unfold executeActionHandler. destruct (truthy_id (request_id r)); simpl;
        by rewrite lookup_app_r, Nat.sub_diag. }
    split; [by exists x0 |]. split.
    + intros evs a' x' s Hrun Hx' Hs.
      destruct (run_ok ts evs _ a' Hok1 Hrun) as [[_ Hex'] Hev].
      destruct (Hev _ x0 Hx0) as (y & Hy & Hd & _).
      rewrite Hx' in Hy. injection Hy as <-.
      specialize (Hex' _ x' Hx'). unfold ex_ok in Hex'. rewrite Hs in Hex'.
      destruct Hex' as [_ ->]. by rewrite Hd.
    + intros err. cbn [run step]. rewrite Hx0. cbn [ex_running x0].
      rewrite (handler_catch_eq (length (exchanges a)) err _ x0 Hx0).
      eexists _, _. split; [reflexivity |]. split.
      * cbn [exchanges set_pendingResponses set_exchanges].
        rewrite list_lookup_alter, decide_True by done. rewrite Hx0. reflexivity.
      * unfold on_catch, settle, respond. simpl. by destruct (classify err).
Qed.

Lemma wire_status_of_dispatched_witness :
  exists w, w ∈ ex_res (on_catch (BaseError 503 "busy")
                          {| ex_handler := Handler 0; ex_data := sample_request;
                             ex_timer := Armed 30000; ex_promise := None;
                             ex_running := true; ex_res := [] |}) /\
            wire_status w = 200 /\
            exists r, body w = EnvelopeBody r /\ status r = 503.
Proof.
  assert (H0 : reachable sample_service
                 (handler_catch 0 (BaseError 503 "busy")
                    (set_exchanges (alter (set_running false) 0%nat
                                      (exchanges sample_dispatched)) sample_dispatched))).
  { exists 8080, [Request (Some sample_request); HandlerRejects 0 (BaseError 503 "busy")].
    vm_compute. reflexivity. }
  eexists. split; [apply list_elem_of_here |].
  destruct (proj1 (proj2 (wire_status_of_dispatched sample_service None (new_adapter 8080)))
              _ 0%nat _ _ H0 eq_refl (list_elem_of_here _ _)) as [Hw _].
  split; [exact Hw |]. eexists. split; reflexivity.
Defined.

(** C5 (amended): the reply of a call settled by an error carries the
    request's [action] and [correlation_id], the empty object as [data], and
    a status and message chosen by the first test that succeeds: a ZodError
    gives 400 and its issues' messages joined by a comma and a space; else a
    BaseError gives its code and message; else an Error keeps its message
    (and the initial status 200); a thrown value that is none of these gives
    500 and a fixed message. *)
Theorem error_classification (ts : TransportService) (a : adapter) (e : nat)
    (x : exchange) (err : thrown) :
  reachable ts a -> exchanges a !! e = Some x -> ex_promise x = Some (Rejected err) ->
  exists r,
    ex_res x = [{| wire_status := 200; content_type := "application/json";
                   body := EnvelopeBody r |}] /\
    res_action r = action (ex_data x) /\
    res_correlation_id r = correlation_id (ex_data x) /\
    res_data r = JObj [] /\
    (instanceof_ZodError err = true ->
       status r = 400 /\ error r = String.concat ", " (errors err)) /\
    (instanceof_ZodError err = false -> instanceof_BaseError err = true ->
       status r = code err /\ error r = message err) /\
    (instanceof_ZodError err = false -> instanceof_BaseError err = false ->
     instanceof_Error err = true ->
       status r = 200 /\ error r = message err) /\
    (instanceof_ZodError err = false -> instanceof_BaseError err = false ->
     instanceof_Error err = false ->
       status r = 500 /\ error r = "Internal Server Error").
Proof.
  intros Hreach Hx Hp.
  destruct (reachable_ok ts a Hreach) as [_ Hex]. specialize (Hex e x Hx).
  unfold ex_ok in Hex. rewrite Hp in Hex. destruct Hex as [_ ->].
  unfold respond, classify.
  destruct (instanceof_ZodError err), (instanceof_BaseError err), (instanceof_Error err);
    eexists; (split; [reflexivity |]); simpl; repeat split; intros; congruence.
Qed.

Lemma error_classification_witness :
  reachable sample_service sample_failed /\
  exists r,
    status r = 400 /\ error r = "sku is required, qty must be positive" /\
    res_action r = "order.create" /\ res_correlation_id r = JStr "c-1" /\ res_data r = JObj [].
Proof.
  assert (H1 : reachable sample_service sample_failed).
  { exists 8080, [Request (Some sample_request);
                  HandlerRejects 0 (ZodError ["sku is required"; "qty must be positive"] "invalid order")].
    vm_compute. reflexivity. }
  split; [exact H1 |].
  destruct (error_classification sample_service sample_failed 0 _
              (ZodError ["sku is required"; "qty must be positive"] "invalid order") H1 eq_refl eq_refl)
    as (r & _ & Ha & Hc & Hd & Hz & _).
  exists r. destruct (Hz eq_refl) as [Hs He].
  split; [exact Hs |]. split; [exact He |]. split; [exact Ha |]. split; [exact Hc | exact Hd].
Defined.

(** C5, as stated, fails: a handler may reject with a value that is not an
    Error, such as a plain object with a [message]; the reply then carries
    the fixed message, not that one. *)
Lemma thrown_object_message_not_preserved :
  let err := {| instanceof_ZodError := false; instanceof_BaseError := false;
                instanceof_Error := false; errors := []; code := 0;
                message := "boom" |} in
  match run sample_service [HandlerRejects 0 err] sample_dispatched with
  | Some a =>
      exists x r,
        exchanges a !! 0%nat = Some x /\
        ex_promise x = Some (Rejected err) /\
        ex_res x = [{| wire_status := 200; content_type := "application/json";
                       body := EnvelopeBody r |}] /\
        status r = 500 /\ error r = "Internal Server Error" /\
        error r <> message err
  | None => False
  end.
Proof.
  vm_compute. eexists _, _. split; [reflexivity |]. split; [reflexivity |].
  split; [reflexivity |]. split; [reflexivity |]. split; [reflexivity |].
  intros [=].
Qed.

(** C6: the dispatcher tests the action with [in], which finds the
    properties a record inherits as well as its own.  On a record written as
    an object literal, a request for [toString], which is no receivable
    action, is not answered with 400: the dispatcher takes the inherited
    function for its handler, starts a call, registers the request's id and
    arms the timer. *)
Theorem inherited_action_is_dispatched :
  let d := {| action := "toString"; correlation_id := JStr "c-1";
              request_id := Some "r-1"; transport := JStr "http"; data := JObj [];
              request_id_last := false |} in
  own_properties (getReceivableActions sample_service) !! "toString" = None /\
  getReceivableActions sample_service !! "toString" = Some (Some (Inherited "toString")) /\
  handleHTTPRequest sample_service (Some d) (new_adapter 8080)
    = (executeActionHandler (Inherited "toString") d (new_adapter 8080), None) /\
  snd (handleHTTPRequest sample_service (Some d) (new_adapter 8080))
    <> Some {| wire_status := 400; content_type := "application/json";
               body := ErrorBody "Invalid action provided: toString" |} /\
  exchanges (fst (handleHTTPRequest sample_service (Some d) (new_adapter 8080)))
    = [{| ex_handler := Inherited "toString"; ex_data := d; ex_timer := Armed 30000;
          ex_promise := None; ex_running := true; ex_res := [] |}] /\
  pendingResponses (fst (handleHTTPRequest sample_service (Some d) (new_adapter 8080)))
    !! "r-1" = Some (resolver_of 0).
Proof.
  vm_compute. repeat split; try reflexivity. discriminate.
Qed.

(** The dispatcher on every envelope: a null envelope and an envelope whose
    action names no property of the record, own or inherited, are answered
    with 400; a property with nothing bound with 500; any other starts a
    call. *)
Lemma dispatcher_cases (ts : TransportService)
    (d : option CorrelatedRequestDTO) (a : adapter) :
  match d with
  | None =>
      handleHTTPRequest ts d a =
      (a, Some {| wire_status := 400; content_type := "application/json";
                  body := ErrorBody "Invalid action provided: undefined" |})
  | Some r =>
      match getReceivableActions ts !! action r with
      | None =>
          handleHTTPRequest ts d a =
          (a, Some {| wire_status := 400; content_type := "application/json";
                      body := ErrorBody ("Invalid action provided: " +:+ action r) |})
      | Some None =>
          handleHTTPRequest ts d a =
          (a, Some {| wire_status := 500; content_type := "application/json";
                      body := ErrorBody ("Handler not defined for action: "
                                         +:+ action r) |})
      | Some (Some h) =>
          handleHTTPRequest ts d a = (executeActionHandler h r a, None) /\
          length (exchanges (executeActionHandler h r a)) = S (length (exchanges a))
      end
  end.
Proof.
  unfold handleHTTPRequest, find_handler. destruct d as [r|]; [| done].
  destruct (getReceivableActions ts !! action r) as [[h|]|]; simpl; [| done | done].
  split; [done |]. unfold executeActionHandler.
  destruct (truthy_id (request_id r)); simpl; rewrite length_app; simpl; lia.
Qed.

(** What the executor lets out is the request it was given. *)
Lemma executor_Returns (rq0 rq : http_request) :
  executor rq0 = Returns rq -> rq = rq0.
Proof.
  unfold executor. intros H. repeat case_match; congruence.
Qed.

(** C7: [send] leaves every field of the envelope but [request_id] as it
    was, leaves an envelope with a non-empty [request_id] as it is and gives
    one without (or with an empty one) the generated identifier; it throws
    a BadRequestError (code 400), and no request goes out, when the action is
    not sendable or when [host] or [port] is missing or falsy in the options;
    a request goes out only when both checks have passed, and then it is the
    one [sendHTTPRequest] prepares from the completed envelope. *)
Theorem send_validates (uuidv4 : string) (ts : TransportService)
    (d : CorrelatedRequestDTO) (options : gmap string js_value) (timeout : option Z) :
  let d' := fst (send uuidv4 ts d options timeout) in
  let result := snd (send uuidv4 ts d options timeout) in
  (action d' = action d /\ correlation_id d' = correlation_id d /\
   transport d' = transport d /\ data d' = data d) /\
  (request_id d = None -> request_id d' = Some uuidv4) /\
  (request_id d = Some "" -> request_id d' = Some uuidv4) /\
  (forall id, request_id d = Some id -> id <> "" -> d' = d) /\
  (action d ∉ getSendableActions ts ->
     result = Throws (BadRequestError ("Invalid action provided: " +:+ action d))) /\
  (action d ∈ getSendableActions ts ->
   options !! "host" = None \/ options !! "port" = None \/
   truthy (option_value options "host") = false \/
   truthy (option_value options "port") = false ->
     result = Throws (BadRequestError "Host and/or port missing in transport options")) /\
  (forall m, code (BadRequestError m) = 400 /\
             instanceof_BaseError (BadRequestError m) = true) /\
  (action d ∈ getSendableActions ts ->
   truthy (option_value options "host") = true ->
   truthy (option_value options "port") = true ->
     result = executor (sendHTTPRequest d' options timeout)) /\
  (forall rq, result = Returns rq ->
     rq = sendHTTPRequest d' options timeout /\
     action d ∈ getSendableActions ts /\
     truthy (option_value options "host") = true /\
     truthy (option_value options "port") = true).
Proof.
  unfold send.
  set (d1 := match truthy_id (request_id d) with
             | Some _ => d
             | None => set_request_id (Some uuidv4) d
             end).
  assert (Hsame : action d1 = action d /\ correlation_id d1 = correlation_id d /\
                  transport d1 = transport d /\ data d1 = data d).
  { unfold d1. by destruct (truthy_id (request_id d)). }
  destruct Hsame as (Ha & Hc & Ht & Hd). rewrite Ha.
  assert (Hfst : forall (r1 r2 r3 : outcome http_request) (b1 b2 : bool),
            fst (if b1 then (d1, r1) else if b2 then (d1, r2) else (d1, r3)) = d1)
    by (by intros r1 r2 r3 [] []).
  rewrite Hfst. cbv zeta.
  assert (Hex : forall rq rq', executor rq = Returns rq' -> rq' = rq)
    by (intros rq rq'; apply executor_Returns).
  split; [done |]. split; [| split; [| split]].
  - intros H. unfold d1. by rewrite H.
  - intros H. unfold d1. by rewrite H.
  - intros id H Hne. unfold d1.
    replace (truthy_id (request_id d)) with (Some id)
      by (symmetry; by apply truthy_id_Some). done.
  - destruct (bool_decide_reflect (action d ∈ getSendableActions ts)) as [Hin | Hnin]; simpl.
    + assert (Hopt : forall k, options !! k = None -> truthy (option_value options k) = false)
        by (intros k Hk; unfold option_value; by rewrite Hk).
      destruct (truthy (option_value options "host")) eqn:Hh,
               (truthy (option_value options "port")) eqn:Hp; simpl.
      * split; [done |]. split.
        { intros _ [H | [H | [H | H]]]; try congruence.
          - apply Hopt in H. congruence.
          - apply Hopt in H. congruence. }
        split; [done |]. split; [done |]. intros rq Hrq. by rewrite (Hex _ _ Hrq).
      * split; [done |]. split; [done |]. split; [done |]. split; [done | by intros rq [=]].
      * split; [done |]. split; [done |]. split; [done |]. split; [done | by intros rq [=]].
      * split; [done |]. split; [done |]. split; [done |]. split; [done | by intros rq [=]].
    + split; [done |]. split; [done |]. split; [done |]. split; [done | by intros rq [=]].
Qed.

Lemma number_to_Z_truthy (x : number) (p : Z) :
  truthy (JNum x) = true -> number_to_Z x = Some p -> p <> 0.
Proof.
  destruct x as [s | s | | s m e]; try discriminate. intros _. cbn [number_to_Z].
  destruct (0 <=? e) eqn:He.
  - apply Z.leb_le in He. intros [= <-].
    assert (0 < Z.pos m * 2 ^ e) by (apply Z.mul_pos_pos; [lia | by apply Z.pow_pos_nonneg]).
    destruct s; lia.
  - apply Z.leb_gt in He.
    destruct (Z.eqb_spec (Z.pos m mod 2 ^ (- e)) 0) as [Hm |]; [| done]. intros [= <-].
    assert (Hd : 0 < 2 ^ (- e)) by (apply Z.pow_pos_nonneg; lia).
    pose proof (Z.div_mod (Z.pos m) (2 ^ (- e)) ltac:(lia)) as Hdm. rewrite Hm in Hdm.
    assert (Z.pos m / 2 ^ (- e) <> 0) by (intros H0; rewrite H0 in Hdm; lia).
    destruct s; lia.
Qed.

(** C8 (amended): [init] with no receivable action returns without touching
    the adapter, whatever the port; with receivable actions and a port that
    is zero (or NaN) it throws (an InternalServerError) and binds nothing;
    with receivable actions and another port it makes a server and asks it
    to listen on that port; the port is bound when it is an integer from 1
    to 65535 and the system grants it, and otherwise [init] throws the error
    of [listen] and nothing is bound, the server made staying in
    [this.server].  So on an adapter without a server the configured port is
    bound exactly when there is a receivable action, the port is one of
    1..65535 and the bind succeeds. *)
Theorem init_binds_iff_receivable (ts : TransportService) (listen_error : option thrown)
    (a : adapter) :
  (size (own_properties (getReceivableActions ts)) = 0%nat ->
     init ts listen_error a = (a, None)) /\
  (size (own_properties (getReceivableActions ts)) <> 0%nat ->
   truthy (JNum (port a)) = false ->
     init ts listen_error a =
       (a, Some (InternalServerError
                   "HTTP transport needs a port in order to consume (receive) actions")) /\
     instanceof_BaseError (InternalServerError
                           "HTTP transport needs a port in order to consume (receive) actions")
       = true) /\
  (size (own_properties (getReceivableActions ts)) <> 0%nat ->
   truthy (JNum (port a)) = true ->
     (forall p, number_to_Z (port a) = Some p -> 1 <= p <= 65535 ->
        (listen_error = None ->
           init ts listen_error a = (set_server (Some (Listening p)) a, None)) /\
        (forall err, listen_error = Some err ->
           init ts listen_error a = (set_server (Some Created) a, Some err))) /\
     ((forall p, number_to_Z (port a) = Some p -> ~ 1 <= p <= 65535) ->
        init ts listen_error a
        = (set_server (Some Created) a,
           Some (ERR_SOCKET_BAD_PORT "options.port" (JNum (port a)))))) /\
  (server a = None ->
     (forall q, server (fst (init ts listen_error a)) = Some (Listening q) <->
        size (own_properties (getReceivableActions ts)) <> 0%nat /\
        number_to_Z (port a) = Some q /\ 1 <= q <= 65535 /\ listen_error = None) /\
     (init ts listen_error a = (a, None) <->
        size (own_properties (getReceivableActions ts)) = 0%nat)).
Proof.
  assert (Hset : forall s, server a = None -> set_server (Some s) a <> a).
  { intros s Hs Heq. rewrite <- Heq in Hs. discriminate Hs. }
  unfold init.
  destruct (bool_decide_reflect (size (own_properties (getReceivableActions ts)) = 0%nat))
    as [H0 | Hn0].
  - split; [done |]. split; [done |]. split; [done |].
    intros Hs. split; [| done]. intros q. simpl. rewrite Hs. split; [done |].
    by intros (? & _).
  - destruct (truthy (JNum (port a))) eqn:Ht; cbn [negb].
    + unfold validatePort. cbn [ToNumber].
      destruct (number_to_Z (port a)) as [z|] eqn:Hz.
      * pose proof (number_to_Z_truthy (port a) z Ht Hz) as Hnz.
        destruct (Z.leb_spec 0 z) as [Hlo | Hlo];
          destruct (Z.leb_spec z 65535) as [Hhi | Hhi]; cbn [andb].
        -- split; [done |]. split; [done |]. split.
           { intros _ _. split.
             - intros p [= <-] _. split; [by intros -> | by intros err ->].
             - intros Hbad. exfalso. apply (Hbad z eq_refl). lia. }
           intros Hs. split.
           ++ intros q. destruct listen_error as [err|]; simpl; split.
              ** done.
              ** by intros (_ & _ & _ & ?).
              ** intros [= <-]. repeat split; [done | lia | lia].
              ** by intros (_ & [= <-] & _).
           ++ split; [| done]. destruct listen_error as [err|]; [done |].
              intros [= Heq]. by apply Hset in Heq.
        -- split; [done |]. split; [done |]. split.
           { intros _ _. split; [intros p [= <-] ?; lia | done]. }
           intros Hs. split; [| split; [| done]].
           ++ intros q. simpl. split; [done | intros (_ & [= <-] & ? & _); lia].
           ++ done.
        -- split; [done |]. split; [done |]. split.
           { intros _ _. split; [intros p [= <-] ?; lia | done]. }
           intros Hs. split; [| split; [| done]].
           ++ intros q. simpl. split; [done | intros (_ & [= <-] & ? & _); lia].
           ++ done.
        -- lia.
      * split; [done |]. split; [done |]. split.
        { intros _ _. split; [by intros p [=] | done]. }
        intros Hs. split; [| split; [| done]].
        ++ intros q. simpl. split; [done | by intros (_ & [=] & _)].
        ++ done.
    + split; [done |]. split; [done |]. split; [done |].
      intros Hs. split; [| split; [done | done]].
      intros q. simpl. rewrite Hs. split; [done |]. intros (_ & Hq & Hr & _).
      destruct (port a) as [s | s | | s m e]; try discriminate.
      cbn [number_to_Z] in Hq. injection Hq as <-. lia.
Qed.

Lemma init_binds_iff_receivable_witness :
  init sample_service None (new_adapter 8080)
  = (set_server (Some (Listening 8080)) (new_adapter 8080), None).
Proof.
  assert (H1 : size (own_properties (getReceivableActions sample_service)) <> 0%nat)
    by (vm_compute; discriminate).
  assert (H2 : truthy (JNum (port (new_adapter 8080))) = true) by reflexivity.
  assert (H3 : number_to_Z (port (new_adapter 8080)) = Some 8080) by reflexivity.
  assert (H4 : 1 <= 8080 <= 65535) by lia.
  exact (proj1 (proj1 (proj1 (proj2 (proj2 (init_binds_iff_receivable sample_service None
                                       (new_adapter 8080)))) H1 H2) 8080 H3 H4) eq_refl).
Defined.

(** C8, as stated, fails: with a receivable action and the port 65536, which
    is not zero, [init] throws the error of [listen] and no port is bound;
    so it does with the port 8080.5, and with port 8080 when the port is in
    use. *)
Lemma receivable_action_and_port_not_bound :
  size (own_properties (getReceivableActions sample_service)) <> 0%nat /\
  truthy (JNum (port (new_adapter 65536))) = true /\
  init sample_service None (new_adapter 65536)
    = (set_server (Some Created) (new_adapter 65536),
       Some (ERR_SOCKET_BAD_PORT "options.port" (JNum 65536))) /\
  (forall q, server (fst (init sample_service None (new_adapter 65536)))
             <> Some (Listening q)) /\
  init sample_service None (new_adapter (decimal_to_number false 80805 (-1)))
    = (set_server (Some Created) (new_adapter (decimal_to_number false 80805 (-1))),
       Some (ERR_SOCKET_BAD_PORT "options.port"
               (JNum (decimal_to_number false 80805 (-1))))) /\
  init sample_service (Some (Error "listen EADDRINUSE: address already in use :::8080"))
    (new_adapter 8080)
    = (set_server (Some Created) (new_adapter 8080),
       Some (Error "listen EADDRINUSE: address already in use :::8080")).
Proof.
  split; [vm_compute; discriminate |]. split; [reflexivity |].
  split; [vm_compute; reflexivity |].
  split; [intros q; vm_compute; discriminate |].
  split; vm_compute; reflexivity.
Qed.
(** C10: when the envelope has no [request_id] (or an empty one) and [send]
    throws, the envelope the caller holds afterwards carries the generated
    identifier: it is no longer the envelope that was passed in. *)
Theorem send_sets_request_id_before_rejecting (uuidv4 : string) (ts : TransportService)
    (d : CorrelatedRequestDTO) (options : gmap string js_value) (timeout : option Z)
    (e : thrown) :
  truthy_id (request_id d) = None ->
  snd (send uuidv4 ts d options timeout) = Throws e ->
  fst (send uuidv4 ts d options timeout) = set_request_id (Some uuidv4) d /\
  request_id (fst (send uuidv4 ts d options timeout)) = Some uuidv4 /\
  (uuidv4 <> "" -> fst (send uuidv4 ts d options timeout) <> d).
Proof.
  intros Hid _. unfold send. rewrite Hid.
  assert (Hfst : forall (r1 r2 r3 : outcome http_request) (b1 b2 : bool)
                         (d1 : CorrelatedRequestDTO),
            fst (if b1 then (d1, r1) else if b2 then (d1, r2) else (d1, r3)) = d1)
    by (by intros r1 r2 r3 [] []).
  rewrite Hfst. split; [done |]. split; [done |].
  intros Hne Heq. apply (f_equal request_id) in Heq. simpl in Heq.
  rewrite <- Heq in Hid. simpl in Hid.
  destruct (String.eqb_spec uuidv4 ""); congruence.
Qed.

Lemma send_sets_request_id_before_rejecting_witness :
  truthy_id (request_id (set_request_id None sample_request)) = None /\
  snd (send "3f2c9a4e-0001" sample_service (set_request_id None sample_request) ∅ None)
    = Throws (BadRequestError "Host and/or port missing in transport options") /\
  request_id (fst (send "3f2c9a4e-0001" sample_service
                     (set_request_id None sample_request) ∅ None))
    = Some "3f2c9a4e-0001".
Proof.
  assert (H2 : snd (send "3f2c9a4e-0001" sample_service
                      (set_request_id None sample_request) ∅ None)
               = Throws (BadRequestError "Host and/or port missing in transport options"))
    by (vm_compute; reflexivity).
  split; [reflexivity |]. split; [exact H2 |].
  exact (proj1 (proj2 (send_sets_request_id_before_rejecting "3f2c9a4e-0001"
                         sample_service (set_request_id None sample_request) ∅ None _
                         eq_refl H2))).
Defined.

(** ** The wire form: [JSON.parse] after [JSON.stringify] *)

Section Wire.

Import JSON.

(** Case analysis on a character by its eight bits. *)
Ltac ascii_cases c := destruct c as [[|] [|] [|] [|] [|] [|] [|] [|]].

Lemma append_cons (c : ascii) (s1 s2 : string) :
  String c s1 +:+ s2 = String c (s1 +:+ s2).
Proof. reflexivity. Qed.

Lemma append_assoc (s1 s2 s3 : string) : (s1 +:+ s2) +:+ s3 = s1 +:+ (s2 +:+ s3).
Proof.
  induction s1 as [| c s1 IH]; [reflexivity |].
  rewrite !append_cons. by f_equal.
Qed.

Lemma length_append (s1 s2 : string) :
  String.length (s1 +:+ s2) = (String.length s1 + String.length s2)%nat.
Proof.
  induction s1 as [| c s1 IH]; [reflexivity |].
  rewrite append_cons. simpl. by f_equal.
Qed.

Lemma append_empty_r (s : string) : s +:+ "" = s.
Proof.
  induction s as [| c s IH]; [reflexivity |].
  rewrite append_cons. by f_equal.
Qed.

(** Strings *)

Lemma parse_chars_quote_char (c : ascii) (rest : string) :
  parse_chars (quote_char c +:+ rest) = prepend (String c EmptyString) (parse_chars rest).
Proof.
  ascii_cases c; reflexivity.
Qed.

Lemma low_escape_quote_char (c : ascii) (rest : string) :
  low_escape (quote_char c +:+ rest) = None.
Proof.
  ascii_cases c; reflexivity.
Qed.

Lemma surrogate_bytes_all :
  forallb (fun n2 => forallb (surrogate_bytes (N.of_nat n2)) (List.map N.of_nat (seq 128 64)))
          (seq 160 32) = true.
Proof. vm_compute. reflexivity. Qed.

Lemma surrogate_inv (c1 c2 c3 : ascii) (cu : N) :
  surrogate c1 c2 c3 = Some cu ->
  c1 = ascii_of_N 237 /\
  surrogate_bytes (N_of_ascii c2) (N_of_ascii c3) = true /\
  cu = (53248 + (N_of_ascii c2 - 128) * 64 + (N_of_ascii c3 - 128))%N.
Proof.
  unfold surrogate. intros H.
  destruct (N.eqb_spec (N_of_ascii c1) 237) as [H1 |]; [| done].
  destruct (N.leb_spec 160 (N_of_ascii c2)) as [H2 |]; [| done].
  destruct (N.leb_spec (N_of_ascii c2) 191) as [H2' |]; [| done].
  destruct (N.leb_spec 128 (N_of_ascii c3)) as [H3 |]; [| done].
  destruct (N.leb_spec (N_of_ascii c3) 191) as [H3' |]; [| done].
  simpl in H. injection H as <-.
  split; [by rewrite <- H1, ascii_N_embedding |]. split; [| done].
  pose proof surrogate_bytes_all as Hall. rewrite forallb_forall in Hall.
  specialize (Hall (N.to_nat (N_of_ascii c2))).
  rewrite N2Nat.id in Hall.
  assert (Hin2 : In (N.to_nat (N_of_ascii c2)) (seq 160 32)) by (apply in_seq; lia).
  specialize (Hall Hin2). rewrite forallb_forall in Hall.
  apply Hall. apply in_map_iff. exists (N.to_nat (N_of_ascii c3)).
  split; [apply N2Nat.id | apply in_seq; lia].
Qed.

Lemma surrogate_facts (c1 c2 c3 : ascii) (cu : N) (rest : string) :
  surrogate c1 c2 c3 = Some cu ->
  utf8 cu = String c1 (String c2 (String c3 EmptyString)) /\
  (exists h1 h2 h3 h4,
     unicode_escape cu +:+ rest
     = String backslash (String "u" (String h1 (String h2 (String h3 (String h4 rest)))))
     /\ hex4_value h1 h2 h3 h4 = Some cu) /\
  (is_high_surrogate cu = false -> is_low_surrogate cu = true) /\
  (is_high_surrogate cu = true -> is_low_surrogate cu = false).
Proof.
  intros H. destruct (surrogate_inv c1 c2 c3 cu H) as (-> & Hb & ->).
  unfold surrogate_bytes in Hb.
  set (cu := (53248 + (N_of_ascii c2 - 128) * 64 + (N_of_ascii c3 - 128))%N) in *.
  apply andb_prop in Hb as [Hb Hhl]. apply andb_prop in Hb as [Hb Hsur].
  apply andb_prop in Hb as [Hu He].
  apply String.eqb_eq in Hu. rewrite !ascii_N_embedding in Hu.
  split; [exact Hu |]. split; [| split].
  - unfold unicode_escape in *. rewrite !append_cons.
    apply andb_prop in He as [He Hh]. 
    destruct (hex4_value _ _ _ _) as [cu'|] eqn:Hv; [| done].
    apply N.eqb_eq in Hh. subst cu'. eexists _, _, _, _. split; [reflexivity | exact Hv].
  - intros Hh. rewrite Hh in Hsur. exact Hsur.
  - intros Hh. unfold is_high_surrogate, is_low_surrogate in *.
    apply andb_prop in Hh as [_ Hlt]. apply N.ltb_lt in Hlt.
    destruct (N.leb_spec 56320 cu); [lia | done].
Qed.

Lemma parse_chars_raw (c : ascii) (rest : string) :
  (128 <=? N_of_ascii c)%N = true ->
  parse_chars (String c rest) = prepend (String c EmptyString) (parse_chars rest).
Proof.
  ascii_cases c; try discriminate; reflexivity.
Qed.

Lemma surrogate_raw (c1 c2 c3 : ascii) (cu : N) :
  surrogate c1 c2 c3 = Some cu ->
  (128 <=? N_of_ascii c1)%N = true /\ (128 <=? N_of_ascii c2)%N = true /\
  (128 <=? N_of_ascii c3)%N = true /\ Ascii.eqb c1 backslash = false.
Proof.
  unfold surrogate. intros H.
  destruct (N.eqb_spec (N_of_ascii c1) 237) as [H1 |]; [| done].
  destruct (N.leb_spec 160 (N_of_ascii c2)) as [H2 |]; [| done].
  destruct (N.leb_spec (N_of_ascii c2) 191) as [H2' |]; [| done].
  destruct (N.leb_spec 128 (N_of_ascii c3)) as [H3 |]; [| done].
  rewrite H1. split; [done |]. split; [apply N.leb_le; lia |].
  split; [done |].
  apply Ascii.eqb_neq. intros ->. done.
Qed.

(** How [quote_chars] writes the first character of a string. *)
Lemma quote_chars_cases (c1 : ascii) (t : string) :
  (exists c2 c3 d1 d2 d3 r' cu cu',
     t = String c2 (String c3 (String d1 (String d2 (String d3 r')))) /\
     surrogate c1 c2 c3 = Some cu /\ surrogate d1 d2 d3 = Some cu' /\
     quote_chars (String c1 t)
     = String c1 (String c2 (String c3 (String d1 (String d2 (String d3 (quote_chars r'))))))) \/
  (exists c2 c3 r cu,
     t = String c2 (String c3 r) /\ surrogate c1 c2 c3 = Some cu /\
     (is_high_surrogate cu = true -> leading_low_surrogate r = false) /\
     quote_chars (String c1 t) = unicode_escape cu +:+ quote_chars r) \/
  ((forall c2 c3 r, t = String c2 (String c3 r) -> surrogate c1 c2 c3 = None) /\
   quote_chars (String c1 t) = quote_char c1 +:+ quote_chars t).
Proof.
  destruct t as [| c2 [| c3 r]]; [right; right; by split .. |].
  cbn [quote_chars]. destruct (surrogate c1 c2 c3) as [cu|] eqn:Hs.
  - destruct (is_high_surrogate cu) eqn:Hh; cbn [andb].
    + destruct (leading_low_surrogate r) eqn:Hl.
      * left. destruct r as [| d1 [| d2 [| d3 r']]]; try discriminate.
        cbn [leading_low_surrogate] in Hl.
        destruct (surrogate d1 d2 d3) as [cu'|] eqn:Hs'; [| done].
        by exists c2, c3, d1, d2, d3, r', cu, cu'.
      * right; left. exists c2, c3, r, cu. by destruct r as [| d1 [| d2 [| d3 r']]].
    + right; left. exists c2, c3, r, cu. split; [done |]. split; [done |].
      split; [congruence |]. reflexivity.
  - right; right. split; [| done]. intros ? ? ? [= <- <- <-]. done.
Qed.

Lemma low_escape_quote_chars (r rest : string) :
  leading_low_surrogate r = false ->
  low_escape (quote_chars r +:+ quote_s +:+ rest) = None.
Proof.
  intros Hl. destruct r as [| c1 t]; [reflexivity |].
  destruct (quote_chars_cases c1 t)
    as [(c2 & c3 & d1 & d2 & d3 & r' & cu & cu' & -> & Hs & _ & ->)
       | [(c2 & c3 & r & cu & -> & Hs & _ & ->) | [_ ->]]].
  - destruct (surrogate_raw _ _ _ _ Hs) as (_ & _ & _ & Hb).
    rewrite append_cons. cbn [low_escape]. by rewrite Hb.
  - rewrite append_assoc.
    destruct (surrogate_facts c1 c2 c3 cu (quote_chars r +:+ quote_s +:+ rest) Hs)
      as (_ & (h1 & h2 & h3 & h4 & -> & Hv) & Hlow & _).
    cbn [leading_low_surrogate] in Hl. rewrite Hs in Hl.
    cbn [low_escape]. change (Ascii.eqb backslash backslash) with true.
    change (Ascii.eqb "u" "u") with true. cbv iota. by rewrite Hv, Hl.
  - rewrite append_assoc. apply low_escape_quote_char.
Qed.

Lemma parse_chars_escape (cu : N) (h1 h2 h3 h4 : ascii) (rest : string) :
  hex4_value h1 h2 h3 h4 = Some cu ->
  (is_high_surrogate cu = true -> low_escape rest = None) ->
  parse_chars (String backslash (String "u" (String h1 (String h2 (String h3 (String h4 rest))))))
  = prepend (utf8 cu) (parse_chars rest).
Proof.
  intros Hv Hl. cbn [parse_chars].
  change (Ascii.eqb backslash dquote) with false.
  change (Ascii.eqb backslash backslash) with true.
  change (Ascii.eqb "u" "u") with true. cbv iota. rewrite Hv.
  destruct (is_high_surrogate cu); [by rewrite Hl | done].
Qed.

Lemma parse_chars_quote_chars (s rest : string) :
  parse_chars (quote_chars s +:+ quote_s +:+ rest) = Some (s, rest).
Proof.
  remember (String.length s) as n eqn:Hn.
  revert s Hn rest. induction n as [n IH] using lt_wf_ind. intros s Hn rest.
  destruct s as [| c1 t]; [reflexivity |].
  destruct (quote_chars_cases c1 t)
    as [(c2 & c3 & d1 & d2 & d3 & r' & cu & cu' & -> & Hs & Hs' & ->)
       | [(c2 & c3 & r & cu & -> & Hs & Hpair & ->) | [_ ->]]].
  - destruct (surrogate_raw _ _ _ _ Hs) as (H1 & H2 & H3 & _).
    destruct (surrogate_raw _ _ _ _ Hs') as (H4 & H5 & H6 & _).
    rewrite !append_cons.
    rewrite (parse_chars_raw c1 _ H1), (parse_chars_raw c2 _ H2), (parse_chars_raw c3 _ H3),
      (parse_chars_raw d1 _ H4), (parse_chars_raw d2 _ H5), (parse_chars_raw d3 _ H6).
    rewrite (IH (String.length r') ltac:(subst n; simpl; lia) r' eq_refl rest).
    reflexivity.
  - rewrite append_assoc.
    destruct (surrogate_facts c1 c2 c3 cu (quote_chars r +:+ quote_s +:+ rest) Hs)
      as (Hu & (h1 & h2 & h3 & h4 & -> & Hv) & _).
    rewrite (parse_chars_escape cu h1 h2 h3 h4 _ Hv).
    + rewrite (IH (String.length r) ltac:(subst n; simpl; lia) r eq_refl rest), Hu.
      reflexivity.
    + intros Hh. apply low_escape_quote_chars. by apply Hpair.
  - rewrite append_assoc, parse_chars_quote_char.
    rewrite (IH (String.length t) ltac:(subst n; simpl; lia) t eq_refl rest).
    reflexivity.
Qed.

Lemma QuoteJSONString_append (s rest : string) :
  QuoteJSONString s +:+ rest = String dquote (quote_chars s +:+ quote_s +:+ rest).
Proof. unfold QuoteJSONString. by rewrite append_cons, append_assoc. Qed.

(** Numbers: what follows a number text does not change how it is read *)

Lemma value_end_digit (c : ascii) (r : string) :
  value_end (String c r) = true ->
  digit_of c = None /\ Ascii.eqb c "." = false /\
  (Ascii.eqb c "e" || Ascii.eqb c "E") = false.
Proof.
  ascii_cases c; try discriminate; done.
Qed.

Lemma scan_digits_app (s rest : string) (d : Decimal.uint) (s2 : string) :
  scan_digits s = (d, s2) ->
  (s2 = "" -> value_end rest = true) ->
  scan_digits (s +:+ rest) = (d, s2 +:+ rest).
Proof.
  revert d s2. induction s as [| c r IH]; intros d s2 Hs Hend.
  - injection Hs as <- <-. change ("" +:+ rest) with rest.
    destruct rest as [| c r]; [reflexivity |].
    destruct (value_end_digit c r (Hend eq_refl)) as (Hd & _).
    cbn [scan_digits]. by rewrite Hd.
  - rewrite append_cons. cbn [scan_digits] in *.
    destruct (digit_of c) as [k|].
    + destruct (scan_digits r) as [d' s'] eqn:Hr. injection Hs as <- <-.
      by rewrite (IH d' s' eq_refl Hend).
    + injection Hs as <- <-. by rewrite append_cons.
Qed.

Lemma parse_fraction_app (s rest : string) (fp : Decimal.uint) (s3 : string) :
  parse_fraction s = Some (fp, s3) ->
  (s3 = "" -> value_end rest = true) ->
  parse_fraction (s +:+ rest) = Some (fp, s3 +:+ rest).
Proof.
  intros Hs Hend. destruct s as [| c r].
  - injection Hs as <- <-. change ("" +:+ rest) with rest.
    destruct rest as [| c r]; [reflexivity |].
    destruct (value_end_digit c r (Hend eq_refl)) as (_ & Hp & _).
    cbn [parse_fraction]. by rewrite Hp.
  - rewrite append_cons. cbn [parse_fraction] in *.
    destruct (Ascii.eqb c ".").
    + destruct (scan_digits r) as [d' s'] eqn:Hr.
      assert (Hd : d' = fp /\ s' = s3) by (destruct d'; by inversion Hs).
      destruct Hd as [-> ->].
      rewrite (scan_digits_app r rest fp s3 Hr Hend). by destruct fp.
    + injection Hs as <- <-. by rewrite append_cons.
Qed.

Lemma parse_sign_app (r rest : string) (neg : bool) (r1 : string) :
  parse_sign r = (neg, r1) -> r <> "" ->
  parse_sign (r +:+ rest) = (neg, r1 +:+ rest).
Proof.
  intros Hs Hr. destruct r as [| c r]; [done |].
  rewrite append_cons. cbn [parse_sign] in *.
  destruct (Ascii.eqb c "-"); [by injection Hs as <- <- |].
  destruct (Ascii.eqb c "+"); injection Hs as <- <-; by rewrite ?append_cons.
Qed.

Lemma parse_exponent_app (s rest : string) (ex : Z) (s4 : string) :
  parse_exponent s = Some (ex, s4) ->
  (s4 = "" -> value_end rest = true) ->
  parse_exponent (s +:+ rest) = Some (ex, s4 +:+ rest).
Proof.
  intros Hs Hend. destruct s as [| c r].
  - injection Hs as <- <-. change ("" +:+ rest) with rest.
    destruct rest as [| c r]; [reflexivity |].
    destruct (value_end_digit c r (Hend eq_refl)) as (_ & _ & He).
    cbn [parse_exponent]. by rewrite He.
  - rewrite append_cons. cbn [parse_exponent] in *.
    destruct (Ascii.eqb c "e" || Ascii.eqb c "E").
    + destruct (parse_sign r) as [neg r1] eqn:Hsg.
      destruct (scan_digits r1) as [ed s'] eqn:Hr1.
      assert (Hne : r <> "").
      { intros ->. injection Hsg as <- <-. injection Hr1 as <- <-. done. }
      rewrite (parse_sign_app r rest neg r1 Hsg Hne).
      assert (Hd : s' = s4) by (destruct ed; by inversion Hs). subst s'.
      rewrite (scan_digits_app r1 rest ed s4 Hr1 Hend).
      destruct ed; [done | injection Hs as <-; reflexivity ..].
    + injection Hs as <- <-. by rewrite append_cons.
Qed.

Lemma parse_unsigned_app (neg : bool) (s rest : string) (x : number) (s4 : string) :
  parse_unsigned neg s = Some (x, s4) ->
  (s4 = "" -> value_end rest = true) ->
  parse_unsigned neg (s +:+ rest) = Some (x, s4 +:+ rest).
Proof.
  unfold parse_unsigned. intros Hs Hend.
  destruct (scan_digits s) as [ip s2] eqn:H2.
  destruct (canonical_digits ip) eqn:Hc; [| done].
  destruct (parse_fraction s2) as [[fp s3]|] eqn:H3; [| done].
  destruct (parse_exponent s3) as [[ex s4']|] eqn:H4; [| done].
  injection Hs as <- <-.
  assert (E3 : s3 = "" -> s4' = "").
  { intros ->. by injection H4 as _ <-. }
  assert (E2 : s2 = "" -> s3 = "").
  { intros ->. by injection H3 as _ <-. }
  rewrite (scan_digits_app s rest ip s2 H2 ltac:(auto)).
  rewrite (parse_fraction_app s2 rest fp s3 H3 ltac:(auto)).
  by rewrite (parse_exponent_app s3 rest ex s4' H4 Hend), Hc.
Qed.

Lemma parse_number_app (s rest : string) (x : number) (s4 : string) :
  parse_number s = Some (x, s4) ->
  (s4 = "" -> value_end rest = true) ->
  parse_number (s +:+ rest) = Some (x, s4 +:+ rest).
Proof.
  intros Hs Hend. destruct s as [| c r]; [done |].
  rewrite append_cons. cbn [parse_number] in *.
  destruct (Ascii.eqb c "-").
  - by apply parse_unsigned_app.
  - rewrite <- append_cons. by apply parse_unsigned_app.
Qed.

Lemma digit_starts_value (c : ascii) :
  number_start c = true -> value_start c = true.
Proof.
  ascii_cases c; try discriminate; done.
Qed.

Lemma parse_number_head (s : string) (p : number * string) :
  parse_number s = Some p -> exists c r, s = String c r /\ number_start c = true.
Proof.
  intros Hs. destruct s as [| c r]; [done |]. exists c, r. split; [done |].
  cbn [parse_number] in Hs. unfold number_start.
  destruct (Ascii.eqb c "-"); [by rewrite orb_true_r |].
  unfold parse_unsigned in Hs. cbn [scan_digits] in Hs. unfold is_digit.
  destruct (digit_of c); [done |]. done.
Qed.

Lemma number_eqb_eq (x y : number) : number_eqb x y = true -> x = y.
Proof.
  destruct x as [s | s | | s m e], y as [t | t | | t n f]; try discriminate; simpl.
  - intros H. by apply Bool.eqb_prop in H as ->.
  - intros H. by apply Bool.eqb_prop in H as ->.
  - done.
  - intros H. apply andb_prop in H as [H He]. apply andb_prop in H as [Hs Hm].
    apply Bool.eqb_prop in Hs as ->. apply Pos.eqb_eq in Hm as ->.
    by apply Z.eqb_eq in He as ->.
Qed.

(** A number that reads back is finite, and is read back before any end of
    a value. *)
Lemma reads_back_text (x : number) :
  reads_back x = true ->
  text (JNum x) = NumberToString x /\ parse_number (NumberToString x) = Some (x, "").
Proof.
  unfold reads_back. intros H.
  destruct (parse_number (NumberToString x)) as [[y [| c r]]|] eqn:Hp; try discriminate.
  apply number_eqb_eq in H as ->. split; [| done].
  change (text (JNum x)) with (number_text x). unfold number_text.
  destruct x as [s | [|] | | s m e]; try reflexivity; discriminate.
Qed.

Lemma parse_number_text (x : number) (rest : string) :
  reads_back x = true -> value_end rest = true ->
  parse_number (text (JNum x) +:+ rest) = Some (x, rest).
Proof.
  intros Hx Hend. destruct (reads_back_text x Hx) as [-> Hp].
  by rewrite (parse_number_app _ rest x "" Hp).
Qed.

Lemma number_text_head (x : number) (rest : string) :
  reads_back x = true ->
  exists c r, text (JNum x) +:+ rest = String c r /\
              number_start c = true /\ value_start c = true.
Proof.
  intros Hx. destruct (reads_back_text x Hx) as [-> Hp].
  destruct (parse_number_head _ _ Hp) as (c & r & -> & Hc).
  exists c, (r +:+ rest). rewrite append_cons. split; [done |]. split; [done |].
  by apply digit_starts_value.
Qed.

(** One step of the parser on a known first character *)

Lemma parse_value_number (fuel : nat) (c : ascii) (r : string) :
  number_start c = true ->
  parse_value (S fuel) (String c r) =
  match parse_number (String c r) with
  | Some (n, rest) => Some (JNum n, rest)
  | None => None
  end.
Proof.
  ascii_cases c; try discriminate; reflexivity.
Qed.
Lemma parse_value_string (fuel : nat) (r : string) :
  parse_value (S fuel) (String dquote r) =
  match parse_chars r with
  | Some (str, rest) => Some (JStr str, rest)
  | None => None
  end.
Proof. reflexivity. Qed.

Lemma parse_value_array (fuel : nat) (c : ascii) (r : string) :
  value_start c = true ->
  parse_value (S fuel) (String "[" (String c r)) =
  match parse_elements fuel (String c r) with
  | Some (items, rest) => Some (JArr items, rest)
  | None => None
  end.
Proof.
  ascii_cases c; try discriminate; reflexivity.
Qed.

Lemma parse_value_object (fuel : nat) (r : string) :
  parse_value (S fuel) (String "{" (String dquote r)) =
  match parse_members fuel [] (String dquote r) with
  | Some (props, rest) => Some (JObj props, rest)
  | None => None
  end.
Proof. reflexivity. Qed.

Lemma parse_elements_last (fuel : nat) (s rest : string) (v : js_value) :
  parse_value fuel s = Some (v, String "]" rest) ->
  parse_elements (S fuel) s = Some ([v], rest).
Proof. intros H. cbn [parse_elements]. rewrite H. reflexivity. Qed.

Lemma parse_elements_more (fuel : nat) (s rest : string) (v : js_value) :
  parse_value fuel s = Some (v, String "," rest) ->
  parse_elements (S fuel) s =
  match parse_elements fuel rest with
  | Some (vs, r) => Some (v :: vs, r)
  | None => None
  end.
Proof. intros H. cbn [parse_elements]. rewrite H. reflexivity. Qed.

Lemma parse_members_last (fuel : nat) (acc : list (string * js_value))
    (k s rest : string) (v : js_value) :
  parse_value fuel s = Some (v, String "}" rest) ->
  parse_members (S fuel) acc (String dquote (quote_chars k +:+ quote_s +:+ String ":" s))
  = Some (CreateDataProperty k v acc, rest).
Proof.
  intros H. cbn [parse_members skip_ws is_ws]. 
  change (is_ws dquote) with false. cbv iota.
  change (Ascii.eqb dquote dquote) with true. cbv iota.
  rewrite parse_chars_quote_chars. cbn [skip_ws]. change (is_ws ":") with false. cbv iota.
  rewrite H. reflexivity.
Qed.

Lemma parse_members_more (fuel : nat) (acc : list (string * js_value))
    (k s rest : string) (v : js_value) :
  parse_value fuel s = Some (v, String "," rest) ->
  parse_members (S fuel) acc (String dquote (quote_chars k +:+ quote_s +:+ String ":" s))
  = parse_members fuel (CreateDataProperty k v acc) rest.
Proof.
  intros H. cbn [parse_members skip_ws is_ws]. 
  change (is_ws dquote) with false. cbv iota.
  change (Ascii.eqb dquote dquote) with true. cbv iota.
  rewrite parse_chars_quote_chars. cbn [skip_ws]. change (is_ws ":") with false. cbv iota.
  rewrite H. reflexivity.
Qed.

(** Objects: a property list in enumeration order is rebuilt key by key *)

Lemma key_order_app (l1 l2 : list (string * js_value)) :
  key_order (l1 ++ l2) = true ->
  key_order l1 = true /\ key_order l2 = true /\
  forall p q, p ∈ l1 -> q ∈ l2 -> precedes (fst p) (fst q) = true.
Proof.
  induction l1 as [| [k v] l1 IH]; simpl.
  - intros H. split; [done |]. split; [done |]. intros p q Hp. by apply elem_of_nil in Hp.
  - intros H. apply andb_prop in H as [Hall Hrest].
    destruct (IH Hrest) as (H1 & H2 & H12).
    rewrite forallb_app in Hall. apply andb_prop in Hall as [Ha1 Ha2].
    split; [by rewrite Ha1, H1 |]. split; [done |].
    intros p q Hp Hq. apply elem_of_cons in Hp as [-> | Hp]; [| by apply H12].
    simpl. rewrite forallb_forall in Ha2. apply Ha2. by apply list_elem_of_In.
Qed.

Lemma has_key_precedes (k : string) (acc : list (string * js_value)) :
  (forall p, p ∈ acc -> precedes (fst p) k = true) -> has_key k acc = false.
Proof.
  induction acc as [| [k' v'] acc IH]; intros H; simpl; [done |].
  rewrite IH by (intros p Hp; apply H; by apply elem_of_cons; right).
  specialize (H (k', v') ltac:(by apply elem_of_cons; left)). simpl in H.
  unfold precedes in H. apply andb_prop in H as [H _].
  apply negb_true_iff in H. rewrite String.eqb_sym, H. done.
Qed.

Lemma insert_index_last (n : N) (k : string) (v : js_value)
    (acc : list (string * js_value)) :
  array_index k = Some n ->
  (forall p, p ∈ acc -> precedes (fst p) k = true) ->
  insert_index n k v acc = acc ++ [(k, v)].
Proof.
  intros Hk. induction acc as [| [k' v'] acc IH]; intros H; simpl; [done |].
  pose proof (H (k', v') ltac:(by apply elem_of_cons; left)) as Hp. simpl in Hp.
  unfold precedes in Hp. rewrite Hk in Hp. apply andb_prop in Hp as [_ Hp].
  destruct (array_index k') as [m|]; [| done]. rewrite Hp.
  rewrite IH by (intros p Hq; apply H; by apply elem_of_cons; right). done.
Qed.

Lemma CreateDataProperty_last (k : string) (v : js_value)
    (acc : list (string * js_value)) :
  key_order (acc ++ [(k, v)]) = true ->
  CreateDataProperty k v acc = acc ++ [(k, v)].
Proof.
  intros H. destruct (key_order_app _ _ H) as (_ & _ & Hpre).
  assert (Hall : forall p, p ∈ acc -> precedes (fst p) k = true).
  { intros p Hp. apply (Hpre p (k, v) Hp). by apply list_elem_of_singleton. }
  unfold CreateDataProperty. rewrite (has_key_precedes k acc Hall).
  destruct (array_index k) as [n|] eqn:Hk; [by apply insert_index_last | done].
Qed.

(** The first character of a value's text *)

Lemma text_head (v : js_value) (rest : string) :
  json_value v = true ->
  exists c r, text v +:+ rest = String c r /\ value_start c = true.
Proof.
  destruct v as [| | [|] | n | s | items | props]; intros Hj; try discriminate.
  - by eexists _, _.
  - by eexists _, _.
  - by eexists _, _.
  - destruct (number_text_head n rest Hj) as (c & r & Heq & _ & Hc). by exists c, r.
  - change (text (JStr s)) with (QuoteJSONString s). rewrite QuoteJSONString_append.
    by eexists _, _.
  - change (text (JArr items)) with (SerializeJSONArray items).
    unfold SerializeJSONArray. rewrite !append_cons. by eexists _, _.
  - change (text (JObj props)) with (SerializeJSONObject props).
    unfold SerializeJSONObject. rewrite !append_cons. by eexists _, _.
Qed.

Lemma concat_cons2 (sep x y : string) (l : list string) :
  String.concat sep (x :: y :: l) = x +:+ sep +:+ String.concat sep (y :: l).
Proof. reflexivity. Qed.

Lemma concat_cons_ne (sep x : string) (l : list string) :
  l <> [] -> String.concat sep (x :: l) = x +:+ sep +:+ String.concat sep l.
Proof. destruct l; [done | reflexivity]. Qed.

(** Arrays *)

Lemma parse_elements_texts (items : list js_value) :
  items <> [] ->
  Forall (fun x => json_value x = true /\
                   forall fuel rest, (size x <= fuel)%nat -> value_end rest = true ->
                     parse_value fuel (text x +:+ rest) = Some (x, rest)) items ->
  forall fuel rest,
    (list_sum (List.map (fun x => S (size x)) items) <= fuel)%nat ->
    parse_elements fuel (String.concat "," (List.map text items) +:+ String "]" rest)
    = Some (items, rest).
Proof.
  induction items as [| x items IH]; [done |].
  intros _ HF fuel rest Hfuel. apply Forall_cons in HF as [[_ Hx] HF].
  simpl in Hfuel. destruct fuel as [| fuel]; [lia |].
  destruct items as [| y items].
  - change (String.concat "," (List.map text [x])) with (text x).
    apply parse_elements_last. apply Hx; [simpl in Hfuel; lia | reflexivity].
  - change (List.map text (x :: y :: items)) with (text x :: text y :: List.map text items).
    rewrite concat_cons2, !append_assoc.
    change ("," +:+ String.concat "," (text y :: List.map text items) +:+ String "]" rest)
      with (String "," (String.concat "," (List.map text (y :: items)) +:+ String "]" rest)).
    set (tail := String.concat "," (List.map text (y :: items)) +:+ String "]" rest).
    rewrite (parse_elements_more fuel _ tail x
               (Hx fuel (String "," tail) ltac:(lia) eq_refl)).
    unfold tail.
    rewrite (IH ltac:(done) HF fuel rest ltac:(lia)). reflexivity.
Qed.

(** Objects *)

Lemma json_value_text (v : js_value) :
  json_value v = true -> SerializeJSONProperty v = Some (text v).
Proof. destruct v as [| | [|] | n | s | items | props]; intros H; try discriminate; done. Qed.

Lemma omap_member_text (props : list (string * js_value)) :
  forallb (fun p => json_value (snd p)) props = true ->
  omap (fun p => member_text (fst p) <$> SerializeJSONProperty (snd p)) props
  = List.map (fun p => member_text (fst p) (text (snd p))) props.
Proof.
  induction props as [| [k v] props IH]; simpl; [done |].
  intros H. apply andb_prop in H as [Hv Hps].
  rewrite (json_value_text v Hv). simpl. f_equal. exact (IH Hps).
Qed.

Lemma map_text (items : list js_value) :
  List.map (fun x => default "null" (SerializeJSONProperty x)) items = List.map text items.
Proof. reflexivity. Qed.

Lemma member_text_append (k t rest : string) :
  member_text k t +:+ rest
  = String dquote (quote_chars k +:+ quote_s +:+ String ":" (t +:+ rest)).
Proof.
  unfold member_text. rewrite append_assoc, QuoteJSONString_append.
  rewrite (append_assoc ":" t rest). reflexivity.
Qed.

Lemma parse_members_texts (props : list (string * js_value)) :
  props <> [] ->
  Forall (fun p => json_value (snd p) = true /\
                   forall fuel rest, (size (snd p) <= fuel)%nat -> value_end rest = true ->
                     parse_value fuel (text (snd p) +:+ rest) = Some (snd p, rest)) props ->
  forall acc fuel rest,
    key_order (acc ++ props) = true ->
    (list_sum (List.map (fun p => S (size (snd p))) props) <= fuel)%nat ->
    parse_members fuel acc
      (String.concat "," (List.map (fun p => member_text (fst p) (text (snd p))) props)
       +:+ String "}" rest)
    = Some (acc ++ props, rest).
Proof.
  induction props as [| [k v] props IH]; [done |].
  intros _ HF acc fuel rest Hord Hfuel. apply Forall_cons in HF as [[_ Hv] HF].
  simpl in Hv. simpl in Hfuel. destruct fuel as [| fuel]; [lia |].
  assert (Hlast : CreateDataProperty k v acc = acc ++ [(k, v)]).
  { apply CreateDataProperty_last.
    replace (acc ++ (k, v) :: props) with ((acc ++ [(k, v)]) ++ props) in Hord
      by (by rewrite <- app_assoc).
    by destruct (key_order_app _ _ Hord) as (H & _ & _). }
  destruct props as [| q props].
  - change (String.concat "," (List.map (fun p => member_text (fst p) (text (snd p))) [(k, v)]))
      with (member_text k (text v)).
    rewrite member_text_append.
    rewrite (parse_members_last fuel acc k _ rest v
               (Hv fuel (String "}" rest) ltac:(lia) eq_refl)).
    by rewrite Hlast.
  - change (List.map (fun p => member_text (fst p) (text (snd p))) ((k, v) :: q :: props))
      with (member_text k (text v)
            :: List.map (fun p => member_text (fst p) (text (snd p))) (q :: props)).
    rewrite concat_cons_ne by done. rewrite !append_assoc.
    set (tail := String.concat ","
                   (List.map (fun p => member_text (fst p) (text (snd p))) (q :: props))
                 +:+ String "}" rest).
    change ("," +:+ tail) with (String "," tail).
    rewrite member_text_append.
    rewrite (parse_members_more fuel acc k _ tail v
               (Hv fuel (String "," tail) ltac:(lia) eq_refl)).
    rewrite Hlast. unfold tail.
    rewrite (IH ltac:(done) HF (acc ++ [(k, v)]) fuel rest); [by rewrite <- app_assoc | | lia].
    by rewrite <- app_assoc.
Qed.

(** Any value JSON can carry is read back from its text *)

Lemma parse_value_text (v : js_value) :
  json_value v = true ->
  forall fuel rest, (size v <= fuel)%nat -> value_end rest = true ->
    parse_value fuel (text v +:+ rest) = Some (v, rest).
Proof.
  induction v as [| | b | n | s | items IH | props IH] using js_value_ind;
    intros Hj fuel rest Hfuel Hend; try discriminate;
    (destruct fuel as [| fuel]; [simpl in Hfuel; lia |]).
  - reflexivity.
  - destruct b; reflexivity.
  - destruct (number_text_head n rest Hj) as (c & r & Heq & Hc & _).
    pose proof (parse_number_text n rest Hj Hend) as Hp.
    rewrite Heq in *. by rewrite (parse_value_number fuel c r Hc), Hp.
  - change (text (JStr s)) with (QuoteJSONString s).
    by rewrite QuoteJSONString_append, parse_value_string, parse_chars_quote_chars.
  - change (text (JArr items)) with (SerializeJSONArray items).
    unfold SerializeJSONArray. rewrite map_text.
    destruct items as [| x items]; [reflexivity |].
    rewrite !append_assoc.
    change ("]" +:+ rest) with (String "]" rest).
    change ("[" +:+ ?t) with (String "[" t).
    assert (HF : Forall (fun x => json_value x = true /\
                   forall fuel rest, (size x <= fuel)%nat -> value_end rest = true ->
                     parse_value fuel (text x +:+ rest) = Some (x, rest)) (x :: items)).
    { simpl in Hj. fold json_value in Hj. rewrite Forall_forall in IH.
      apply Forall_forall. intros y Hy. 
      assert (Hyj : json_value y = true).
      { change (forallb json_value (x :: items) = true) in Hj.
        rewrite forallb_forall in Hj. apply Hj. by apply list_elem_of_In. }
      split; [done | by apply IH]. }
    pose proof (parse_elements_texts (x :: items) ltac:(done) HF fuel rest) as Hel.
    assert (Hhead : exists c r,
               String.concat "," (List.map text (x :: items)) +:+ String "]" rest
               = String c r /\ value_start c = true).
    { destruct items as [| y items].
      - change (String.concat "," (List.map text [x])) with (text x).
        destruct (text_head x (String "]" rest)) as (c' & r' & ? & ?);
          [by apply Forall_cons in HF as [[? _] _] | by exists c', r'].
      - change (List.map text (x :: y :: items))
          with (text x :: text y :: List.map text items).
        rewrite concat_cons2, append_assoc.
        destruct (text_head x (("," +:+ String.concat "," (text y :: List.map text items))
                               +:+ String "]" rest)) as (c' & r' & ? & ?);
          [by apply Forall_cons in HF as [[? _] _] | by exists c', r']. }
    destruct Hhead as (c & r & Heq & Hc).
    rewrite Heq in *. rewrite (parse_value_array fuel c r Hc), Hel; [done |].
    change (size (JArr (x :: items)))
      with (S (list_sum (List.map (fun y => S (size y)) (x :: items)))) in Hfuel.
    lia.
  - change (text (JObj props)) with (SerializeJSONObject props).
    unfold SerializeJSONObject.
    simpl in Hj. fold json_value in Hj. apply andb_prop in Hj as [Hvals Hord].
    rewrite (omap_member_text props Hvals).
    destruct props as [| [k v] props]; [reflexivity |].
    rewrite !append_assoc.
    change ("}" +:+ rest) with (String "}" rest).
    change ("{" +:+ ?t) with (String "{" t).
    assert (HF : Forall (fun p => json_value (snd p) = true /\
                   forall fuel rest, (size (snd p) <= fuel)%nat -> value_end rest = true ->
                     parse_value fuel (text (snd p) +:+ rest) = Some (snd p, rest))
                   ((k, v) :: props)).
    { rewrite Forall_forall in IH. apply Forall_forall. intros p Hp.
      assert (Hpj : json_value (snd p) = true).
      { rewrite forallb_forall in Hvals. apply (Hvals p). by apply list_elem_of_In. }
      split; [done | by apply IH]. }
    pose proof (parse_members_texts ((k, v) :: props) ltac:(done) HF [] fuel rest Hord)
      as Hmem.
    assert (Hhead : exists r,
               String.concat ","
                 (List.map (fun p => member_text (fst p) (text (snd p))) ((k, v) :: props))
               +:+ String "}" rest = String dquote r).
    { destruct props as [| q props].
      - change (String.concat "," (List.map (fun p => member_text (fst p) (text (snd p)))
                                     [(k, v)])) with (member_text k (text v)).
        rewrite member_text_append. by eexists.
      - change (List.map (fun p => member_text (fst p) (text (snd p))) ((k, v) :: q :: props))
          with (member_text k (text v)
                :: List.map (fun p => member_text (fst p) (text (snd p))) (q :: props)).
        rewrite concat_cons_ne by done. rewrite append_assoc, member_text_append.
        by eexists. }
    destruct Hhead as (r & Heq). rewrite Heq in *.
    rewrite parse_value_object, Hmem; [done |].
    change (size (JObj ((k, v) :: props)))
      with (S (list_sum (List.map (fun p => S (size (snd p))) ((k, v) :: props)))) in Hfuel.
    lia.
Qed.

(** The fuel [parse] starts with is enough *)

Lemma elements_size_length (items : list js_value) :
  Forall (fun x => (size x <= String.length (text x))%nat) items ->
  (list_sum (List.map (fun x => S (size x)) items)
   <= String.length (String.concat "," (List.map text items)) + 1)%nat.
Proof.
  induction items as [| x items IH]; intros HF; [simpl; lia |].
  apply Forall_cons in HF as [Hx HF]. specialize (IH HF).
  destruct items as [| y items].
  - change (String.concat "," (List.map text [x])) with (text x). simpl. lia.
  - change (List.map text (x :: y :: items)) with (text x :: List.map text (y :: items)).
    rewrite concat_cons_ne by done. rewrite !length_append.
    change (String.length ",") with 1%nat.
    change (list_sum (List.map (fun x => S (size x)) (x :: y :: items)))
      with (S (size x) + list_sum (List.map (fun x => S (size x)) (y :: items)))%nat.
    lia.
Qed.

Lemma member_text_length (k t : string) :
  (String.length t + 1 <= String.length (member_text k t))%nat.
Proof. unfold member_text. rewrite !length_append. change (String.length ":") with 1%nat. lia. Qed.

Lemma members_size_length (props : list (string * js_value)) :
  Forall (fun p => (size (snd p) <= String.length (text (snd p)))%nat) props ->
  (list_sum (List.map (fun p => S (size (snd p))) props)
   <= String.length
        (String.concat "," (List.map (fun p => member_text (fst p) (text (snd p))) props))
      + 1)%nat.
Proof.
  induction props as [| [k v] props IH]; intros HF; [simpl; lia |].
  apply Forall_cons in HF as [Hv HF]. specialize (IH HF). simpl in Hv.
  pose proof (member_text_length k (text v)) as Hm.
  destruct props as [| q props].
  - change (String.concat "," (List.map (fun p => member_text (fst p) (text (snd p)))
                                 [(k, v)])) with (member_text k (text v)).
    change (list_sum (List.map (fun p => S (size (snd p))) [(k, v)]))
      with (S (size v) + 0)%nat.
    lia.
  - change (List.map (fun p => member_text (fst p) (text (snd p))) ((k, v) :: q :: props))
      with (member_text k (text v)
            :: List.map (fun p => member_text (fst p) (text (snd p))) (q :: props)).
    rewrite concat_cons_ne by done. rewrite !length_append.
    change (String.length ",") with 1%nat.
    change (list_sum (List.map (fun p => S (size (snd p))) ((k, v) :: q :: props)))
      with (S (size v) + list_sum (List.map (fun p => S (size (snd p))) (q :: props)))%nat.
    lia.
Qed.

Lemma size_le_length (v : js_value) :
  json_value v = true -> (size v <= String.length (text v))%nat.
Proof.
  induction v as [| | b | n | s | items IH | props IH] using js_value_ind;
    intros Hj; try discriminate.
  - simpl. lia.
  - destruct b; simpl; lia.
  - destruct (number_text_head n "" Hj) as (c & r & Heq & _).
    rewrite append_empty_r in Heq. rewrite Heq. simpl. lia.
  - change (text (JStr s)) with (QuoteJSONString s). simpl. lia.
  - change (text (JArr items)) with (SerializeJSONArray items).
    unfold SerializeJSONArray. rewrite map_text, !length_append.
    change (String.length "[") with 1%nat. change (String.length "]") with 1%nat.
    change (size (JArr items)) with (S (list_sum (List.map (fun y => S (size y)) items))).
    assert (HF : Forall (fun x => (size x <= String.length (text x))%nat) items).
    { rewrite Forall_forall in IH. apply Forall_forall. intros y Hy. apply IH; [done |].
      change (forallb json_value items = true) in Hj.
      rewrite forallb_forall in Hj. apply Hj. by apply list_elem_of_In. }
    pose proof (elements_size_length items HF). lia.
  - change (text (JObj props)) with (SerializeJSONObject props).
    unfold SerializeJSONObject.
    simpl in Hj. fold json_value in Hj. apply andb_prop in Hj as [Hvals _].
    rewrite (omap_member_text props Hvals), !length_append.
    change (String.length "{") with 1%nat. change (String.length "}") with 1%nat.
    change (size (JObj props))
      with (S (list_sum (List.map (fun p => S (size (snd p))) props))).
    assert (HF : Forall (fun p => (size (snd p) <= String.length (text (snd p)))%nat) props).
    { rewrite Forall_forall in IH. apply Forall_forall. intros p Hp. apply IH; [done |].
      rewrite forallb_forall in Hvals. apply (Hvals p). by apply list_elem_of_In. }
    pose proof (members_size_length props HF). lia.
Qed.

(** [JSON.parse (JSON.stringify v)] is [v] for every value JSON can carry. *)
Lemma parse_stringify (v : js_value) :
  json_value v = true ->
  stringify v = Some (text v) /\ parse (text v) = Some v.
Proof.
  intros Hj. split; [by apply json_value_text |].
  pose proof (parse_value_text v Hj (S (String.length (text v))) ""
                ltac:(pose proof (size_le_length v Hj); lia) eq_refl) as H.
  rewrite append_empty_r in H. unfold parse. rewrite H. reflexivity.
Qed.

End Wire.

Lemma prop_cases (k : string) (v : js_value) :
  carried v = true ->
  (v = JUndefined /\ prop k v = []) \/ (JSON.json_value v = true /\ prop k v = [(k, v)]).
Proof.
  destruct v; intros H; (by left) || (by right).
Qed.

Lemma request_props_json (rq : CorrelatedRequestDTO) :
  carried (correlation_id rq) = true -> carried (transport rq) = true ->
  carried (data rq) = true ->
  JSON.json_value (JObj (request_props rq)) = true /\
  exists rq', request_of_js (JObj (request_props rq)) = Some rq' /\
    action rq' = action rq /\ correlation_id rq' = correlation_id rq /\
    request_id rq' = request_id rq /\ transport rq' = transport rq /\
    data rq' = data rq.
Proof.
  destruct rq as [a c id t d l]. cbn [correlation_id transport data action request_id].
  intros Hc Ht Hd. unfold request_props.
  cbn [correlation_id transport data action request_id request_id_last].
  destruct (prop_cases "correlation_id" c Hc) as [[-> ->] | [Hcj ->]];
    destruct (prop_cases "transport" t Ht) as [[-> ->] | [Htj ->]];
    destruct (prop_cases "data" d Hd) as [[-> ->] | [Hdj ->]];
    destruct id as [id|]; destruct l;
    (split;
     [ cbn [JSON.json_value app optional_prop forallb snd];
       rewrite ?Hcj, ?Htj, ?Hdj; vm_compute; reflexivity
     | eexists; split; [reflexivity | by repeat split] ]).
Qed.

Lemma response_props_json (rs : CorrelatedResponseDTO) :
  carried (res_correlation_id rs) = true -> carried (res_data rs) = true ->
  JSON.reads_back (status rs) = true ->
  JSON.json_value (JObj (response_props rs)) = true /\
  response_of_js (JObj (response_props rs)) = Some rs.
Proof.
  destruct rs as [a c id d e st].
  cbn [res_correlation_id res_data status]. intros Hc Hd Hst. unfold response_props.
  cbn [res_action res_correlation_id res_request_id res_data error status].
  destruct (prop_cases "correlation_id" c Hc) as [[-> ->] | [Hcj ->]];
    destruct (prop_cases "data" d Hd) as [[-> ->] | [Hdj ->]];
    destruct id as [id|];
    (split;
     [ cbn [JSON.json_value app optional_prop forallb snd];
       rewrite ?Hcj, ?Hdj, ?Hst; vm_compute; reflexivity
     | reflexivity ]).
Qed.

(** The whole numbers up to 1000 in absolute value are read back. *)
Lemma small_integers_read_back (n : Z) :
  -1000 <= n <= 1000 -> JSON.reads_back (number_of_Z n) = true.
Proof.
  intros Hn.
  assert (Hall : forallb (fun k => JSON.reads_back (number_of_Z (Z.of_nat k - 1000)))
                         (seq 0 2001) = true) by (vm_compute; reflexivity).
  rewrite forallb_forall in Hall.
  specialize (Hall (Z.to_nat (n + 1000))).
  replace (Z.of_nat (Z.to_nat (n + 1000)) - 1000) with n in Hall by lia.
  apply Hall. apply in_seq. lia.
Qed.

Lemma object_text_not_empty (props : list (string * js_value)) :
  String.eqb (JSON.SerializeJSONObject props) "" = false.
Proof. reflexivity. Qed.




(** ** The sample deployment, run *)

Example null_envelope_400 :
  snd (handleHTTPRequest sample_service None (new_adapter 8080))
  = Some {| wire_status := 400; content_type := "application/json";
            body := ErrorBody "Invalid action provided: undefined" |}.
Proof. reflexivity. Qed.

Example unknown_action_400 :
  handleHTTPRequest sample_service
    (Some {| action := "order.refund"; correlation_id := JStr "c-2"; request_id := None;
             transport := JStr "http"; data := JObj []; request_id_last := false |})
    (new_adapter 8080)
  = (new_adapter 8080,
     Some {| wire_status := 400; content_type := "application/json";
             body := ErrorBody "Invalid action provided: order.refund" |}).
Proof. vm_compute. reflexivity. Qed.

Example unbound_handler_500 :
  handleHTTPRequest sample_service
    (Some {| action := "order.cancel"; correlation_id := JStr "c-3"; request_id := None;
             transport := JStr "http"; data := JObj []; request_id_last := false |})
    (new_adapter 8080)
  = (new_adapter 8080,
     Some {| wire_status := 500; content_type := "application/json";
             body := ErrorBody "Handler not defined for action: order.cancel" |}).
Proof. vm_compute. reflexivity. Qed.

(** A logical status of 400 travels under wire status 200. *)
Example failed_validation_reply :
  ex_res <$> exchanges sample_failed !! 0%nat
  = Some [{| wire_status := 200; content_type := "application/json";
             body := EnvelopeBody
                       {| res_action := "order.create"; res_correlation_id := JStr "c-1";
                          res_request_id := None; res_data := JObj [];
                          error := "sku is required, qty must be positive";
                          status := 400 |} |}].
Proof. vm_compute. reflexivity. Qed.

(** An injection after the timer has fired finds the key still there, runs
    the resolver to no effect and deletes the key. *)
Example late_injection_after_timeout :
  match run sample_service [Elapse 30000; TimerFires 0] sample_dispatched with
  | Some a =>
      is_Some (pendingResponses a !! "r-1") /\
      pendingResponses (sendResponse sample_response a) !! "r-1" = None /\
      exchanges (sendResponse sample_response a) = exchanges a
  | None => False
  end.
Proof.
  vm_compute. split; [by eexists |]. split; reflexivity.
Qed.

(** A handler that returns normally settles nothing: the call waits for an
    injection or for its timer. *)
Example handler_fulfilment_settles_nothing :
  match run sample_service [HandlerFulfils 0] sample_dispatched with
  | Some a =>
      (ex_promise <$> exchanges a !! 0%nat) = Some None /\
      (ex_timer <$> exchanges a !! 0%nat) = Some (Armed 30000) /\
      is_Some (pendingResponses a !! "r-1")
  | None => False
  end.
Proof.
  vm_compute. split; [reflexivity |]. split; [reflexivity | by eexists].
Qed.

Example listener_ignores_other_requests :
  listener sample_service "GET" "/http-transport" [] (new_adapter 8080) = Ignored /\
  listener sample_service "POST" "/health" [] (new_adapter 8080) = Ignored.
Proof. split; reflexivity. Qed.

Example listener_empty_body_400 :
  listener sample_service "POST" "/http-transport" [] (new_adapter 8080)
  = Handled (new_adapter 8080)
      (Some {| wire_status := 400; content_type := "application/json";
               body := ErrorBody "Invalid action provided: undefined" |}).
Proof. reflexivity. Qed.

(** A body that is a number, or an array, has no [action]. *)
Example listener_number_body_400 :
  listener sample_service "POST" "/http-transport" ["1"; ".5"] (new_adapter 8080)
  = Handled (new_adapter 8080)
      (Some {| wire_status := 400; content_type := "application/json";
               body := ErrorBody "Invalid action provided: undefined" |}) /\
  listener sample_service "POST" "/http-transport" ["[1,2]"] (new_adapter 8080)
  = Handled (new_adapter 8080)
      (Some {| wire_status := 400; content_type := "application/json";
               body := ErrorBody "Invalid action provided: undefined" |}).
Proof. split; vm_compute; reflexivity. Qed.

(** A body with an action and a [request_id] and nothing else is
    dispatched, and so is one whose payload has a fraction in it. *)
Example listener_dispatches_bare_envelope :
  listener sample_service "POST" "/http-transport"
    [JSON.SerializeJSONObject [("action", JStr "order.create"); ("request_id", JStr "r-7")]]
    (new_adapter 8080)
  = Handled (executeActionHandler (Handler 0)
               {| action := "order.create"; correlation_id := JUndefined;
                  request_id := Some "r-7"; transport := JUndefined; data := JUndefined;
                  request_id_last := true |} (new_adapter 8080)) None /\
  listener sample_service "POST" "/http-transport"
    [JSON.SerializeJSONObject (request_props sample_priced)] (new_adapter 8080)
  = Handled (executeActionHandler (Handler 0) sample_priced (new_adapter 8080)) None.
Proof. split; vm_compute; reflexivity. Qed.

(** A body that ends early is no JSON text: [JSON.parse] throws in the
    callback and nothing is written. *)
Example listener_truncated_body :
  listener sample_service "POST" "/http-transport" ["{"] (new_adapter 8080) = ParseFails.
Proof. reflexivity. Qed.

Example init_without_actions :
  init {| getReceivableActions :=
            {| own_properties := ∅; inherited_properties := Object_prototype |};
          getSendableActions := ["order.create"] |}
       None (new_adapter 0)
  = (new_adapter 0, None).
Proof. reflexivity. Qed.

Example init_without_port :
  init sample_service None (new_adapter 0)
  = (new_adapter 0,
     Some (InternalServerError
             "HTTP transport needs a port in order to consume (receive) actions")).
Proof. vm_compute. reflexivity. Qed.

Example init_binds_port :
  init sample_service None (new_adapter 8080)
  = (set_server (Some (Listening 8080)) (new_adapter 8080), None).
Proof. vm_compute. reflexivity. Qed.

Example init_port_in_use :
  init sample_service (Some (Error "listen EADDRINUSE: address already in use :::8080"))
       (new_adapter 8080)
  = (set_server (Some Created) (new_adapter 8080),
     Some (Error "listen EADDRINUSE: address already in use :::8080")).
Proof. vm_compute. reflexivity. Qed.

Example init_port_not_a_port :
  init sample_service None (new_adapter 65536)
  = (set_server (Some Created) (new_adapter 65536),
     Some (ERR_SOCKET_BAD_PORT "options.port" (JNum 65536))) /\
  init sample_service None (new_adapter (-1))
  = (set_server (Some Created) (new_adapter (-1)),
     Some (ERR_SOCKET_BAD_PORT "options.port" (JNum (-1)))) /\
  init sample_service None (new_adapter S754_nan)
  = (new_adapter S754_nan,
     Some (InternalServerError
             "HTTP transport needs a port in order to consume (receive) actions")).
Proof. repeat split; vm_compute; reflexivity. Qed.

Example send_to_port_zero :
  snd (send "3f2c9a4e-0001" sample_service sample_request
         (<["host" := JStr "10.0.0.7"]> (<["port" := JNum 0]> ∅)) None)
  = Throws (BadRequestError "Host and/or port missing in transport options").
Proof. vm_compute. reflexivity. Qed.

(** A negative timeout passes both checks of [send]; [req.setTimeout] then
    throws and nothing is written. *)
Example send_negative_timeout :
  snd (send "3f2c9a4e-0001" sample_service sample_request
         (<["host" := JStr "10.0.0.7"]> (<["port" := JNum 8080]> ∅)) (Some (-5)))
  = Throws (ERR_OUT_OF_RANGE "msecs" "a non-negative finite number" (-5)).
Proof. vm_compute. reflexivity. Qed.

(** A port that is truthy and no port number passes the checks of [send]
    as well; [http.request] throws.  A port given as a string of digits is
    taken. *)
Example send_to_port_out_of_range :
  (snd (send "3f2c9a4e-0001" sample_service sample_request
          (<["host" := JStr "10.0.0.7"]> (<["port" := JNum 70000]> ∅)) None)
   = Throws (ERR_SOCKET_BAD_PORT "Port" (JNum 70000))) /\
  (snd (send "3f2c9a4e-0001" sample_service sample_request
          (<["host" := JStr "10.0.0.7"]> (<["port" := JNum (S754_infinity false)]> ∅)) None)
   = Throws (ERR_SOCKET_BAD_PORT "Port" (JNum (S754_infinity false)))) /\
  (snd (send "3f2c9a4e-0001" sample_service sample_request
          (<["host" := JStr "10.0.0.7"]> (<["port" := JStr "8080"]> ∅)) None)
   = Returns (sendHTTPRequest sample_request
                (<["host" := JStr "10.0.0.7"]> (<["port" := JStr "8080"]> ∅)) None)) /\
  (message (ERR_SOCKET_BAD_PORT "Port" (JNum 70000))
   = "Port should be >= 0 and < 65536. Received type number (70000).").
Proof. repeat split; vm_compute; reflexivity. Qed.

(** The identifier [send] generates becomes the last property of the
    envelope, and of the body written. *)
Example generated_request_id_is_last :
  match snd (send "3f2c9a4e-0001" sample_service
               {| action := "order.create"; correlation_id := JStr "c-4";
                  request_id := None; transport := JStr "http"; data := JObj [];
                  request_id_last := false |}
               (<["host" := JStr "10.0.0.7"]> (<["port" := JNum 8080]> ∅)) None) with
  | Returns rq =>
      req_body rq
      = JSON.SerializeJSONObject
          [("action", JStr "order.create"); ("correlation_id", JStr "c-4");
           ("transport", JStr "http"); ("data", JObj []);
           ("request_id", JStr "3f2c9a4e-0001")]
  | Throws _ => False
  end.
Proof. vm_compute. reflexivity. Qed.

Example objects_as_parsed :
  (JSON.stringify (JObj [("b", JNum 1); ("a", JArr [JNull; JBool true])])
     ≫= JSON.parse)
  = Some (JObj [("b", JNum 1); ("a", JArr [JNull; JBool true])]) /\
  JSON.CreateDataProperty "2" JNull [("10", JNull); ("b", JNull)]
  = [("2", JNull); ("10", JNull); ("b", JNull)].
Proof. split; vm_compute; reflexivity. Qed.

(** Numbers as [JSON.parse] reads them and [Number::toString] writes
    them: fractions and exponents, rounding beyond 2^53, the largest and
    the smallest number, overflow to infinity. *)
Example numbers_as_parsed :
  JSON.parse "1.5" = Some (JNum (S754_finite false 6755399441055744 (-52))) /\
  (JSON.parse "0.1" ≫= JSON.stringify) = Some "0.1" /\
  (JSON.parse "9007199254740993" ≫= JSON.stringify) = Some "9007199254740992" /\
  (JSON.parse "1E21" ≫= JSON.stringify) = Some "1e+21" /\
  (JSON.parse "123456789012345680000" ≫= JSON.stringify) = Some "123456789012345680000" /\
  (JSON.parse "0.0000001" ≫= JSON.stringify) = Some "1e-7" /\
  (JSON.parse "-2.50e-3" ≫= JSON.stringify) = Some "-0.0025" /\
  (JSON.parse "5e-324" ≫= JSON.stringify) = Some "5e-324" /\
  (JSON.parse "1.7976931348623157e308" ≫= JSON.stringify) = Some "1.7976931348623157e+308" /\
  JSON.parse "1e309" = Some (JNum (S754_infinity false)) /\
  JSON.parse "-0" = Some (JNum (S754_zero true)) /\
  JSON.parse "01" = None /\ JSON.parse "1." = None /\ JSON.parse ".5" = None /\
  JSON.parse "1e" = None /\ JSON.parse "+1" = None.
Proof. repeat split; vm_compute; reflexivity. Qed.

(** What is not read back: NaN, the infinities and negative zero. *)
Example numbers_read_back :
  JSON.reads_back sample_price = true /\
  JSON.reads_back (S754_finite false 6755399441055744 (-52)) = true /\
  JSON.reads_back 9007199254740992 = true /\
  JSON.reads_back (-17) = true /\ JSON.reads_back 0 = true /\
  JSON.reads_back S754_nan = false /\
  JSON.reads_back (S754_infinity false) = false /\
  JSON.reads_back (S754_infinity true) = false /\
  JSON.reads_back (S754_zero true) = false.
Proof. repeat split; vm_compute; reflexivity. Qed.

(** Escapes of the whole range are read, a pair of surrogate escapes as the
    one character it stands for; an unpaired surrogate is written as an
    escape. *)
Example strings_as_parsed :
  JSON.parse (String JSON.dquote ("\u00e9\u20AC" +:+ JSON.quote_s))
  = Some (JStr (String "195" (String "169" (String "226" (String "130" (String "172" "")))))) /\
  JSON.parse (String JSON.dquote ("\ud83d\uDE00" +:+ JSON.quote_s))
  = Some (JStr (String "240" (String "159" (String "152" (String "128" ""))))) /\
  (JSON.parse (String JSON.dquote ("\ud83d" +:+ JSON.quote_s)) ≫= JSON.stringify)
  = Some (String JSON.dquote ("\ud83d" +:+ JSON.quote_s)).
Proof. repeat split; vm_compute; reflexivity. Qed.

(** Every object literal inherits the keys of [Object.prototype]. *)
Example inherited_keys :
  getReceivableActions sample_service !! "toString" = Some (Some (Inherited "toString")) /\
  getReceivableActions sample_service !! "order.create" = Some (Some (Handler 0)) /\
  getReceivableActions sample_service !! "order.cancel" = Some None /\
  getReceivableActions sample_service !! "order.refund" = None.
Proof. repeat split; vm_compute; reflexivity. Qed.
(** ** Further properties of the dispatcher and the registry *)

Section History.

Variable ts : TransportService.
Implicit Types (x : exchange) (l : list exchange) (a : adapter) (ev : event).

Lemma step_effect_of ev a a' :
  registry_ok a -> step ts ev a = Some a' -> step_effect ts a a' ev.
Proof.
  intros Hreg Hstep.
  destruct ev as [d | msg | e err | e | ms | e]; simpl in Hstep.
  - injection Hstep as <-. unfold handleHTTPRequest.
    pose proof (find_handler_cases ts d) as Hc.
    destruct (find_handler ts d) as [[h r] | err] eqn:Hf; simpl.
    + destruct Hc as [-> Hh]. by eapply effect_dispatched.
    + eapply effect_rejected; [| done]. unfold handleHTTPRequest. by rewrite Hf.
  - injection Hstep as <-. unfold sendResponse.
    destruct (truthy_id (res_request_id msg)) as [id|] eqn:Hid.
    + destruct (pendingResponses a !! id) as [R|] eqn:HR.
      * destruct (Hreg id R HR) as (e & x & -> & Hx & Hxid).
        by eapply effect_injected.
      * apply effect_dropped; [by rewrite Hid | done].
    + apply effect_dropped; [by rewrite Hid | done].
  - destruct (exchanges a !! e) as [x|] eqn:Hx; [| done].
    destruct (ex_running x) eqn:Hr; [| done]. injection Hstep as <-.
    rewrite (handler_catch_eq e err a x Hx). by eapply effect_failed.
  - destruct (exchanges a !! e) as [x|] eqn:Hx; [| done].
    destruct (ex_running x) eqn:Hr; [| done]. injection Hstep as <-.
    by eapply effect_fulfilled.
  - destruct (Z.leb_spec 0 ms); [| done]. injection Hstep as <-.
    by apply effect_elapsed.
  - destruct (exchanges a !! e) as [x|] eqn:Hx; [| done].
    destruct (ex_timer x) as [d| |] eqn:Ht; [| done | done].
    destruct (Z.leb_spec d (clock a)); [| done]. injection Hstep as <-.
    by eapply effect_timed_out.
Qed.

Lemma ex_sound_fields x x' :
  ex_data x' = ex_data x -> ex_handler x' = ex_handler x ->
  ex_promise x' = ex_promise x -> ex_timer x' = ex_timer x ->
  ex_sound ts x -> ex_sound ts x'.
Proof.
  intros Hd Hh Hp Ht. unfold ex_sound, timeout_error. by rewrite Hd, Hh, Hp, Ht.
Qed.

Lemma ex_sound_settled x x' s :
  ex_promise x = Some s -> evolves x x' -> ex_sound ts x -> ex_sound ts x'.
Proof.
  intros Hs (Hd & Hh & Hkeep & _). destruct (Hkeep s Hs) as (Hp & _ & Ht).
  apply ex_sound_fields; congruence.
Qed.

Lemma on_resolve_sound msg x id :
  ex_ok x -> ex_sound ts x ->
  truthy_id (request_id (ex_data x)) = Some id ->
  truthy_id (res_request_id msg) = Some id ->
  ex_sound ts (on_resolve msg x).
Proof.
  intros Hok Hsound Hx Hm. destruct (ex_promise x) as [s|] eqn:Hp.
  - eapply ex_sound_settled; [done | by apply on_resolve_ok | done].
  - destruct Hsound as [Hb _]. unfold ex_ok in Hok. rewrite Hp in Hok.
    destruct Hok as [[d Ht] _].
    unfold ex_sound, on_resolve, settle, set_timer. simpl. rewrite Hp. simpl.
    rewrite Ht. simpl. split; [done |]. split; [done | by exists id].
Qed.

Lemma on_catch_sound err x : ex_ok x -> ex_sound ts x -> ex_sound ts (on_catch err x).
Proof.
  intros Hok Hsound. destruct (ex_promise x) as [s|] eqn:Hp.
  - eapply ex_sound_settled; [done | by apply on_catch_evolves | done].
  - destruct (on_catch_ok err x Hok) as (_ & _ & Hn).
    destruct (Hn Hp) as (Hp1 & Ht1 & _ & Hd1 & Hh1). destruct Hsound as [Hb _].
    unfold ex_sound. rewrite Hp1, Ht1, Hd1, Hh1. split; [done | intros [=]].
Qed.

Lemma on_timeout_sound x d :
  ex_ok x -> ex_timer x = Armed d -> ex_sound ts x -> ex_sound ts (on_timeout x).
Proof.
  intros Hok Ht [Hb _].
  destruct (on_timeout_ok x d Hok Ht) as (_ & _ & (Hd & Hh & _) & Hp1 & _).
  unfold ex_sound. rewrite Hp1, Hd, Hh. split; [done |].
  intros _. unfold timeout_error. by rewrite Hd.
Qed.

Lemma alter_history (f : exchange -> exchange) e l :
  (forall x, l !! e = Some x -> ex_sound ts x -> ex_sound ts (f x)) ->
  (forall i x, l !! i = Some x -> ex_sound ts x) ->
  forall i x, alter f e l !! i = Some x -> ex_sound ts x.
Proof.
  intros Hf Hl i x. rewrite list_lookup_alter. case_decide as Hie.
  - subst i. destruct (l !! e) as [y|] eqn:Hy; simpl; [| done].
    intros [= <-]. apply Hf; [done | by eapply Hl].
  - apply Hl.
Qed.

Lemma step_history ev a a' :
  adapter_ok a -> history_ok ts a -> step ts ev a = Some a' -> history_ok ts a'.
Proof.
  intros [Hreg Hex] Hh Hstep.
  destruct (step_effect_of ev a a' Hreg Hstep)
    as [d w _ -> | d h Hb -> | msg id e x Hid HR Hx Hxid -> | msg _ ->
        | e err x Hx Hr -> | e x Hx Hr -> | ms _ -> | e x d Hx Ht _ ->]; try done.
  - intros i y. unfold executeActionHandler.
    assert (Hsnoc : forall l' : list exchange,
              l' = exchanges a ++
                   [{| ex_handler := h; ex_data := d; ex_timer := Armed (clock a + 30000);
                       ex_promise := None; ex_running := true; ex_res := [] |}] ->
              l' !! i = Some y -> ex_sound ts y).
    { intros l' ->. rewrite lookup_snoc_Some. intros [[_ Hy] | [_ <-]]; [by eapply Hh |].
      split; [done | done]. }
    destruct (truthy_id (request_id d)); simpl; by apply Hsnoc.
  - unfold history_ok. simpl. intros i y. apply alter_history; [| done]. intros z Hy Hs.
    rewrite Hx in Hy. injection Hy as <-.
    eapply on_resolve_sound; [by eapply Hex | done | done | done].
  - unfold history_ok. simpl. intros i y. apply alter_history; [| done]. intros z Hy Hs.
    apply on_catch_sound; [by eapply Hex | done].
  - unfold history_ok. simpl. intros i y. apply alter_history; [| done]. intros z Hy Hs.
    eapply ex_sound_fields; [| | | | exact Hs]; done.
  - unfold history_ok. simpl. intros i y. apply alter_history; [| done]. intros z Hy Hs.
    rewrite Hx in Hy. injection Hy as <-.
    eapply on_timeout_sound; [by eapply Hex | done | done].
Qed.

Lemma run_history evs a a' :
  adapter_ok a -> history_ok ts a -> run ts evs a = Some a' -> history_ok ts a'.
Proof.
  revert a. induction evs as [| ev evs IH]; intros a Hok Hh Hrun; simpl in Hrun.
  - by injection Hrun as <-.
  - destruct (step ts ev a) as [a1|] eqn:Hstep; [| done].
    apply (IH a1); [by eapply step_ok | by eapply step_history | done].
Qed.

Lemma reachable_history a : reachable ts a -> history_ok ts a.
Proof.
  intros (p & evs & Hrun). eapply run_history; [apply new_adapter_ok | | done].
  intros e x H. simpl in H. by rewrite lookup_nil in H.
Qed.

End History.

Lemma sendResponse_reachable (ts : TransportService) (a : adapter)
    (msg : CorrelatedResponseDTO) :
  registry_ok a ->
  sendResponse msg a = a \/
  exists id e x,
    truthy_id (res_request_id msg) = Some id /\
    pendingResponses a !! id = Some (resolver_of e) /\
    exchanges a !! e = Some x /\
    truthy_id (request_id (ex_data x)) = Some id /\
    sendResponse msg a =
    set_pendingResponses (delete id (pendingResponses a))
      (set_exchanges (alter (on_resolve msg) e (exchanges a)) a).
Proof.
  intros Hreg. unfold sendResponse.
  destruct (truthy_id (res_request_id msg)) as [id|] eqn:Hid; [| by left].
  destruct (pendingResponses a !! id) as [R|] eqn:HR; [| by left].
  destruct (Hreg id R HR) as (e & x & -> & Hx & Hxid).
  right. by exists id, e, x.
Qed.

(** X1: an injection either changes nothing, or it changes the one call
    whose resolver is stored under the envelope's [request_id] and removes
    that one key: every other call, every other key, the clock, the port and
    the server are as before. *)
Theorem injection_touches_one_call (ts : TransportService) (a : adapter)
    (msg : CorrelatedResponseDTO) :
  reachable ts a ->
  sendResponse msg a = a \/
  exists id e x,
    res_request_id msg = Some id /\
    pendingResponses a !! id = Some (resolver_of e) /\
    exchanges a !! e = Some x /\ request_id (ex_data x) = Some id /\
    (forall i, i <> e -> exchanges (sendResponse msg a) !! i = exchanges a !! i) /\
    (forall i y, exchanges a !! i = Some y -> request_id (ex_data y) <> Some id ->
       exchanges (sendResponse msg a) !! i = Some y) /\
    (forall k, k <> id ->
       pendingResponses (sendResponse msg a) !! k = pendingResponses a !! k) /\
    length (exchanges (sendResponse msg a)) = length (exchanges a) /\
    clock (sendResponse msg a) = clock a /\ server (sendResponse msg a) = server a /\
    port (sendResponse msg a) = port a.
Proof.
  intros Hreach. destruct (reachable_ok ts a Hreach) as [Hreg _].
  destruct (sendResponse_reachable ts a msg Hreg)
    as [Hsame | (id & e & x & Hid & HR & Hx & Hxid & ->)]; [by left |].
  right. exists id, e, x.
  apply truthy_id_Some in Hid as [Hid _]. apply truthy_id_Some in Hxid as [Hxid _].
  split; [done |]. split; [done |]. split; [done |]. split; [done |]. simpl.
  split; [intros i Hi; by apply list_lookup_alter_ne |].
  split.
  { intros i y Hy Hne. rewrite list_lookup_alter_ne; [done |].
    intros <-. rewrite Hx in Hy. injection Hy as <-. done. }
  split; [intros k Hk; by apply lookup_delete_ne |].
  split; [apply length_alter | done].
Qed.

Lemma injection_touches_one_call_witness :
  reachable sample_service sample_dispatched /\
  (sendResponse sample_response sample_dispatched = sample_dispatched \/
   exists id e, res_request_id sample_response = Some id /\
                pendingResponses sample_dispatched !! id = Some (resolver_of e)).
Proof.
  assert (H0 : reachable sample_service sample_dispatched)
    by (exists 8080, [Request (Some sample_request)]; vm_compute; reflexivity).
  split; [exact H0 |].
  destruct (injection_touches_one_call sample_service sample_dispatched sample_response H0)
    as [Hs | (id & e & x & H1 & H2 & _)].
  - left. exact Hs.
  - right. exists id, e. split; [exact H1 | exact H2].
Defined.

(** X2: injections for two different request ids commute: whichever is
    delivered first, the adapter ends in the same state. *)
Theorem injections_commute (ts : TransportService) (a : adapter)
    (msg1 msg2 : CorrelatedResponseDTO) :
  reachable ts a ->
  truthy_id (res_request_id msg1) <> truthy_id (res_request_id msg2) ->
  sendResponse msg1 (sendResponse msg2 a) = sendResponse msg2 (sendResponse msg1 a).
Proof.
  intros Hreach Hne. destruct (reachable_ok ts a Hreach) as [Hreg _].
  assert (Hnoop : forall msg b, truthy_id (res_request_id msg) = None ->
                                sendResponse msg b = b).
  { intros msg b H. apply sendResponse_unregistered. by rewrite H. }
  assert (Hmiss : forall msg id b, truthy_id (res_request_id msg) = Some id ->
                    pendingResponses b !! id = None -> sendResponse msg b = b).
  { intros msg id b H Hb. apply sendResponse_unregistered. by rewrite H. }
  destruct (truthy_id (res_request_id msg1)) as [id1|] eqn:H1;
    [| by rewrite !(Hnoop msg1)].
  destruct (truthy_id (res_request_id msg2)) as [id2|] eqn:H2;
    [| by rewrite !(Hnoop msg2)].
  assert (Hids : id1 <> id2) by congruence.
  assert (Hids' : id2 <> id1) by congruence.
  destruct (pendingResponses a !! id1) as [R1|] eqn:HR1,
           (pendingResponses a !! id2) as [R2|] eqn:HR2.
  - destruct (Hreg id1 R1 HR1) as (e1 & x1 & -> & Hx1 & Hxid1).
    destruct (Hreg id2 R2 HR2) as (e2 & x2 & -> & Hx2 & Hxid2).
    assert (He : e1 <> e2).
    { intros <-. rewrite Hx1 in Hx2. injection Hx2 as <-. congruence. }
    rewrite (sendResponse_registered msg2 a id2 _ H2 HR2).
    rewrite (sendResponse_registered msg1 a id1 _ H1 HR1).
    rewrite (sendResponse_registered msg1 _ id1 (resolver_of e1) H1)
      by (simpl; by rewrite lookup_delete_ne).
    rewrite (sendResponse_registered msg2 _ id2 (resolver_of e2) H2)
      by (simpl; by rewrite lookup_delete_ne).
    unfold set_pendingResponses, set_exchanges, resolver_of. simpl.
    rewrite (delete_delete (pendingResponses a) id1 id2).
    by rewrite list_alter_alter_ne.
  - rewrite (Hmiss msg2 id2 a H2 HR2).
    rewrite (sendResponse_registered msg1 a id1 _ H1 HR1).
    rewrite (Hmiss msg2 id2 _ H2); [done |].
    simpl. by rewrite lookup_delete_ne.
  - rewrite (Hmiss msg1 id1 a H1 HR1).
    rewrite (sendResponse_registered msg2 a id2 _ H2 HR2).
    rewrite (Hmiss msg1 id1 _ H1); [done |].
    simpl. by rewrite lookup_delete_ne.
  - by rewrite (Hmiss msg1 id1 a H1 HR1), (Hmiss msg2 id2 a H2 HR2),
               (Hmiss msg1 id1 a H1 HR1).
Qed.

Lemma injections_commute_witness :
  reachable sample_service sample_dispatched /\
  truthy_id (res_request_id sample_response)
    <> truthy_id (res_request_id
                    {| res_action := "order.create"; res_correlation_id := JStr "c-9";
                       res_request_id := Some "r-9"; res_data := JObj [];
                       error := ""; status := 200 |}) /\
  sendResponse sample_response
    (sendResponse {| res_action := "order.create"; res_correlation_id := JStr "c-9";
                     res_request_id := Some "r-9"; res_data := JObj [];
                     error := ""; status := 200 |} sample_dispatched)
  = sendResponse {| res_action := "order.create"; res_correlation_id := JStr "c-9";
                    res_request_id := Some "r-9"; res_data := JObj [];
                    error := ""; status := 200 |}
      (sendResponse sample_response sample_dispatched).
Proof.
  assert (H0 : reachable sample_service sample_dispatched)
    by (exists 8080, [Request (Some sample_request)]; vm_compute; reflexivity).
  assert (H1 : truthy_id (res_request_id sample_response)
               <> truthy_id (res_request_id
                    {| res_action := "order.create"; res_correlation_id := JStr "c-9";
                       res_request_id := Some "r-9"; res_data := JObj [];
                       error := ""; status := 200 |}))
    by (vm_compute; discriminate).
  split; [exact H0 |]. split; [exact H1 |].
  exact (injections_commute sample_service sample_dispatched sample_response _ H0 H1).
Defined.

Lemma alter_fixed (f : exchange -> exchange) (e : nat) (l : list exchange) :
  (forall x, l !! e = Some x -> f x = x) -> alter f e l = l.
Proof.
  intros Hf. apply list_eq. intros i. rewrite list_lookup_alter.
  case_decide as Hie; [| done]. subst i.
  destruct (l !! e) as [x|] eqn:Hx; simpl; [| done]. by rewrite Hf.
Qed.

Lemma on_resolve_settled msg x s :
  ex_ok x -> ex_promise x = Some s -> on_resolve msg x = x.
Proof.
  intros Hok Hs. unfold ex_ok in Hok. rewrite Hs in Hok. destruct Hok as [Ht _].
  unfold on_resolve. rewrite (clearTimeout_unarmed _ Ht), set_timer_same.
  by apply (settle_settled _ s).
Qed.

(** X3: an injection that arrives for a call that is already settled (its
    timer has fired, its key is still registered) runs the stored resolver to
    no effect: no call changes, the reply already written stays the only one,
    and the key is deleted. *)
Theorem late_injection_is_absorbed (ts : TransportService) (a : adapter) (id : string)
    (e : nat) (x : exchange) (s : settlement) (msg : CorrelatedResponseDTO) :
  reachable ts a ->
  pendingResponses a !! id = Some (resolver_of e) ->
  exchanges a !! e = Some x -> ex_promise x = Some s ->
  res_request_id msg = Some id ->
  exchanges (sendResponse msg a) = exchanges a /\
  pendingResponses (sendResponse msg a) = delete id (pendingResponses a) /\
  ex_res x = [respond (ex_data x) s] /\
  (forall msg', res_request_id msg' = Some id ->
     sendResponse msg' (sendResponse msg a) = sendResponse msg a).
Proof.
  intros Hreach HR Hx Hs Hmsg.
  destruct (reachable_ok ts a Hreach) as [Hreg Hex].
  destruct (Hreg id _ HR) as (e' & x' & _ & _ & Hxid).
  apply truthy_id_Some in Hxid as [_ Hne].
  assert (Hid : truthy_id (res_request_id msg) = Some id)
    by (apply truthy_id_Some; by rewrite Hmsg).
  rewrite (sendResponse_registered msg a id _ Hid HR). simpl.
  split; [| split; [done | split]].
  - unfold resolver_of. fold (on_resolve msg). apply alter_fixed.
    intros y Hy. rewrite Hx in Hy. injection Hy as <-.
    eapply on_resolve_settled; [by eapply Hex | done].
  - specialize (Hex e x Hx). unfold ex_ok in Hex. rewrite Hs in Hex. by destruct Hex.
  - intros msg' Hmsg'. apply sendResponse_unregistered.
    replace (truthy_id (res_request_id msg')) with (Some id)
      by (symmetry; apply truthy_id_Some; by rewrite Hmsg').
    simpl. apply lookup_delete_eq.
Qed.

(** X4: every call of a reachable adapter has written no reply while it is
    pending and exactly one once it is settled, the reply of its first
    settlement; it is pending exactly while its timer is armed. *)
Theorem one_reply_per_call (ts : TransportService) (a : adapter) (e : nat) (x : exchange) :
  reachable ts a -> exchanges a !! e = Some x ->
  (ex_promise x = None /\ ex_res x = [] /\ exists d, ex_timer x = Armed d) \/
  (exists s, ex_promise x = Some s /\ ex_res x = [respond (ex_data x) s] /\
             (ex_timer x = Cleared \/ ex_timer x = Fired)).
Proof.
  intros Hreach Hx. destruct (reachable_ok ts a Hreach) as [_ Hex].
  specialize (Hex e x Hx). unfold ex_ok in Hex.
  destruct (ex_promise x) as [s|].
  - right. exists s. destruct Hex as [Ht Hr]. split; [done |]. split; [done |].
    destruct (ex_timer x) as [d| |]; [by destruct (Ht d) | by left | by right].
  - left. by destruct Hex.
Qed.

(** X5: a call is only ever resolved by an envelope that carries the
    non-empty [request_id] of the call's own request, and then its timer is
    cleared and that envelope is its one reply; so a request without a
    [request_id] is never resolved by an injection. *)
Theorem resolved_by_matching_id (ts : TransportService) (a : adapter) (e : nat)
    (x : exchange) (msg : CorrelatedResponseDTO) :
  reachable ts a -> exchanges a !! e = Some x -> ex_promise x = Some (Resolved msg) ->
  exists id, id <> "" /\ request_id (ex_data x) = Some id /\
             res_request_id msg = Some id /\ ex_timer x = Cleared /\
             ex_res x = [{| wire_status := 200; content_type := "application/json";
                            body := EnvelopeBody msg |}].
Proof.
  intros Hreach Hx Hp.
  pose proof (reachable_history ts a Hreach e x Hx) as [_ Hs].
  destruct (reachable_ok ts a Hreach) as [_ Hex]. specialize (Hex e x Hx).
  unfold ex_ok in Hex. rewrite Hp in *. destruct Hs as (Ht & id & Hxid & Hmid).
  apply truthy_id_Some in Hxid as [Hxid Hne]. apply truthy_id_Some in Hmid as [Hmid _].
  exists id. destruct Hex as [_ Hr]. by rewrite Hr.
Qed.

(** X6: a call whose timer has fired has the timeout error as its outcome,
    and its one reply is the envelope with status 500 and the timeout
    message under wire status 200. *)
Theorem fired_timer_reply (ts : TransportService) (a : adapter) (e : nat) (x : exchange) :
  reachable ts a -> exchanges a !! e = Some x -> ex_timer x = Fired ->
  ex_promise x =
    Some (Rejected (InternalServerError
                      ("Timeout waiting for HTTP response on " +:+ action (ex_data x)))) /\
  ex_res x =
    [{| wire_status := 200; content_type := "application/json";
        body := EnvelopeBody
                  {| res_action := action (ex_data x);
                     res_correlation_id := correlation_id (ex_data x);
                     res_request_id := None; res_data := JObj [];
                     error := "Timeout waiting for HTTP response on "
                              +:+ action (ex_data x);
                     status := 500 |} |}].
Proof.
  intros Hreach Hx Ht.
  pose proof (reachable_history ts a Hreach e x Hx) as [_ Hs].
  destruct (reachable_ok ts a Hreach) as [_ Hex]. specialize (Hex e x Hx).
  unfold ex_ok in Hex. destruct (ex_promise x) as [[msg | err]|].
  - destruct Hs as [Hc _]. congruence.
  - pose proof (Hs Ht) as ->. destruct Hex as [_ ->]. split; reflexivity.
  - destruct Hex as [[d Hd] _]. congruence.
Qed.

Lemma late_injection_is_absorbed_witness :
  exchanges (sendResponse sample_response sample_timed_out) = exchanges sample_timed_out /\
  pendingResponses (sendResponse sample_response sample_timed_out) !! "r-1" = None.
Proof.
  assert (H0 : reachable sample_service sample_timed_out)
    by (exists 8080, [Request (Some sample_request); Elapse 30000; TimerFires 0];
        vm_compute; reflexivity).
  destruct (late_injection_is_absorbed sample_service sample_timed_out "r-1" 0
              (on_timeout (Build_exchange (Handler 0) sample_request (Armed 30000)
                             None true []))
              (Rejected (InternalServerError
                           "Timeout waiting for HTTP response on order.create"))
              sample_response H0 eq_refl eq_refl eq_refl eq_refl)
    as (H1 & H2 & _).
  split; [exact H1 |]. rewrite H2. apply lookup_delete_eq.
Defined.

Lemma one_reply_per_call_witness :
  exists x, exchanges sample_resolved !! 0%nat = Some x /\
            ex_res x = [respond sample_request (Resolved sample_response)].
Proof.
  assert (H0 : reachable sample_service sample_resolved)
    by (exists 8080, [Request (Some sample_request); SendResponse sample_response];
        vm_compute; reflexivity).
  eexists. split; [reflexivity |].
  destruct (one_reply_per_call sample_service sample_resolved 0 _ H0 eq_refl)
    as [(Hp & _) | (s & Hp & Hr & _)]; [discriminate Hp |].
  injection Hp as <-. exact Hr.
Defined.

Lemma resolved_by_matching_id_witness :
  exists id, id <> "" /\ request_id sample_request = Some id /\
             res_request_id sample_response = Some id.
Proof.
  assert (H0 : reachable sample_service sample_resolved)
    by (exists 8080, [Request (Some sample_request); SendResponse sample_response];
        vm_compute; reflexivity).
  destruct (resolved_by_matching_id sample_service sample_resolved 0 _ sample_response
              H0 eq_refl eq_refl) as (id & H1 & H2 & H3 & _).
  exists id. split; [exact H1 |]. split; [exact H2 | exact H3].
Defined.

Lemma fired_timer_reply_witness :
  exists x, exchanges sample_timed_out !! 0%nat = Some x /\
    ex_promise x =
      Some (Rejected (InternalServerError
                        ("Timeout waiting for HTTP response on " +:+ action (ex_data x)))).
Proof.
  assert (H0 : reachable sample_service sample_timed_out)
    by (exists 8080, [Request (Some sample_request); Elapse 30000; TimerFires 0];
        vm_compute; reflexivity).
  eexists. split; [reflexivity |].
  exact (proj1 (fired_timer_reply sample_service sample_timed_out 0 _ H0 eq_refl eq_refl)).
Defined.

(** X7: a pending call is settled by three events only: an injection whose
    [request_id] is the call's own and is registered to it, the failure of
    the call's handler, and the firing of the call's timer at or after its
    deadline; the outcome is the injected envelope, the handler's error and
    the timeout error respectively.  A handler that returns, another
    request, or the passing of time alone settles nothing. *)
Theorem settled_only_by (ts : TransportService) (ev : event) (a a' : adapter)
    (e : nat) (x x' : exchange) (s : settlement) :
  reachable ts a -> step ts ev a = Some a' ->
  exchanges a !! e = Some x -> ex_promise x = None ->
  exchanges a' !! e = Some x' -> ex_promise x' = Some s ->
  (exists msg id, ev = SendResponse msg /\ s = Resolved msg /\
                  res_request_id msg = Some id /\ request_id (ex_data x) = Some id /\
                  pendingResponses a !! id = Some (resolver_of e)) \/
  (exists err, ev = HandlerRejects e err /\ s = Rejected err /\ ex_running x = true) \/
  (exists d, ev = TimerFires e /\ s = Rejected (timeout_error x) /\
             ex_timer x = Armed d /\ d <= clock a).
Proof.
  intros Hreach Hstep Hx Hp Hx' Hs.
  destruct (reachable_ok ts a Hreach) as [Hreg _].
  assert (Halter : forall (f : exchange -> exchange) e0,
            exchanges a' = alter f e0 (exchanges a) ->
            (e0 = e /\ x' = f x) \/ x' = x).
  { intros f e0 He. rewrite He, list_lookup_alter in Hx'. case_decide as Hie.
    - subst e0. rewrite Hx in Hx'. simpl in Hx'. left. split; congruence.
    - right. congruence. }
  destruct (step_effect_of ts ev a a' Hreg Hstep)
    as [d w _ -> | d h Hb -> | msg id e0 x0 Hid HR Hx0 Hxid -> | msg _ ->
        | e0 err x0 Hx0 Hr -> | e0 x0 Hx0 Hr -> | ms _ -> | e0 x0 d Hx0 Ht Hd ->].
  - congruence.
  - exfalso. assert (Hl : exchanges (executeActionHandler h d a) !! e = Some x).
    { unfold executeActionHandler. destruct (truthy_id (request_id d)); simpl;
        by apply lookup_app_l_Some. }
    congruence.
  - destruct (Halter (on_resolve msg) e0 eq_refl) as [[-> ->] | ->]; [| congruence].
    left. exists msg, id. rewrite Hx in Hx0. injection Hx0 as <-.
    apply truthy_id_Some in Hid as [Hid _]. apply truthy_id_Some in Hxid as [Hxid _].
    unfold on_resolve, settle in Hs. simpl in Hs. rewrite Hp in Hs. simpl in Hs.
    split; [done |]. split; [congruence | done].
  - congruence.
  - destruct (Halter (on_catch err) e0 eq_refl) as [[-> ->] | ->]; [| congruence].
    right. left. exists err. rewrite Hx in Hx0. injection Hx0 as <-.
    unfold on_catch, settle in Hs. simpl in Hs. rewrite Hp in Hs. simpl in Hs.
    split; [done |]. split; [congruence | done].
  - destruct (Halter (set_running false) e0 eq_refl) as [[-> ->] | ->];
      simpl in Hs; congruence.
  - simpl in Hx'. congruence.
  - destruct (Halter on_timeout e0 eq_refl) as [[-> ->] | ->]; [| congruence].
    right. right. exists d. rewrite Hx in Hx0. injection Hx0 as <-.
    unfold on_timeout, settle in Hs. simpl in Hs. rewrite Hp in Hs. simpl in Hs.
    split; [done |]. split; [congruence | done].
Qed.

Lemma settled_only_by_witness :
  (exists msg id, SendResponse sample_response = SendResponse msg /\
                  Resolved sample_response = Resolved msg /\
                  res_request_id msg = Some id /\
                  request_id sample_request = Some id) \/
  (exists err, SendResponse sample_response = HandlerRejects 0 err) \/
  SendResponse sample_response = TimerFires 0.
Proof.
  assert (H0 : reachable sample_service sample_dispatched)
    by (exists 8080, [Request (Some sample_request)]; vm_compute; reflexivity).
  destruct (settled_only_by sample_service (SendResponse sample_response)
              sample_dispatched sample_resolved 0 _ _ (Resolved sample_response)
              H0 eq_refl eq_refl eq_refl eq_refl eq_refl)
    as [(msg & id & H1 & H2 & H3 & H4 & _) | [(err & H1 & _) | (d & H1 & _)]].
  - left. exists msg, id. repeat split; assumption.
  - right. left. exists err. exact H1.
  - right. right. exact H1.
Defined.

(** X8: a request that carries the [request_id] of a call still in flight
    takes the registration over: the key then leads to the new call, the
    next injection for it resolves the new call and leaves every earlier
    call as it was, the one that registered the key first included. *)
Theorem duplicate_id_takes_over (ts : TransportService) (a : adapter)
    (d : CorrelatedRequestDTO) (h : handler) (id : string) (msg : CorrelatedResponseDTO) :
  getReceivableActions ts !! action d = Some (Some h) ->
  request_id d = Some id -> id <> "" -> res_request_id msg = Some id ->
  pendingResponses (fst (handleHTTPRequest ts (Some d) a)) !! id
    = Some (resolver_of (length (exchanges a))) /\
  (forall i x, exchanges a !! i = Some x ->
     exchanges (sendResponse msg (fst (handleHTTPRequest ts (Some d) a))) !! i = Some x) /\
  (exists x', exchanges (sendResponse msg (fst (handleHTTPRequest ts (Some d) a)))
                !! length (exchanges a) = Some x' /\
              ex_data x' = d /\ ex_promise x' = Some (Resolved msg) /\
              ex_timer x' = Cleared) /\
  pendingResponses (sendResponse msg (fst (handleHTTPRequest ts (Some d) a))) !! id = None.
Proof.
  intros Hb Hd Hne Hmsg.
  assert (Hdid : truthy_id (request_id d) = Some id) by (by apply truthy_id_Some).
  assert (Hmid : truthy_id (res_request_id msg) = Some id)
    by (apply truthy_id_Some; by rewrite Hmsg).
  unfold handleHTTPRequest, find_handler. rewrite Hb. cbn [fst].
  unfold executeActionHandler. rewrite Hdid.
  set (x := {| ex_handler := h; ex_data := d; ex_timer := Armed (clock a + 30000);
               ex_promise := None; ex_running := true; ex_res := [] |}).
  set (a1 := set_pendingResponses _ _).
  assert (HR : pendingResponses a1 !! id = Some (resolver_of (length (exchanges a))))
    by (subst a1; simpl; apply lookup_insert_eq).
  split; [exact HR |].
  rewrite (sendResponse_registered msg a1 id _ Hmid HR). simpl.
  unfold resolver_of. split; [| split].
  - intros i y Hy. rewrite list_lookup_alter_ne.
    + by apply lookup_app_l_Some.
    + apply lookup_lt_Some in Hy. lia.
  - rewrite list_lookup_alter, decide_True by done.
    rewrite lookup_app_r, Nat.sub_diag by done. simpl.
    eexists. split; [reflexivity |]. by subst x.
  - apply lookup_delete_eq.
Qed.

Lemma duplicate_id_takes_over_witness :
  pendingResponses sample_duplicate !! "r-1" = Some (resolver_of 1) /\
  exchanges (sendResponse sample_response sample_duplicate) !! 0%nat
    = exchanges sample_dispatched !! 0%nat.
Proof.
  assert (Hne : "r-1" <> "") by discriminate.
  destruct (duplicate_id_takes_over sample_service sample_dispatched
              (set_data JNull sample_request) (Handler 0) "r-1" sample_response
              eq_refl eq_refl Hne eq_refl) as (H1 & H2 & _).
  split; [exact H1 |]. exact (H2 0%nat _ eq_refl).
Defined.

(** X9: the failure of a handler deletes the key of its request whichever
    call registered it.  When another call with the same [request_id] is
    is in flight, that call is left as it was, but no injection reaches it
    any more: every envelope for the key is dropped. *)
Theorem failure_orphans_sibling (ts : TransportService) (a : adapter) (e e' : nat)
    (x y : exchange) (err : thrown) (id : string) :
  exchanges a !! e = Some x -> ex_running x = true ->
  request_id (ex_data x) = Some id -> id <> "" ->
  e' <> e -> exchanges a !! e' = Some y -> request_id (ex_data y) = Some id ->
  exists a', step ts (HandlerRejects e err) a = Some a' /\
    exchanges a' !! e' = Some y /\
    forall msg, res_request_id msg = Some id ->
      sendResponse msg a' = a' /\ exchanges (sendResponse msg a') !! e' = Some y.
Proof.
  intros Hx Hr Hid Hne Hee Hy Hyid.
  assert (Hxid : truthy_id (request_id (ex_data x)) = Some id) by (by apply truthy_id_Some).
  simpl. rewrite Hx, Hr. eexists. split; [reflexivity |].
  rewrite (handler_catch_eq e err a x Hx), Hxid.
  assert (Hy' : alter (on_catch err) e (exchanges a) !! e' = Some y)
    by (rewrite list_lookup_alter_ne by done; exact Hy).
  split; [exact Hy' |]. intros msg Hmsg.
  assert (Hsame : forall b : adapter, pendingResponses b !! id = None -> sendResponse msg b = b).
  { intros b Hb. apply sendResponse_unregistered.
    replace (truthy_id (res_request_id msg)) with (Some id)
      by (symmetry; apply truthy_id_Some; by rewrite Hmsg).
    exact Hb. }
  rewrite Hsame by (simpl; apply lookup_delete_eq). split; [reflexivity | exact Hy'].
Qed.

Lemma failure_orphans_sibling_witness :
  exists a', step sample_service (HandlerRejects 0 (Error "boom")) sample_duplicate = Some a' /\
             sendResponse sample_response a' = a'.
Proof.
  assert (Hne : "r-1" <> "") by discriminate.
  assert (H01 : 1%nat <> 0%nat) by discriminate.
  destruct (failure_orphans_sibling sample_service sample_duplicate 0 1 _ _
              (Error "boom") "r-1" eq_refl eq_refl eq_refl Hne H01 eq_refl eq_refl)
    as (a' & H1 & _ & H2).
  exists a'. split; [exact H1 |]. exact (proj1 (H2 sample_response eq_refl)).
Defined.


Lemma step_calls (ts : TransportService) ev a a' :
  registry_ok a -> step ts ev a = Some a' ->
  length (exchanges a') =
  (length (exchanges a) + if accepted ts ev then 1 else 0)%nat.
Proof.
  intros Hreg Hstep.
  destruct (step_effect_of ts ev a a' Hreg Hstep)
    as [d w Hw -> | d h Hb -> | msg id e0 x0 Hid HR Hx0 Hxid -> | msg _ ->
        | e0 err x0 Hx0 Hr -> | e0 x0 Hx0 Hr -> | ms _ -> | e0 x0 d Hx0 Ht Hd ->];
    simpl; rewrite ?length_alter; try lia.
  - destruct d as [d|]; [| lia]. unfold handleHTTPRequest, find_handler in Hw.
    destruct (getReceivableActions ts !! action d) as [[h|]|]; [done | lia | lia].
  - rewrite Hb. unfold executeActionHandler.
    destruct (truthy_id (request_id d)); simpl; rewrite length_app; simpl; lia.
Qed.

(** X10: over any run from a reachable adapter, the number of calls started
    (handlers invoked) grows by exactly the number of requests whose action
    names a property of the receivable-actions object, its own or one it
    inherits, with something bound to it; no other event starts a call, and
    every call that was there keeps its position, its request and its
    handler. *)
Theorem one_call_per_accepted_request (ts : TransportService) (evs : list event)
    (a a' : adapter) :
  reachable ts a -> run ts evs a = Some a' ->
  length (exchanges a') = (length (exchanges a) + length (List.filter (accepted ts) evs))%nat /\
  forall e x, exchanges a !! e = Some x ->
    exists x', exchanges a' !! e = Some x' /\
               ex_data x' = ex_data x /\ ex_handler x' = ex_handler x.
Proof.
  intros Hreach Hrun. pose proof (reachable_ok ts a Hreach) as Hok. split.
  - clear Hreach. revert a Hok Hrun.
    induction evs as [| ev evs IH]; intros a Hok Hrun; simpl in Hrun.
    + injection Hrun as <-. simpl. lia.
    + destruct (step ts ev a) as [a1|] eqn:Hstep; [| done].
      destruct (step_ok ts ev a a1 Hok Hstep) as [Hok1 _].
      rewrite (IH a1 Hok1 Hrun), (step_calls ts ev a a1 (proj1 Hok) Hstep).
      simpl. destruct (accepted ts ev); simpl; lia.
  - intros e x Hx. destruct (run_ok ts evs a a' Hok Hrun) as [_ Hev].
    destruct (Hev e x Hx) as (x' & Hx' & Hd & Hh & _). by exists x'.
Qed.

Lemma one_call_per_accepted_request_witness :
  length (exchanges
            (executeActionHandler (Inherited "toString") (envelope_of_action "toString")
               sample_resolved)) = 2%nat.
Proof.
  assert (H0 : reachable sample_service (new_adapter 8080))
    by (exists 8080, []; reflexivity).
  exact (proj1 (one_call_per_accepted_request sample_service
                  [Request None; Request (Some sample_request);
                   Request (Some (envelope_of_action "order.cancel"));
                   SendResponse sample_response;
                   Request (Some (envelope_of_action "toString"))]
                  (new_adapter 8080) _ H0 eq_refl)).
Defined.

Lemma step_set_server (ts : TransportService) ev s a :
  step ts ev (set_server s a) = set_server s <$> step ts ev a.
Proof.
  destruct ev as [d | msg | e err | e | ms | e]; simpl.
  - unfold handleHTTPRequest. destruct (find_handler ts d) as [[h r] | err]; [| done].
    simpl. unfold executeActionHandler. by destruct (truthy_id (request_id r)).
  - unfold sendResponse. destruct (truthy_id (res_request_id msg)) as [id|]; [| done].
    simpl. by destruct (pendingResponses a !! id).
  - destruct (exchanges a !! e) as [x|] eqn:Hx; [| done].
    destruct (ex_running x); [| done]. simpl. f_equal.
    unfold handler_catch. simpl.
    destruct (alter (set_running false) e (exchanges a) !! e) as [x0|]; [| done].
    by destruct (truthy_id (request_id (ex_data x0))).
  - destruct (exchanges a !! e) as [x|]; [| done]. by destruct (ex_running x).
  - by destruct (0 <=? ms).
  - destruct (exchanges a !! e) as [x|]; [| done].
    destruct (ex_timer x) as [d| |]; [| done | done]. by destruct (d <=? clock a).
Qed.

(** X11: no transition of the dispatcher reads or writes [this.server]:
    whatever that field holds (no server, a server made and not listening,
    a server listening), the same events are accepted and they change the
    registry, the calls and the clock in the same way, leaving the field as
    it was. *)
Theorem dispatch_ignores_server (ts : TransportService) (evs : list event)
    (s : option server_state) (a : adapter) :
  run ts evs (set_server s a) = set_server s <$> run ts evs a /\
  (forall a', run ts evs a = Some a' -> server a' = server a).
Proof.
  split.
  - revert a. induction evs as [| ev evs IH]; intros a; simpl; [done |].
    rewrite step_set_server. destruct (step ts ev a) as [a1|]; simpl; [apply IH | done].
  - revert a. induction evs as [| ev evs IH]; intros a a' Hrun; simpl in Hrun.
    + by injection Hrun as <-.
    + destruct (step ts ev a) as [a1|] eqn:Hstep; [| done].
      rewrite (IH a1 a' Hrun).
      pose proof (step_set_server ts ev (server a) a) as Hs.
      assert (Ha : set_server (server a) a = a) by (by destruct a).
      rewrite Ha, Hstep in Hs. simpl in Hs. injection Hs as Hs.
      rewrite Hs. reflexivity.
Qed.

Lemma sent_body_parses (d : CorrelatedRequestDTO) (options : gmap string js_value)
    (timeout : option Z) :
  carried (correlation_id d) = true -> carried (transport d) = true ->
  carried (data d) = true ->
  parse_body (req_body (sendHTTPRequest d options timeout)) = Some (JObj (request_props d)) /\
  exists d', request_of_js (JObj (request_props d)) = Some d' /\
    action d' = action d /\ correlation_id d' = correlation_id d /\
    request_id d' = request_id d /\ transport d' = transport d /\ data d' = data d.
Proof.
  intros Hc Ht Hd. destruct (request_props_json d Hc Ht Hd) as [Hj Hback].
  split; [| exact Hback].
  unfold parse_body, sendHTTPRequest. cbn [req_body]. rewrite object_text_not_empty.
  exact (proj2 (parse_stringify _ Hj)).
Qed.

(** X12: whatever [send] issues is registered where it arrives.  [send]
    never issues a request without a [request_id].  For an envelope whose
    fields are absent or values JSON can carry, and a body that reaches the
    listener in chunks whose decoded strings rejoin to the body written, the
    listener of the receiving adapter, if the action names a handler there,
    starts a call for an envelope with the action, [correlation_id],
    [request_id], [transport] and [data] of the envelope as [send] left it,
    and stores that call's resolver under that [request_id]. *)
Theorem sent_request_is_registered (uuidv4 : string) (ts ts' : TransportService)
    (d : CorrelatedRequestDTO) (options : gmap string js_value) (timeout : option Z)
    (rq : http_request) (h : handler) (b : adapter) (chunks : list string) :
  uuidv4 <> "" ->
  carried (correlation_id d) = true -> carried (transport d) = true ->
  carried (data d) = true ->
  snd (send uuidv4 ts d options timeout) = Returns rq ->
  String.concat "" chunks = req_body rq ->
  getReceivableActions ts' !! action d = Some (Some h) ->
  exists id d', id <> "" /\
    request_id (fst (send uuidv4 ts d options timeout)) = Some id /\
    (forall id', request_id d = Some id' -> id' <> "" -> id = id') /\
    action d' = action d /\ correlation_id d' = correlation_id d /\
    request_id d' = Some id /\ transport d' = transport d /\ data d' = data d /\
    listener ts' (method rq) (path rq) chunks b
      = Handled (executeActionHandler h d' b) None /\
    pendingResponses (executeActionHandler h d' b) !! id
      = Some (resolver_of (length (exchanges b))).
Proof.
  intros Hu Hc Ht Hd Hsend Hchunks Hb. unfold send in *.
  set (d1 := match truthy_id (request_id d) with
             | Some _ => d
             | None => set_request_id (Some uuidv4) d
             end) in *.
  assert (Hfields : action d1 = action d /\ correlation_id d1 = correlation_id d /\
                    transport d1 = transport d /\ data d1 = data d)
    by (subst d1; by destruct (truthy_id (request_id d))).
  destruct Hfields as (Hact & Hcor & Htra & Hdat).
  assert (Hid : exists id, truthy_id (request_id d1) = Some id /\
                  forall id', request_id d = Some id' -> id' <> "" -> id = id').
  { subst d1. destruct (truthy_id (request_id d)) as [id|] eqn:Hti.
    - exists id. split; [done |]. intros id' H1 H2.
      apply truthy_id_Some in Hti as [Hti _]. congruence.
    - exists uuidv4. split; [apply truthy_id_Some; split; [reflexivity | exact Hu] |].
      intros id' H1 H2. assert (truthy_id (request_id d) = Some id')
        by (by apply truthy_id_Some). congruence. }
  destruct Hid as (id & Hid & Hkeep).
  destruct (negb (bool_decide (action d1 ∈ getSendableActions ts))); [done |].
  destruct (negb (truthy (option_value options "host"))
            || negb (truthy (option_value options "port"))); [done |].
  cbn [fst snd] in *. apply executor_Returns in Hsend. subst rq.
  destruct (sent_body_parses d1 options timeout) as [Hbody (d' & Hback & Ha & Hco & Hi & Htr & Hda)];
    [congruence .. |].
  pose proof Hid as Hid'. apply truthy_id_Some in Hid' as [Hrid Hne].
  exists id, d'. split; [exact Hne |]. split; [exact Hrid |]. split; [exact Hkeep |].
  repeat (split; [congruence |]). split.
  - unfold listener. rewrite Hchunks, Hbody. cbn [truthy negb method path sendHTTPRequest].
    rewrite Hback. simpl. unfold handleHTTPRequest, find_handler. rewrite Ha, Hact, Hb.
    reflexivity.
  - unfold executeActionHandler. rewrite Hi, Hid. simpl. apply lookup_insert_eq.
Qed.

Lemma sent_request_is_registered_witness :
  exists id d', id <> "" /\
    listener sample_service "POST" "/http-transport"
      [String.substring 0 30
         (JSON.SerializeJSONObject (request_props (set_request_id (Some "u-1")
                                     (set_request_id None sample_priced))));
       String.substring 30 200
         (JSON.SerializeJSONObject (request_props (set_request_id (Some "u-1")
                                     (set_request_id None sample_priced))))]
      (new_adapter 8080)
    = Handled (executeActionHandler (Handler 0) d' (new_adapter 8080)) None /\
    pendingResponses (executeActionHandler (Handler 0) d' (new_adapter 8080)) !! id
    = Some (resolver_of 0).
Proof.
  assert (Hu : "u-1" <> "") by discriminate.
  assert (Hs : snd (send "u-1" sample_service (set_request_id None sample_priced)
                      (<["host" := JStr "localhost"]> (<["port" := JNum 8080]> ∅)) None)
               = Returns (sendHTTPRequest
                            (set_request_id (Some "u-1") (set_request_id None sample_priced))
                            (<["host" := JStr "localhost"]> (<["port" := JNum 8080]> ∅))
                            None))
    by (vm_compute; reflexivity).
  destruct (sent_request_is_registered "u-1" sample_service sample_service
              (set_request_id None sample_priced)
              (<["host" := JStr "localhost"]> (<["port" := JNum 8080]> ∅)) None
              _ (Handler 0) (new_adapter 8080)
              [String.substring 0 30
                 (JSON.SerializeJSONObject
                    (request_props (set_request_id (Some "u-1")
                                      (set_request_id None sample_priced))));
               String.substring 30 200
                 (JSON.SerializeJSONObject
                    (request_props (set_request_id (Some "u-1")
                                      (set_request_id None sample_priced))))]
              Hu eq_refl eq_refl eq_refl Hs ltac:(vm_compute; reflexivity) eq_refl)
    as (id & d' & H1 & _ & _ & _ & _ & _ & _ & _ & H2 & H3).
  exists id, d'. split; [exact H1 |]. split; [exact H2 | exact H3].
Defined.

Section Calls.

Lemma concat_chunks (chunk : string) (chunks : list string) :
  String.concat "" (chunk :: chunks) = chunk +:+ String.concat "" chunks.
Proof.
  destruct chunks as [| c cs]; simpl.
  - by rewrite append_empty_r.
  - reflexivity.
Qed.

Lemma call_run_app evs1 evs2 c :
  call_run (evs1 ++ evs2) c = call_run evs1 c ≫= call_run evs2.
Proof.
  revert c. induction evs1 as [| ev evs1 IH]; intros c; simpl; [done |].
  destruct (call_step ev c) as [c1|]; [apply IH | done].
Qed.

Lemma call_run_data chunks c r :
  cl_response c = Some r ->
  call_run (List.map Data chunks) c =
  Some {| cl_timeout := cl_timeout c;
          cl_response := Some (r +:+ String.concat "" chunks);
          cl_promise := cl_promise c; cl_uncaught := cl_uncaught c |}.
Proof.
  revert c r. induction chunks as [| chunk chunks IH]; intros c r Hr.
  - simpl. rewrite append_empty_r, <- Hr. by destruct c.
  - cbn [List.map call_run call_step]. rewrite Hr.
    erewrite IH by (cbn [cl_response]; reflexivity).
    cbn [cl_timeout cl_promise cl_uncaught].
    by rewrite concat_chunks, append_assoc.
Qed.

Lemma call_run_reply rq st chunks :
  call_run (Response st :: List.map Data chunks ++ [End]) (start_call rq) =
  Some match receive_reply (String.concat "" chunks) with
       | Some v => {| cl_timeout := req_timeout rq;
                      cl_response := Some (String.concat "" chunks);
                      cl_promise := Some (Returns v); cl_uncaught := false |}
       | None => {| cl_timeout := req_timeout rq;
                    cl_response := Some (String.concat "" chunks);
                    cl_promise := None; cl_uncaught := true |}
       end.
Proof.
  cbn [call_run call_step start_call cl_response].
  rewrite call_run_app. erewrite call_run_data by (cbn [cl_response]; reflexivity). simpl.
  change ("" +:+ String.concat "" chunks) with (String.concat "" chunks).
  by destruct (receive_reply (String.concat "" chunks)).
Qed.

Lemma reply_body_parses (rs : CorrelatedResponseDTO) :
  carried (res_correlation_id rs) = true -> carried (res_data rs) = true ->
  JSON.reads_back (status rs) = true ->
  receive_reply (body_text (EnvelopeBody rs)) = Some (JObj (response_props rs)) /\
  response_of_js (JObj (response_props rs)) = Some rs.
Proof.
  intros Hc Hd Hs. destruct (response_props_json rs Hc Hd Hs) as [Hj Hback].
  split; [| exact Hback].
  unfold receive_reply, body_text. cbn [body_props].
  exact (proj2 (parse_stringify _ Hj)).
Qed.

Lemma call_step_promise ev c c' o :
  cl_promise c = Some o -> call_step ev c = Some c' -> cl_promise c' = Some o.
Proof.
  intros Ho Hstep. destruct ev as [st | chunk | | err |]; simpl in Hstep.
  - destruct (cl_response c); [done |]. by injection Hstep as <-.
  - destruct (cl_response c); [| done]. by injection Hstep as <-.
  - destruct (cl_response c) as [r|]; [| done].
    destruct (receive_reply r); injection Hstep as <-; [| done].
    unfold settle_call. by rewrite Ho.
  - injection Hstep as <-. unfold settle_call. by rewrite Ho.
  - destruct (cl_timeout c); [| done]. injection Hstep as <-.
    unfold settle_call. by rewrite Ho.
Qed.

Lemma call_step_no_timeout ev c c' :
  cl_timeout c = None -> call_step ev c = Some c' ->
  cl_timeout c' = None /\ ev <> Idle /\
  forall err, cl_promise c' = Some (Throws err) ->
    cl_promise c = Some (Throws err) \/ ev = RequestError err.
Proof.
  intros H0 Hstep. destruct ev as [st | chunk | | err0 |]; simpl in Hstep.
  - destruct (cl_response c); [done |]. injection Hstep as <-. simpl. auto.
  - destruct (cl_response c); [| done]. injection Hstep as <-. simpl. auto.
  - destruct (cl_response c) as [r|]; [| done].
    destruct (receive_reply r); injection Hstep as <-; simpl; [| auto].
    unfold settle_call. destruct (cl_promise c) eqn:Hc; simpl; [rewrite Hc; auto |].
    repeat split; [done | done |]. intros err [=].
  - injection Hstep as <-. unfold settle_call.
    destruct (cl_promise c) eqn:Hc; simpl; [rewrite Hc; auto |].
    repeat split; [done | done |]. intros err [= <-]. by right.
  - by rewrite H0 in Hstep.
Qed.

Lemma call_run_no_timeout evs c c' :
  cl_timeout c = None -> call_run evs c = Some c' ->
  (Idle ∉ evs) /\
  forall err, cl_promise c' = Some (Throws err) ->
    cl_promise c = Some (Throws err) \/ RequestError err ∈ evs.
Proof.
  revert c. induction evs as [| ev evs IH]; intros c H0 Hrun; simpl in Hrun.
  - injection Hrun as <-. split; [apply not_elem_of_nil | auto].
  - destruct (call_step ev c) as [c1|] eqn:Hstep; [| done].
    destruct (call_step_no_timeout ev c c1 H0 Hstep) as (H1 & Hev & Hp1).
    destruct (IH c1 H1 Hrun) as [Hni Hq]. split.
    + apply not_elem_of_cons. split; [congruence | done].
    + intros err Herr. destruct (Hq err Herr) as [Hc1 | Hin].
      * destruct (Hp1 err Hc1) as [Hc0 | ->]; [by left |].
        right. apply list_elem_of_here.
      * right. by apply list_elem_of_further.
Qed.

End Calls.

(** X13: the promise of [sendHTTPRequest] is resolved with whatever JSON
    value the reply body holds, whatever the status code of the reply.  The
    body is what the chunks received join to, each chunk read as the string
    it decodes to; when that is no JSON text the exception of [JSON.parse]
    escapes the [end] listener and the promise is left unsettled. *)
Theorem reply_resolves_whatever_status (rq : http_request) (st : Z)
    (chunks : list string) :
  exists c,
    call_run (Response st :: List.map Data chunks ++ [End]) (start_call rq) = Some c /\
    match JSON.parse (String.concat "" chunks) with
    | Some v => cl_promise c = Some (Returns v) /\ cl_uncaught c = false
    | None => cl_promise c = None /\ cl_uncaught c = true
    end.
Proof.
  rewrite call_run_reply. eexists. split; [reflexivity |].
  unfold receive_reply. by destruct (JSON.parse (String.concat "" chunks)).
Qed.

(** X14: the promise of [sendHTTPRequest] settles once: after it is
    resolved or rejected, no later event of the call (an error of the
    request, the idle timeout, further data) changes its outcome. *)
Theorem sender_settles_once (evs : list call_event) (c c' : call)
    (o : outcome js_value) :
  cl_promise c = Some o -> call_run evs c = Some c' -> cl_promise c' = Some o.
Proof.
  revert c. induction evs as [| ev evs IH]; intros c Ho Hrun; simpl in Hrun.
  - by injection Hrun as <-.
  - destruct (call_step ev c) as [c1|] eqn:Hstep; [| done].
    apply (IH c1); [by eapply call_step_promise | done].
Qed.

Lemma sender_settles_once_witness :
  exists c, call_run [Response 200; Data "{}"; End; Idle; RequestError (Error "reset")]
              (start_call (sendHTTPRequest sample_request ∅ (Some 5000))) = Some c /\
            cl_promise c = Some (Returns (JObj [])).
Proof.
  eexists. split; [vm_compute; reflexivity |].
  apply (sender_settles_once [Idle; RequestError (Error "reset")]
           {| cl_timeout := Some 5000; cl_response := Some "{}";
              cl_promise := Some (Returns (JObj [])); cl_uncaught := false |});
    [reflexivity | vm_compute; reflexivity].
Defined.

(** X15: a call issued without a timeout, or with timeout 0, sets no timer:
    it is never rejected for idleness, and it is rejected only with the
    error of an error event of the request. *)
Theorem no_timeout_no_idle_rejection (d : CorrelatedRequestDTO)
    (options : gmap string js_value) (timeout : option Z)
    (evs : list call_event) (c : call) :
  timeout = None \/ timeout = Some 0 ->
  call_run evs (start_call (sendHTTPRequest d options timeout)) = Some c ->
  (Idle ∉ evs) /\
  forall err, cl_promise c = Some (Throws err) -> RequestError err ∈ evs.
Proof.
  intros Ht Hrun.
  assert (H0 : cl_timeout (start_call (sendHTTPRequest d options timeout)) = None)
    by (destruct Ht as [-> | ->]; reflexivity).
  destruct (call_run_no_timeout evs _ c H0 Hrun) as [Hni Hp].
  split; [exact Hni |]. intros err Herr. by destruct (Hp err Herr).
Qed.

Lemma no_timeout_no_idle_rejection_witness :
  RequestError (Error "reset") ∈ [Response 200; RequestError (Error "reset")].
Proof.
  assert (H0 : Some 0 = None \/ Some 0 = Some 0) by (right; reflexivity).
  apply (proj2 (no_timeout_no_idle_rejection sample_request ∅ (Some 0)
                  [Response 200; RequestError (Error "reset")]
                  {| cl_timeout := None; cl_response := Some "";
                     cl_promise := Some (Throws (Error "reset"));
                     cl_uncaught := false |} H0 eq_refl)).
  reflexivity.
Defined.

(** X16: a request rejected before dispatch is answered with a status other
    than 200, but the sender's promise is resolved all the same, not
    rejected: [send] returns the parsed body [{error}], which is not a
    response envelope. *)
Theorem rejection_resolves_sender (ts : TransportService)
    (d : option CorrelatedRequestDTO) (a : adapter) (w : wire_reply)
    (rq : http_request) (chunks : list string) :
  snd (handleHTTPRequest ts d a) = Some w ->
  String.concat "" chunks = body_text (body w) ->
  exists c m,
    call_run (Response (wire_status w) :: List.map Data chunks ++ [End]) (start_call rq)
      = Some c /\
    cl_promise c = Some (Returns (JObj [("error", JStr m)])) /\
    response_of_js (JObj [("error", JStr m)]) = None /\
    body w = ErrorBody m /\ (wire_status w = 400 \/ wire_status w = 500).
Proof.
  intros Hw Hchunks. rewrite call_run_reply, Hchunks.
  assert (Hbody : exists m, body w = ErrorBody m /\
                            (wire_status w = 400 \/ wire_status w = 500)).
  { unfold handleHTTPRequest in Hw. pose proof (find_handler_cases ts d) as Hc.
    destruct (find_handler ts d) as [[h r] | err]; [done |]. simpl in Hw.
    injection Hw as <-. destruct Hc as [[-> _] | (r & _ & _ & ->)]; simpl; eauto. }
  destruct Hbody as (m & Hm & Hst). rewrite Hm.
  assert (Hparse : receive_reply (body_text (ErrorBody m)) = Some (JObj [("error", JStr m)])).
  { unfold receive_reply, body_text. cbn [body_props].
    exact (proj2 (parse_stringify (JObj [("error", JStr m)]) eq_refl)). }
  rewrite Hparse. eexists; exists m. repeat split; done.
Qed.

Lemma rejection_resolves_sender_witness :
  exists c,
    call_run [Response 400;
              Data (String.substring 0 9
                      (body_text (ErrorBody "Invalid action provided: undefined")));
              Data (String.substring 9 40
                      (body_text (ErrorBody "Invalid action provided: undefined")));
              End]
      (start_call (sendHTTPRequest sample_request ∅ None)) = Some c /\
    is_Some (cl_promise c).
Proof.
  destruct (rejection_resolves_sender sample_service None (new_adapter 8080)
              {| wire_status := 400; content_type := "application/json";
                 body := ErrorBody "Invalid action provided: undefined" |}
              (sendHTTPRequest sample_request ∅ None)
              [String.substring 0 9
                 (body_text (ErrorBody "Invalid action provided: undefined"));
               String.substring 9 40
                 (body_text (ErrorBody "Invalid action provided: undefined"))]
              eq_refl eq_refl) as (c & m & H1 & H2 & _).
  exists c. split; [exact H1 |]. rewrite H2. by eexists.
Defined.

(** X17: the failure of a remote handler does not reject the sender.  The
    one reply of a call settled by an error has wire status 200 and carries
    an envelope with the status and message computed from the error and no
    [request_id].  When the [correlation_id] of the request is absent or a
    value JSON can carry, the status is a number that is read back, and the
    chunks [sendHTTPRequest] receives are strings that join to the body
    written, the sender's promise is resolved with that envelope. *)
Theorem failure_reply_resolves_sender (ts : TransportService) (a : adapter) (e : nat)
    (x : exchange) (err : thrown) (rq : http_request) :
  reachable ts a -> exchanges a !! e = Some x -> ex_promise x = Some (Rejected err) ->
  carried (correlation_id (ex_data x)) = true ->
  JSON.reads_back (fst (classify err)) = true ->
  let r := {| res_action := action (ex_data x);
              res_correlation_id := correlation_id (ex_data x);
              res_request_id := None; res_data := JObj [];
              error := snd (classify err); status := fst (classify err) |} in
  ex_res x = [{| wire_status := 200; content_type := "application/json";
                 body := EnvelopeBody r |}] /\
  forall chunks, String.concat "" chunks = body_text (EnvelopeBody r) ->
    exists c v,
      call_run (Response 200 :: List.map Data chunks ++ [End]) (start_call rq) = Some c /\
      cl_promise c = Some (Returns v) /\ response_of_js v = Some r.
Proof.
  intros Hreach Hx Hp Hcor Hst r.
  destruct (reachable_ok ts a Hreach) as [_ Hex]. specialize (Hex e x Hx).
  unfold ex_ok in Hex. rewrite Hp in Hex. destruct Hex as [_ Hres]. split.
  - rewrite Hres. unfold respond. subst r. by destruct (classify err).
  - intros chunks Hchunks. rewrite call_run_reply, Hchunks.
    destruct (reply_body_parses r Hcor eq_refl Hst) as [Hparse Hback].
    rewrite Hparse. eexists; eexists. split; [reflexivity |]. split; [reflexivity | exact Hback].
Qed.

Lemma failure_reply_resolves_sender_witness :
  exists x, exchanges sample_failed !! 0%nat = Some x /\
    ex_res x = [{| wire_status := 200; content_type := "application/json";
                   body := EnvelopeBody
                     {| res_action := "order.create"; res_correlation_id := JStr "c-1";
                        res_request_id := None; res_data := JObj [];
                        error := "sku is required, qty must be positive";
                        status := 400 |} |}].
Proof.
  assert (H0 : reachable sample_service sample_failed).
  { exists 8080, [Request (Some sample_request);
                  HandlerRejects 0 (ZodError ["sku is required"; "qty must be positive"]
                                      "invalid order")].
    vm_compute; reflexivity. }
  assert (H1 : JSON.reads_back
                 (fst (classify (ZodError ["sku is required"; "qty must be positive"]
                                   "invalid order"))) = true)
    by (vm_compute; reflexivity).
  eexists. split; [reflexivity |].
  exact (proj1 (failure_reply_resolves_sender sample_service sample_failed 0 _ _
                  (sendHTTPRequest sample_request ∅ None) H0 eq_refl eq_refl eq_refl H1)).
Defined.

(** X18: the variant without deferred completion answers every request it
    does not dispatch with status 400 and the message for an invalid action:
    its test [!actionHandlers[action]] already rejects a property with
    nothing bound, so its [Handler not defined] branch is never taken.  Both
    variants read the record of handlers through its prototype chain, so
    over the same record they dispatch the same requests (those for an
    inherited property among them) to the same handlers and write the same
    rejections, but for a property with nothing bound, where the later
    variant answers 500. *)
Theorem legacy_rejects_with_400_only (ts : TransportService)
    (d : option CorrelatedRequestDTO) (a : adapter) :
  match Legacy.handleHTTPRequest (getReceivableActions ts) d with
  | inl w =>
      w = {| wire_status := 400; content_type := "application/json";
             body := ErrorBody ("Invalid action provided: " +:+
                                match d with Some r => action r | None => "undefined" end) |} /\
      (handleHTTPRequest ts d a = (a, Some w) \/
       exists r, d = Some r /\ getReceivableActions ts !! action r = Some None /\
         handleHTTPRequest ts d a =
         (a, Some {| wire_status := 500; content_type := "application/json";
                     body := ErrorBody ("Handler not defined for action: "
                                        +:+ action r) |}))
  | inr (h, r) =>
      d = Some r /\ getReceivableActions ts !! action r = Some (Some h) /\
      handleHTTPRequest ts d a = (executeActionHandler h r a, None)
  end.
Proof.
  unfold Legacy.handleHTTPRequest, Legacy.find_handler, Legacy.unbound,
    handleHTTPRequest, find_handler.
  destruct d as [r|]; [| simpl; split; [done | by left]].
  destruct (getReceivableActions ts !! action r) as [[h|]|] eqn:Hb; simpl.
  - done.
  - split; [done |]. right. by exists r.
  - split; [done | by left].
Qed.

(** X19: the earlier [send] neither completes the envelope nor checks the
    action.  It throws its BadRequestError exactly when the host or the
    port is missing or falsy; otherwise it runs the executor of
    [sendHTTPRequest] on the envelope as it was given, so that what goes
    out carries that envelope and a negative timeout makes it throw the
    RangeError of [setTimeout].  For a sendable action and an envelope that
    has a [request_id] the two variants issue the same call or throw the
    same error. *)
Theorem legacy_send_agrees (uuidv4 : string) (ts : TransportService)
    (d : CorrelatedRequestDTO) (options : gmap string js_value) (timeout : option Z) :
  (truthy (option_value options "host") = false \/
   truthy (option_value options "port") = false ->
     Legacy.send d options timeout
     = Throws (BadRequestError "Host and/or port missing in transport options")) /\
  (truthy (option_value options "host") = true ->
   truthy (option_value options "port") = true ->
     Legacy.send d options timeout = executor (sendHTTPRequest d options timeout)) /\
  (forall rq, Legacy.send d options timeout = Returns rq ->
     rq = sendHTTPRequest d options timeout /\
     req_body rq = JSON.SerializeJSONObject (request_props d)) /\
  (forall t, timeout = Some t -> t < 0 ->
     forall rq, Legacy.send d options timeout <> Returns rq) /\
  (action d ∈ getSendableActions ts -> truthy_id (request_id d) <> None ->
     send uuidv4 ts d options timeout = (d, Legacy.send d options timeout)).
Proof.
  unfold Legacy.send, send. split; [| split; [| split; [| split]]].
  - intros [-> | ->]; [done | by rewrite orb_true_r].
  - by intros -> ->.
  - intros rq. destruct (_ || _); [done |]. intros Hrq.
    apply executor_Returns in Hrq. by subst rq.
  - intros t -> Ht rq. destruct (_ || _); [done |]. unfold executor.
    cbn [req_timeout sendHTTPRequest truthy_timeout].
    destruct (Z.eqb_spec t 0) as [-> | _]; [lia |].
    destruct (Z.ltb_spec t 0) as [_ | Hge]; [| lia].
    repeat case_match; congruence.
  - intros Hin Hid. destruct (truthy_id (request_id d)); [| done].
    rewrite bool_decide_true by done. simpl. by destruct (_ || _).
Qed.

Lemma request_of_js_action (v : js_value) (d : CorrelatedRequestDTO) :
  request_of_js v = Some d -> ToString (property v "action") = action d.
Proof.
  destruct v as [| | b | x | s | items | props]; try discriminate.
  cbn [request_of_js property].
  destruct (JSON.get_prop "action" props); try discriminate.
  destruct (request_id_of _); [| discriminate]. by intros [= <-].
Qed.

Lemma falsy_has_no_action (v : js_value) :
  truthy v = false -> ToString (property v "action") = "undefined".
Proof. by destruct v as [| | [|] | x | s | items | props]. Qed.

(** X20: what the server's listener does with a request, case by case.  A
    request for another method or URL is ignored.  The body is what the
    chunks join to, each as the string it decodes to; when it is no JSON
    text (and not empty) nothing is written.  Otherwise the action is read
    from the parsed body: an empty body, a body that is falsy, and a body
    whose action names no property of the record of handlers are answered
    at once with 400, one whose action names a property with nothing bound
    with 500, and the adapter is left as it was.  A body whose action names
    a handler starts one call and nothing is written yet: for a body at the
    type of the envelope (the action a string, the [request_id] a string or
    falsy) that call is the one of [executeActionHandler] for the envelope
    read from it; a body that names a handler without being at that type is
    marked and followed no further. *)
Theorem listener_changes_only_on_dispatch (ts : TransportService)
    (req_method url : string) (chunks : list string) (a : adapter) :
  match listener ts req_method url chunks a with
  | Ignored => req_method <> "POST" \/ url <> HTTP_TRANSPORT_ENDPOINT
  | ParseFails =>
      req_method = "POST" /\ url = HTTP_TRANSPORT_ENDPOINT /\
      parse_body (String.concat "" chunks) = None
  | Untyped v =>
      req_method = "POST" /\ url = HTTP_TRANSPORT_ENDPOINT /\
      parse_body (String.concat "" chunks) = Some v /\ truthy v = true /\
      request_of_js v = None /\
      exists h, getReceivableActions ts !! ToString (property v "action") = Some (Some h)
  | Handled a' None =>
      req_method = "POST" /\ url = HTTP_TRANSPORT_ENDPOINT /\
      exists v d h, parse_body (String.concat "" chunks) = Some v /\ truthy v = true /\
                    request_of_js v = Some d /\
                    getReceivableActions ts !! action d = Some (Some h) /\
                    a' = executeActionHandler h d a
  | Handled a' (Some w) =>
      req_method = "POST" /\ url = HTTP_TRANSPORT_ENDPOINT /\ a' = a /\
      exists v, parse_body (String.concat "" chunks) = Some v /\
        (((truthy v = false \/
           getReceivableActions ts !! ToString (property v "action") = None) /\
          w = {| wire_status := 400; content_type := "application/json";
                 body := ErrorBody ("Invalid action provided: "
                                    +:+ ToString (property v "action")) |}) \/
         (truthy v = true /\
          getReceivableActions ts !! ToString (property v "action") = Some None /\
          w = {| wire_status := 500; content_type := "application/json";
                 body := ErrorBody ("Handler not defined for action: "
                                    +:+ ToString (property v "action")) |}))
  end.
Proof.
  unfold listener.
  destruct (String.eqb_spec req_method "POST") as [-> | Hm]; [| by left].
  destruct (String.eqb_spec url HTTP_TRANSPORT_ENDPOINT) as [-> | Hu]; [| by right].
  cbn [negb orb]. destruct (parse_body (String.concat "" chunks)) as [v|] eqn:Hparse; [| done].
  destruct (truthy v) eqn:Htruthy; cbn [negb].
  - destruct (request_of_js v) as [d|] eqn:Hreq.
    + pose proof (request_of_js_action v d Hreq) as Hact.
      pose proof (dispatcher_cases ts (Some d) a) as Hd. cbv beta iota in Hd.
      destruct (getReceivableActions ts !! action d) as [[h|]|] eqn:Hb.
      * destruct Hd as [-> _]. cbn [fst snd]. split; [done |]. split; [done |].
        by exists v, d, h.
      * rewrite Hd. cbn [fst snd]. repeat (split; [done |]). exists v. split; [done |].
        right. rewrite Hact. by rewrite Hb.
      * rewrite Hd. cbn [fst snd]. repeat (split; [done |]). exists v. split; [done |].
        left. rewrite Hact. split; [by right | done].
    + pose proof (dispatcher_cases ts
                    (Some (envelope_of_action (ToString (property v "action")))) a) as Hd.
      cbv beta iota in Hd. unfold find_handler.
      cbn [action envelope_of_action] in *.
      destruct (getReceivableActions ts !! ToString (property v "action")) as [[h|]|] eqn:Hb.
      * repeat (split; [done |]). by exists h.
      * rewrite Hd. cbn [fst snd]. repeat (split; [done |]). exists v. split; [done |].
        right. by rewrite Hb.
      * rewrite Hd. cbn [fst snd]. repeat (split; [done |]). exists v. split; [done |].
        left. split; [by right | done].
  - cbn [handleHTTPRequest find_handler fst snd]. repeat (split; [done |]).
    exists v. split; [done |]. left. rewrite (falsy_has_no_action v Htruthy).
    split; [by left | done].
Qed.
